(** * OCDM PlayReady (Nexus SVP) media system: a shallow embedding

    This development embeds the control flow of [MediaSystem.cpp]
    (class [CDMi::PlayReady]) and proves properties of it.

    The class drives three external collaborators: the PlayReady SDK
    ([Drm_*]), the Nexus platform ([NEXUS_*], [BKNI_*]) and the host
    (files, clock, C++ allocation, the HTTP helper [PRDY_HTTP_Client_*]).
    None of them is part of the source, so they are a parameter of the
    model: a record [Sdk S] of functions over an arbitrary state [S] of the
    outside world.  Every call into the outside world is also written to a
    trace, so that "this call was (not) made" and "this call came before
    that one" are statements about a list of events.

    A method is a function from the world (outside state, members of the
    object, trace) to a result [Res]: it returns, or it is still in the
    petition loop of [InitSecureClock] when the fuel is spent, or it has
    run into undefined behaviour.  The [goto ErrorExit] chains are written
    as nested conditionals whose value is the value of the locals that the
    exit block reads ([dr], or [rc] and the buffers to free).

    The numeric values of the SDK's result codes and size macros live in
    SDK headers; they are the fields of [SdkHeaders].  Only [DRM_SUCCESS]
    (the source compares against the literal [0] as well) and the SDK's
    macros are fixed here, with their usual meaning:
    - [DRM_FAILED(dr)] is [dr < 0];
    - [ChkDR(e)] is [dr = e; if (DRM_FAILED(dr)) goto ErrorExit;];
    - [ChkMem(e)] is [if (e == NULL) { dr = DRM_E_OUTOFMEMORY; goto ErrorExit; }];
    - [SAFE_OEM_FREE(p)] frees [p] when it is not null.

    The methods that take the lock [drmAppContextMutex_] hold it from entry
    to exit; a run of the model is one such critical section, and logging
    is left out. *)

From Stdlib Require Import ZArith List String Bool Lia.
From Stdlib.Strings Require Import Byte.
Import ListNotations.
Local Open Scope Z_scope.

Set Implicit Arguments.

(** ** Machine integers *)

Definition to_u16 (x : Z) : Z := x mod 2 ^ 16.
Definition to_u32 (x : Z) : Z := x mod 2 ^ 32.
Definition to_i32 (x : Z) : Z := (x + 2 ^ 31) mod 2 ^ 32 - 2 ^ 31.

Definition len {A : Type} (l : list A) : Z := Z.of_nat (List.length l).

(** ** Result codes *)

(** [DRM_RESULT] is a signed 32-bit integer. *)
Definition DRM_RESULT := Z.
Definition DRM_SUCCESS : DRM_RESULT := 0.
(** The SDK macro [DRM_FAILED(dr)] is [dr < 0]. *)
Definition DRM_FAILED (dr : DRM_RESULT) : bool := dr <? 0.

Definition NEXUS_SUCCESS : Z := 0.

(** The two members of the [CDMi_RESULT] enumeration that this class
    returns. *)
Inductive CDMi_RESULT : Type :=
| CDMi_SUCCESS
| CDMi_S_FALSE.

Definition CDMi_RESULT_eqb (a b : CDMi_RESULT) : bool :=
  match a, b with
  | CDMi_SUCCESS, CDMi_SUCCESS => true
  | CDMi_S_FALSE, CDMi_S_FALSE => true
  | _, _ => false
  end.

(** const uint32_t NONCE_STORE_SIZE = 100; *)
Definition NONCE_STORE_SIZE : Z := 100.

(** Modelled from the spec: the macro [DRM_ID_SIZE] of the SDK headers; the
    session identifier "is a fixed-size (16-byte) opaque token". *)
Definition DRM_ID_SIZE : Z := 16.

Definition MAX_TIME_CHALLENGE_RESPONSE_LENGTH : Z := 1024 * 64.
Definition MAX_URL_LENGTH : Z := 512.

Definition DRM_DEFAULT_REVOCATION_LIST_FILE : string := "/tmp/revpackage.xml"%string.

(** Constants that the source takes from SDK and platform headers. *)
Record SdkHeaders : Type := mkSdkHeaders {
  DRM_E_OUTOFMEMORY : DRM_RESULT;
  DRM_E_NOMORE : DRM_RESULT;
  DRM_E_SECURETIME_CLOCK_NOT_SET : DRM_RESULT;
  DRM_E_TEE_PROVISIONING_REQUIRED : DRM_RESULT;
  DRM_E_CLK_NOT_SUPPORTED : DRM_RESULT;
  MINIMUM_APPCONTEXT_OPAQUE_BUFFER_SIZE : Z;
  MAX_NUM_LICENSES : Z;
  LICENSE_SIZE_BYTES : Z;
  REVOCATION_BUFFER_SIZE : Z;
  DRM_STORE_CLEANUP_ALL : Z;
  DRM_CSP_DECRYPTION_OUTPUT_MODE : Z;
  OEM_TEE_DECRYPTION_MODE_HANDLE : Z;
  NEXUS_MemoryType_eFull : Z;
  g_dstrHttpSecureTimeServerUrl : string
}.

(** What the model needs to know about the clock codes: they are error
    codes, and "not supported" is a code of its own. *)
Definition clock_codes_ok (H : SdkHeaders) : Prop :=
  DRM_FAILED (DRM_E_SECURETIME_CLOCK_NOT_SET H) = true /\
  DRM_FAILED (DRM_E_TEE_PROVISIONING_REQUIRED H) = true /\
  DRM_FAILED (DRM_E_CLK_NOT_SUPPORTED H) = true /\
  DRM_E_CLK_NOT_SUPPORTED H <> DRM_E_SECURETIME_CLOCK_NOT_SET H /\
  DRM_E_CLK_NOT_SUPPORTED H <> DRM_E_TEE_PROVISIONING_REQUIRED H.

(** ** Data *)

(** A non-null pointer; [option ptr] is a pointer that may be null. *)
Definition ptr := Z.

(** A byte of a buffer that was declared but not written is [None]. *)
Definition cell := option byte.

(** struct tm, the fields the source reads. *)
Record tm : Type := mkTm {
  tm_year : Z; tm_mon : Z; tm_wday : Z; tm_mday : Z;
  tm_hour : Z; tm_min : Z; tm_sec : Z
}.

(** DRMSYSTEMTIME: eight DRM_WORD (16-bit) fields. *)
Record DRMSYSTEMTIME : Type := mkSystemTime {
  wYear : Z; wMonth : Z; wDayOfWeek : Z; wDay : Z;
  wHour : Z; wMinute : Z; wSecond : Z; wMilliseconds : Z
}.

(** The data members of [class PlayReady]. *)
Record PlayReady : Type := mkPlayReady {
  drmdir_ : string;
  m_drmOemContext : option ptr;
  m_pbOpaqueBuffer : option ptr;
  m_cbOpaqueBuffer : Z;
  m_pbRevocationBuffer : option ptr;
  m_poAppContext : option ptr;
  m_readDir : string;
  m_storeLocation : string;
  m_meteringCertificate : option (list byte);
  m_meteringCertificateSize : Z
}.

Definition set_drmdir_ (v : string) (o : PlayReady) : PlayReady :=
  mkPlayReady v (m_drmOemContext o) (m_pbOpaqueBuffer o) (m_cbOpaqueBuffer o)
    (m_pbRevocationBuffer o) (m_poAppContext o) (m_readDir o)
    (m_storeLocation o) (m_meteringCertificate o) (m_meteringCertificateSize o).

Definition set_m_drmOemContext (v : option ptr) (o : PlayReady) : PlayReady :=
  mkPlayReady (drmdir_ o) v (m_pbOpaqueBuffer o) (m_cbOpaqueBuffer o)
    (m_pbRevocationBuffer o) (m_poAppContext o) (m_readDir o)
    (m_storeLocation o) (m_meteringCertificate o) (m_meteringCertificateSize o).

Definition set_m_pbOpaqueBuffer (v : option ptr) (c : Z) (o : PlayReady) : PlayReady :=
  mkPlayReady (drmdir_ o) (m_drmOemContext o) v c
    (m_pbRevocationBuffer o) (m_poAppContext o) (m_readDir o)
    (m_storeLocation o) (m_meteringCertificate o) (m_meteringCertificateSize o).

Definition set_m_pbRevocationBuffer (v : option ptr) (o : PlayReady) : PlayReady :=
  mkPlayReady (drmdir_ o) (m_drmOemContext o) (m_pbOpaqueBuffer o) (m_cbOpaqueBuffer o)
    v (m_poAppContext o) (m_readDir o)
    (m_storeLocation o) (m_meteringCertificate o) (m_meteringCertificateSize o).

Definition set_m_poAppContext (v : option ptr) (o : PlayReady) : PlayReady :=
  mkPlayReady (drmdir_ o) (m_drmOemContext o) (m_pbOpaqueBuffer o) (m_cbOpaqueBuffer o)
    (m_pbRevocationBuffer o) v (m_readDir o)
    (m_storeLocation o) (m_meteringCertificate o) (m_meteringCertificateSize o).

(** ** Calls into the outside world *)

Inductive Event : Type :=
| EvFile_Exists (path : string)
| EvDirectory_CreatePath (path : string)
| EvNew_DRM_APP_CONTEXT
| EvDelete_DRM_APP_CONTEXT (p : ptr)
| EvNew_MediaKeySession (oem ctx : option ptr)
| EvNEXUS_Memory_Allocate (size : Z)
| EvNEXUS_Memory_Free
| EvBKNI_Malloc (size : Z)
| EvBKNI_Free
| EvOem_MemAlloc (size : Z)
| EvOem_MemFree
| Evfopen (path : string)
| Evgettimeofday
| EvDrm_Platform_Initialize (heap : option ptr)
| EvDrm_Platform_Uninitialize (oem : option ptr)
| EvDrm_Initialize (ctx oem : option ptr) (store : string)
| EvDrm_Uninitialize (ctx : option ptr)
| EvDrm_StoreMgmt_CleanupStore (ctx : option ptr)
| EvDrm_SecureTime_GetValue (ctx : option ptr)
| EvDrm_SecureTime_GenerateChallenge (ctx : option ptr)
| EvDrm_SecureTime_ProcessResponse (ctx : option ptr)
| EvDrm_AntiRollBackClock_Init (ctx : option ptr) (systemTime : DRMSYSTEMTIME)
| EvDrm_ResizeInMemoryLicenseStore (ctx : option ptr) (size : Z)
| EvDRM_REVOCATION_IsRevocationSupported
| EvDrm_Revocation_SetBuffer (ctx : option ptr)
| EvDrm_Revocation_StorePackage (ctx : option ptr)
| EvDrm_Content_SetProperty (ctx : option ptr) (property value : Z)
| EvDrm_SecureStop_EnumerateSessions (ctx : option ptr)
| EvDrm_SecureStop_GenerateChallenge (ctx : option ptr) (id : list cell)
| EvDrm_SecureStop_ProcessResponse (ctx : option ptr) (id : list cell)
| EvPRDY_HTTP_Client_GetForwardLinkUrl (url : string)
| EvPRDY_HTTP_Client_GetSecureTimeUrl (url : string)
| EvPRDY_HTTP_Client_SecureTimeChallengePost (url : string).

(** The outside world, over its own state [S].  A function returns what
    the C function returns or writes through its out-parameters, and the
    next state. *)
Record Sdk (S : Type) : Type := mkSdk {
  (* host *)
  File_Exists : string -> S -> bool * S;
  Directory_CreatePath : string -> S -> unit * S;
  fopen : string -> S -> option (list byte) * S;
  gettimeofday : S -> (Z * Z) * S;
  gmtime : Z -> option tm;
  new_DRM_APP_CONTEXT : S -> ptr * S;
  new_MediaKeySession : option ptr -> option ptr -> S -> ptr * S;
  (* Nexus *)
  NEXUS_default_heap : S -> option ptr;
  NEXUS_full_heap : S -> option (ptr * Z);
  NEXUS_Memory_Allocate : Z -> S -> (Z * bool) * S;
  BKNI_Malloc : Z -> S -> bool * S;
  Oem_MemAlloc : Z -> S -> option ptr * S;
  (* PlayReady *)
  Drm_Platform_Initialize : option ptr -> S -> (DRM_RESULT * option ptr) * S;
  Drm_Platform_Uninitialize : option ptr -> S -> unit * S;
  Drm_Initialize :
    option ptr -> option ptr -> option ptr -> Z -> string -> S -> DRM_RESULT * S;
  Drm_Uninitialize : option ptr -> S -> unit * S;
  Drm_StoreMgmt_CleanupStore : option ptr -> Z -> S -> DRM_RESULT * S;
  Drm_SecureTime_GetValue : option ptr -> S -> DRM_RESULT * S;
  Drm_SecureTime_GenerateChallenge :
    option ptr -> S -> (DRM_RESULT * option (list byte)) * S;
  Drm_SecureTime_ProcessResponse :
    option ptr -> Z -> list byte -> S -> DRM_RESULT * S;
  Drm_AntiRollBackClock_Init : option ptr -> DRMSYSTEMTIME -> S -> DRM_RESULT * S;
  Drm_ResizeInMemoryLicenseStore : option ptr -> Z -> S -> DRM_RESULT * S;
  DRM_REVOCATION_IsRevocationSupported : S -> bool * S;
  Drm_Revocation_SetBuffer : option ptr -> option ptr -> Z -> S -> DRM_RESULT * S;
  Drm_Revocation_StorePackage : option ptr -> list byte -> Z -> S -> DRM_RESULT * S;
  Drm_Content_SetProperty : option ptr -> Z -> Z -> S -> DRM_RESULT * S;
  Drm_SecureStop_EnumerateSessions :
    option ptr -> Z -> option (list byte) -> S ->
    (DRM_RESULT * Z * option (list (list byte))) * S;
  Drm_SecureStop_GenerateChallenge :
    option ptr -> list cell -> Z -> option (list byte) -> S ->
    (DRM_RESULT * Z * list byte) * S;
  Drm_SecureStop_ProcessResponse :
    option ptr -> list cell -> Z -> option (list byte) -> Z -> list byte -> S ->
    (DRM_RESULT * Z * option string) * S;
  (* HTTP helper: return code, response code, URL written to the buffer *)
  PRDY_HTTP_Client_GetForwardLinkUrl : string -> S -> (Z * Z * string) * S;
  PRDY_HTTP_Client_GetSecureTimeUrl : string -> S -> (Z * Z * string) * S;
  PRDY_HTTP_Client_SecureTimeChallengePost :
    string -> option (list byte) -> S -> (Z * list byte * Z) * S
}.

(** ** The machine: object, outside world and trace *)

Record World (S : Type) : Type := mkWorld {
  outside : S;
  self : PlayReady;
  trace : list Event
}.

(** A run returns, is still inside the petition loop when the fuel is
    spent, or has run into undefined behaviour (a write or read past a
    buffer, a null dereference). *)
Inductive Res (S A : Type) : Type :=
| Ret (a : A) (w : World S)
| Loops (w : World S)
| Undef (w : World S).

Arguments Loops {S A} w.
Arguments Undef {S A} w.

Definition M (S A : Type) : Type := World S -> Res S A.

Definition ret {S A : Type} (a : A) : M S A := fun w => Ret a w.

Definition bind {S A B : Type} (c : M S A) (k : A -> M S B) : M S B :=
  fun w =>
    match c w with
    | Ret a w' => k a w'
    | Loops w' => Loops w'
    | Undef w' => Undef w'
    end.

Notation "x <- c ;; k" := (bind c (fun x => k))
  (at level 61, c at next level, right associativity).
Notation "' pat <- c ;; k" := (bind c (fun x => match x with pat => k end))
  (at level 61, pat pattern, c at next level, right associativity).
Notation "c ;;; k" := (bind c (fun _ => k))
  (at level 61, right associativity).

Definition loops {S A : Type} : M S A := fun w => Loops w.
Definition undef {S A : Type} : M S A := fun w => Undef w.

(** One call into the outside world, recorded in the trace. *)
Definition call {S A : Type} (e : Event) (f : S -> A * S) : M S A :=
  fun w =>
    let (a, s') := f (outside w) in
    Ret a (mkWorld s' (self w) (trace w ++ [e])).

(** An action of the C++ runtime that has no result. *)
Definition log {S : Type} (e : Event) : M S unit :=
  fun w => Ret tt (mkWorld (outside w) (self w) (trace w ++ [e])).

(** A query of the outside world that the trace does not record. *)
Definition peek {S A : Type} (f : S -> A) : M S A :=
  fun w => Ret (f (outside w)) w.

Definition this {S : Type} : M S PlayReady := fun w => Ret (self w) w.

Definition modify {S : Type} (f : PlayReady -> PlayReady) : M S unit :=
  fun w => Ret tt (mkWorld (outside w) (f (self w)) (trace w)).

(** The events of a result, whatever its kind. *)
Definition world_of {S A : Type} (r : Res S A) : World S :=
  match r with
  | Ret _ w => w
  | Loops w => w
  | Undef w => w
  end.

(** ** Buffers *)

(** [memcpy(dst + off, src, n)] on buffers whose sizes are the lengths of
    the lists; [None] when it would write past [dst] or read past [src]. *)
Definition memcpy {A : Type} (dst : list A) (off : Z) (src : list A) (n : Z)
  : option (list A) :=
  if (0 <=? off) && (0 <=? n) && (off + n <=? len dst) && (n <=? len src)
  then Some (firstn (Z.to_nat off) dst ++ firstn (Z.to_nat n) src
               ++ skipn (Z.to_nat (off + n)) dst)
  else None.

(** A local [DRM_ID] before anything is written to its [rgb]. *)
Definition fresh_DRM_ID : list cell := repeat None (Z.to_nat DRM_ID_SIZE).

(** The loop of [GetSecureStopIds]:
    for (i = 0; i < count; ++i)
      memcpy(&ids[i * DRM_ID_SIZE], ssSessionIds[i].rgb, DRM_ID_SIZE);
    with [n] iterations left. *)
Fixpoint copy_ids (n : nat) (i : Z) (ssSessionIds : list (list byte))
  (ids : list byte) : option (list byte) :=
  match n with
  | O => Some ids
  | Datatypes.S n' =>
      match nth_error ssSessionIds (Z.to_nat i) with
      | None => None
      | Some rgb =>
          match memcpy ids (to_u32 (i * DRM_ID_SIZE)) rgb DRM_ID_SIZE with
          | None => None
          | Some ids' => copy_ids n' (i + 1) ssSessionIds ids'
          end
      end
  end.

(** The loop of [LoadRevocationList]: blocks of at most 512 bytes are read
    until [fread] returns nothing, each copied to [revBuf + currSize];
    [currSize] is a [uint32_t].  [rest] is what is left to read of the
    file; [None] when a copy would fall outside [revBuf]. *)
Fixpoint fread_loop (fuel : nat) (rest revBuf : list byte) (currSize : Z)
  : option (list byte) :=
  match fuel with
  | O => Some revBuf
  | Datatypes.S fuel' =>
      let buf := firstn 512 rest in
      let rc := len buf in
      if (rc <=? 0) then Some revBuf
      else
        match memcpy revBuf currSize buf rc with
        | None => None
        | Some revBuf' => fread_loop fuel' (skipn 512 rest) revBuf' (to_u32 (currSize + rc))
        end
  end.

(** The locals of [InitSecureClock] that are live at its [ErrorExit]. *)
Record ClockLocals : Type := mkClockLocals {
  exit_rc : Z;
  exit_pbChallenge : option (list byte);
  exit_pTimeChallengeURL : option string;
  exit_pbResponse : option (list byte)
}.

(** ** The methods of [class PlayReady] *)

Section Methods.

Context {S : Type}.
Variable H : SdkHeaders.
Variable sdk : Sdk S.

(** [m_poAppContext.reset()] *)
Definition reset_app_context : M S unit :=
  o <- this ;;
  match m_poAppContext o with
  | Some p => log (EvDelete_DRM_APP_CONTEXT p) ;;; modify (set_m_poAppContext None)
  | None => ret tt
  end.

(** [m_poAppContext.reset(new DRM_APP_CONTEXT)] *)
Definition reset_app_context_new : M S unit :=
  p <- call EvNew_DRM_APP_CONTEXT (new_DRM_APP_CONTEXT sdk) ;;
  o <- this ;;
  match m_poAppContext o with
  | Some q => log (EvDelete_DRM_APP_CONTEXT q)
  | None => ret tt
  end ;;;
  modify (set_m_poAppContext (Some p)).

(** [SAFE_OEM_FREE(p)] *)
Definition SAFE_OEM_FREE {A : Type} (p : option A) : M S unit :=
  match p with
  | Some _ => log EvOem_MemFree
  | None => ret tt
  end.

Definition DeinitializeSystem : M S unit :=
  o <- this ;;
  match m_poAppContext o with
  | Some p =>
      (* the result of the clean-up is logged and dropped *)
      _ <- call (EvDrm_StoreMgmt_CleanupStore (Some p))
             (Drm_StoreMgmt_CleanupStore sdk (Some p) (DRM_STORE_CLEANUP_ALL H)) ;;
      call (EvDrm_Uninitialize (Some p)) (Drm_Uninitialize sdk (Some p)) ;;;
      reset_app_context
  | None => ret tt
  end ;;;
  o' <- this ;;
  call (EvDrm_Platform_Uninitialize (m_drmOemContext o'))
    (Drm_Platform_Uninitialize sdk (m_drmOemContext o')).

(** *** Secure stops *)

(** [count] is an out-parameter: the result carries the value it holds
    after the call. *)
Definition GetSecureStopIds (ids : list byte) (idsLength : Z)
  : M S (CDMi_RESULT * list byte * Z) :=
  o <- this ;;
  '(dr, count, ssSessionIds) <-
    call (EvDrm_SecureStop_EnumerateSessions (m_poAppContext o))
      (Drm_SecureStop_EnumerateSessions sdk (m_poAppContext o)
         (m_meteringCertificateSize o) (m_meteringCertificate o)) ;;
  '(cr, ids') <-
    (if negb (dr =? DRM_SUCCESS) && negb (dr =? DRM_E_NOMORE H)
     then ret (CDMi_S_FALSE, ids)
     else
       if count <=? 0 then ret (CDMi_SUCCESS, ids)
       else
         match ssSessionIds with
         | None => undef
         | Some a =>
             match copy_ids (Z.to_nat count) 0 a ids with
             | None => undef
             | Some ids' => ret (CDMi_SUCCESS, ids')
             end
         end) ;;
  SAFE_OEM_FREE ssSessionIds ;;;
  ret (cr, ids', count).

(** [rawData] is a buffer or null; [rawSize] is a [uint16_t&], the result
    carries its value after the call. *)
Definition GetSecureStop (sessionID : list byte) (sessionIDLength : Z)
  (rawData : option (list byte)) (rawSize : Z)
  : M S (CDMi_RESULT * option (list byte) * Z) :=
  match memcpy fresh_DRM_ID 0 (map Some sessionID) sessionIDLength with
  | None => undef
  | Some ssSessionDrmId =>
      o <- this ;;
      '(dr, ssChallengeSize, ssChallenge) <-
        call (EvDrm_SecureStop_GenerateChallenge (m_poAppContext o) ssSessionDrmId)
          (Drm_SecureStop_GenerateChallenge sdk (m_poAppContext o) ssSessionDrmId
             (m_meteringCertificateSize o) (m_meteringCertificate o)) ;;
      if negb (dr =? DRM_SUCCESS) then ret (CDMi_S_FALSE, rawData, rawSize)
      else
        match rawData with
        | Some buf =>
            if rawSize >=? ssChallengeSize then
              match memcpy buf 0 ssChallenge ssChallengeSize with
              | None => undef
              | Some buf' => ret (CDMi_SUCCESS, Some buf', to_u16 ssChallengeSize)
              end
            else ret (CDMi_SUCCESS, rawData, to_u16 ssChallengeSize)
        | None => ret (CDMi_SUCCESS, rawData, to_u16 ssChallengeSize)
        end
  end.

Definition CommitSecureStop (sessionID : list byte) (sessionIDLength : Z)
  (serverResponse : list byte) (serverResponseLength : Z) : M S CDMi_RESULT :=
  let cr := CDMi_SUCCESS in
  let cr := if sessionIDLength =? 0 then CDMi_S_FALSE else cr in
  let cr := if serverResponseLength =? 0 then CDMi_S_FALSE else cr in
  if CDMi_RESULT_eqb cr CDMi_SUCCESS then
    match memcpy fresh_DRM_ID 0 (map Some sessionID) sessionIDLength with
    | None => undef
    | Some sessionDrmId =>
        o <- this ;;
        '(dr, customDataSizeBytes, pCustomData) <-
          call (EvDrm_SecureStop_ProcessResponse (m_poAppContext o) sessionDrmId)
            (Drm_SecureStop_ProcessResponse sdk (m_poAppContext o) sessionDrmId
               (m_meteringCertificateSize o) (m_meteringCertificate o)
               serverResponseLength serverResponse) ;;
        (* both branches on [dr] only write to the log *)
        SAFE_OEM_FREE pCustomData ;;;
        ret cr
    end
  else ret cr.

(** *** Revocation list *)

Definition LoadRevocationList (revListFile : string) : M S bool :=
  fRev <- call (Evfopen revListFile) (fopen sdk revListFile) ;;
  match fRev with
  | None => ret true
  | Some content =>
      let fileSize := len content in
      revBuf <- call (EvBKNI_Malloc fileSize) (BKNI_Malloc sdk fileSize) ;;
      if negb revBuf then ret false
      else
        (* [BKNI_Memset(revBuf, 0x00, fileSize)], then the read loop *)
        match fread_loop (Datatypes.S (List.length content)) content
                (repeat x00 (Z.to_nat fileSize)) 0 with
        | None => undef
        | Some buf =>
            o <- this ;;
            (* the size of the package is a 32-bit parameter *)
            dr <- call (EvDrm_Revocation_StorePackage (m_poAppContext o))
                    (Drm_Revocation_StorePackage sdk (m_poAppContext o) buf
                       (to_u32 fileSize)) ;;
            if DRM_FAILED dr then log EvBKNI_Free ;;; ret false
            else log EvBKNI_Free ;;; ret true
        end
  end.

(** *** Secure clock *)

(** The do-while loop of [InitSecureClock].  [inr url] leaves the loop with
    the challenge URL; [inl rc] is a [goto ErrorExit] with that [rc].  One
    unit of fuel is one iteration. *)
Fixpoint petition_loop (fuel : nat) (petRespCode : Z) (pTimeChallengeURL : string)
  : M S (Z + string) :=
  match fuel with
  | O => loops
  | Datatypes.S fuel' =>
      if petRespCode =? 200 then ret (inr pTimeChallengeURL)
      else if (petRespCode =? 302) || (petRespCode =? 301) then
        let secureTimeUrlStr := pTimeChallengeURL in
        '(petRC, petRespCode', url') <-
          call (EvPRDY_HTTP_Client_GetSecureTimeUrl secureTimeUrlStr)
            (PRDY_HTTP_Client_GetSecureTimeUrl sdk secureTimeUrlStr) ;;
        if negb (petRC =? 0) then ret (inl petRC)
        else petition_loop fuel' petRespCode' url'
      else ret (inl (-1))
  end.

Definition InitSecureClock (fuel : nat) (pDrmAppCtx : option ptr) : M S Z :=
  '(dr, pbChallenge) <-
    call (EvDrm_SecureTime_GenerateChallenge pDrmAppCtx)
      (Drm_SecureTime_GenerateChallenge sdk pDrmAppCtx) ;;
  L <-
    (if DRM_FAILED dr then ret (mkClockLocals 0 pbChallenge None None)
     else
       '(rc, allocated) <-
         call (EvNEXUS_Memory_Allocate MAX_URL_LENGTH)
           (NEXUS_Memory_Allocate sdk MAX_URL_LENGTH) ;;
       let pUrl := if allocated then Some EmptyString else None in
       if negb (rc =? NEXUS_SUCCESS) then ret (mkClockLocals rc pbChallenge pUrl None)
       else
         '(petRC, petRespCode, url) <-
           call (EvPRDY_HTTP_Client_GetForwardLinkUrl (g_dstrHttpSecureTimeServerUrl H))
             (PRDY_HTTP_Client_GetForwardLinkUrl sdk (g_dstrHttpSecureTimeServerUrl H)) ;;
         if negb (petRC =? 0) then ret (mkClockLocals petRC pbChallenge (Some url) None)
         else
           r <- petition_loop fuel petRespCode url ;;
           match r with
           | inl rc' => ret (mkClockLocals rc' pbChallenge (Some EmptyString) None)
           | inr url' =>
               '(rc'', allocated') <-
                 call (EvNEXUS_Memory_Allocate MAX_TIME_CHALLENGE_RESPONSE_LENGTH)
                   (NEXUS_Memory_Allocate sdk MAX_TIME_CHALLENGE_RESPONSE_LENGTH) ;;
               let pResp := if allocated' then Some [] else None in
               if negb (rc'' =? NEXUS_SUCCESS)
               then ret (mkClockLocals rc'' pbChallenge (Some url') pResp)
               else
                 '(post_ret, response, length) <-
                   call (EvPRDY_HTTP_Client_SecureTimeChallengePost url')
                     (PRDY_HTTP_Client_SecureTimeChallengePost sdk url' pbChallenge) ;;
                 if negb (post_ret =? 0)
                 then ret (mkClockLocals (to_i32 post_ret) pbChallenge (Some url')
                             (Some response))
                 else
                   (* a failing response is written to [dr], never to [rc] *)
                   _ <- call (EvDrm_SecureTime_ProcessResponse pDrmAppCtx)
                          (Drm_SecureTime_ProcessResponse sdk pDrmAppCtx length response) ;;
                   ret (mkClockLocals rc'' pbChallenge (Some url') (Some response))
           end) ;;
  (* ErrorExit: *)
  SAFE_OEM_FREE (exit_pbChallenge L) ;;;
  match exit_pTimeChallengeURL L with
  | Some _ => log EvNEXUS_Memory_Free
  | None => ret tt
  end ;;;
  match exit_pbResponse L with
  | Some _ => log EvNEXUS_Memory_Free
  | None => ret tt
  end ;;;
  ret (exit_rc L).

(** The block of [CreateSystemExt] that fills [systemTime]. *)
Definition systemTime_of (t : tm) (tv_usec : Z) : DRMSYSTEMTIME :=
  mkSystemTime
    (to_u16 (tm_year t + 1900))
    (to_u16 (tm_mon t + 1))
    (to_u16 (tm_wday t))
    (to_u16 (tm_mday t))
    (to_u16 (tm_hour t))
    (to_u16 (tm_min t))
    (to_u16 (tm_sec t))
    (to_u16 (Z.quot tv_usec 1000)).

(** *** System set-up *)

(** The body of [CreateSystemExt] from [Drm_SecureTime_GetValue] on; its
    result is the value of [dr] on arrival at [ErrorExit], by [goto] or by
    falling through. *)
Definition CreateSystemExt_clock (fuel : nat) (k : M S DRM_RESULT) : M S DRM_RESULT :=
  o <- this ;;
  dr <- call (EvDrm_SecureTime_GetValue (m_poAppContext o))
          (Drm_SecureTime_GetValue sdk (m_poAppContext o)) ;;
  if (dr =? DRM_E_SECURETIME_CLOCK_NOT_SET H) || (dr =? DRM_E_TEE_PROVISIONING_REQUIRED H)
  then
    r <- InitSecureClock fuel (m_poAppContext o) ;;
    if negb (r =? 0) then ret dr else k
  else if dr =? DRM_E_CLK_NOT_SUPPORTED H then
    '(tv_sec, tv_usec) <- call Evgettimeofday (gettimeofday sdk) ;;
    match gmtime sdk tv_sec with
    | None => undef
    | Some t =>
        let systemTime := systemTime_of t tv_usec in
        r <- call (EvDrm_AntiRollBackClock_Init (m_poAppContext o) systemTime)
               (Drm_AntiRollBackClock_Init sdk (m_poAppContext o) systemTime) ;;
        if negb (r =? 0) then ret dr else k
    end
  else
    if negb (dr =? 0) then ret dr else k.

Definition CreateSystemExt_revocation (k : M S DRM_RESULT) : M S DRM_RESULT :=
  supported <- call EvDRM_REVOCATION_IsRevocationSupported
                 (DRM_REVOCATION_IsRevocationSupported sdk) ;;
  if supported : bool then
    p <- call (EvOem_MemAlloc (REVOCATION_BUFFER_SIZE H))
           (Oem_MemAlloc sdk (REVOCATION_BUFFER_SIZE H)) ;;
    modify (set_m_pbRevocationBuffer p) ;;;
    match p with
    | None => ret (DRM_E_OUTOFMEMORY H)
    | Some _ =>
        o <- this ;;
        dr' <- call (EvDrm_Revocation_SetBuffer (m_poAppContext o))
                 (Drm_Revocation_SetBuffer sdk (m_poAppContext o)
                    (m_pbRevocationBuffer o) (REVOCATION_BUFFER_SIZE H)) ;;
        if DRM_FAILED dr' then ret dr'
        else
          loaded <- LoadRevocationList DRM_DEFAULT_REVOCATION_LIST_FILE ;;
          if negb loaded then ret dr' else k
    end
  else k.

Definition CreateSystemExt (fuel : nat) : M S CDMi_RESULT :=
  o <- this ;;
  modify (set_drmdir_ (m_readDir o)) ;;;
  reset_app_context_new ;;;
  p <- call (EvOem_MemAlloc (MINIMUM_APPCONTEXT_OPAQUE_BUFFER_SIZE H))
         (Oem_MemAlloc sdk (MINIMUM_APPCONTEXT_OPAQUE_BUFFER_SIZE H)) ;;
  modify (set_m_pbOpaqueBuffer p (MINIMUM_APPCONTEXT_OPAQUE_BUFFER_SIZE H)) ;;;
  o <- this ;;
  dr <-
    (dr <- call (EvDrm_Initialize (m_poAppContext o) (m_drmOemContext o)
                   (m_storeLocation o))
             (Drm_Initialize sdk (m_poAppContext o) (m_drmOemContext o)
                (m_pbOpaqueBuffer o) (m_cbOpaqueBuffer o) (m_storeLocation o)) ;;
     if DRM_FAILED dr then ret dr
     else
       CreateSystemExt_clock fuel
         (let size := MAX_NUM_LICENSES H * LICENSE_SIZE_BYTES H in
          dr <- call (EvDrm_ResizeInMemoryLicenseStore (m_poAppContext o) size)
                  (Drm_ResizeInMemoryLicenseStore sdk (m_poAppContext o) size) ;;
          if DRM_FAILED dr then ret dr
          else
            CreateSystemExt_revocation
              (let dwEncryptionMode := OEM_TEE_DECRYPTION_MODE_HANDLE H in
               call (EvDrm_Content_SetProperty (m_poAppContext o)
                       (DRM_CSP_DECRYPTION_OUTPUT_MODE H) dwEncryptionMode)
                 (Drm_Content_SetProperty sdk (m_poAppContext o)
                    (DRM_CSP_DECRYPTION_OUTPUT_MODE H) dwEncryptionMode)))) ;;
  (* ErrorExit: *)
  if DRM_FAILED dr then reset_app_context ;;; ret CDMi_S_FALSE
  else ret CDMi_SUCCESS.

Definition select_heap (default : option ptr) (full : option (ptr * Z)) : option ptr :=
  match full with
  | Some (heap, memoryType) =>
      if negb (Z.land memoryType (NEXUS_MemoryType_eFull H) =? 0) then Some heap
      else default
  | None => default
  end.

Definition InitializeSystem (fuel : nat) : M S unit :=
  o <- this ;;
  match m_poAppContext o with
  | Some _ => DeinitializeSystem
  | None => ret tt
  end ;;;
  call (EvDirectory_CreatePath (m_readDir o)) (Directory_CreatePath sdk (m_readDir o)) ;;;
  default <- peek (NEXUS_default_heap sdk) ;;
  full <- peek (NEXUS_full_heap sdk) ;;
  let heap := select_heap default full in
  '(dr, f_pOEMContext) <-
    call (EvDrm_Platform_Initialize heap) (Drm_Platform_Initialize sdk heap) ;;
  if DRM_FAILED dr then ret tt
  else
    modify (set_m_drmOemContext f_pOEMContext) ;;;
    match f_pOEMContext with
    | None => ret tt
    | Some _ => CreateSystemExt fuel ;;; ret tt
    end.

(** The result is the return code and the session written to
    [*f_ppiMediaKeySession]. *)
Definition CreateMediaKeySession (fuel : nat) : M S (CDMi_RESULT * ptr) :=
  o <- this ;;
  exists_ <- call (EvFile_Exists (m_storeLocation o))
               (File_Exists sdk (m_storeLocation o)) ;;
  (if negb exists_ then InitializeSystem fuel else ret tt) ;;;
  o' <- this ;;
  session <- call (EvNew_MediaKeySession (m_drmOemContext o') (m_poAppContext o'))
               (new_MediaKeySession sdk (m_drmOemContext o') (m_poAppContext o')) ;;
  ret (CDMi_SUCCESS, session).

End Methods.

(** ** A scripted outside world

    Concrete worlds for running the model: every call is answered from a
    table, [0] being the answer of a call that goes well.  The state of
    such a world is the number of petitions sent to redirect targets.  The
    time authority answers the first petition (the forward link) with the
    response code [petitions 0], and the petition sent to the n-th
    redirect target with [petitions n]. *)

Inductive Question : Type :=
| Q_store_file_missing
| Q_Drm_Platform_Initialize
| Q_Drm_Initialize
| Q_Drm_StoreMgmt_CleanupStore
| Q_Drm_SecureTime_GetValue
| Q_Drm_SecureTime_GenerateChallenge
| Q_NEXUS_Memory_Allocate
| Q_GetForwardLinkUrl_rc
| Q_GetSecureTimeUrl_rc
| Q_SecureTimeChallengePost
| Q_Drm_SecureTime_ProcessResponse
| Q_Drm_AntiRollBackClock_Init
| Q_Drm_ResizeInMemoryLicenseStore
| Q_revocation_unsupported
| Q_revocation_file_present
| Q_BKNI_Malloc_fails
| Q_Drm_Revocation_SetBuffer
| Q_Drm_Revocation_StorePackage
| Q_Drm_Content_SetProperty
| Q_Drm_SecureStop_EnumerateSessions
| Q_Drm_SecureStop_GenerateChallenge
| Q_Drm_SecureStop_ProcessResponse.

Scheme Boolean Equality for Question.

Definition Answers : Type := Question -> Z.

Definition all_well : Answers := fun _ => 0.

Definition answer (q : Question) (v : Z) (a : Answers) : Answers :=
  fun q' => if Question_beq q q' then v else a q'.

Definition yes (a : Answers) (q : Question) : bool := negb (a q =? 0).

(** What the secure-stop calls hand back in a scripted world. *)
Record Payload : Type := mkPayload {
  pl_sessions : list (list byte);
  pl_challengeSize : Z;
  pl_challenge : list byte
}.

Definition no_payload : Payload := mkPayload [] 0 [].

Definition sample_tm : tm := mkTm 126 9 5 30 14 6 7.
Definition sample_tv : Z * Z := (1793369167, 250000).

Definition scripted (a : Answers) (petitions : nat -> Z) (pl : Payload) : Sdk nat :=
  mkSdk
    (fun _ s => (negb (yes a Q_store_file_missing), s))
    (fun _ s => (tt, s))
    (fun _ s => (if yes a Q_revocation_file_present then Some [x3c; x2f; x3e] else None, s))
    (fun s => (sample_tv, s))
    (fun _ => Some sample_tm)
    (fun s => (4096, s))
    (fun _ _ s => (8192, s))
    (fun _ => None)
    (fun _ => None)
    (fun _ s => (a Q_NEXUS_Memory_Allocate, a Q_NEXUS_Memory_Allocate =? 0, s))
    (fun _ s => (negb (yes a Q_BKNI_Malloc_fails), s))
    (fun n s => (Some (65536 + n), s))
    (fun _ s => (a Q_Drm_Platform_Initialize, Some 512, s))
    (fun _ s => (tt, s))
    (fun _ _ _ _ _ s => (a Q_Drm_Initialize, s))
    (fun _ s => (tt, s))
    (fun _ _ s => (a Q_Drm_StoreMgmt_CleanupStore, s))
    (fun _ s => (a Q_Drm_SecureTime_GetValue, s))
    (fun _ s => (a Q_Drm_SecureTime_GenerateChallenge, Some [x01; x02], s))
    (fun _ _ _ s => (a Q_Drm_SecureTime_ProcessResponse, s))
    (fun _ _ s => (a Q_Drm_AntiRollBackClock_Init, s))
    (fun _ _ s => (a Q_Drm_ResizeInMemoryLicenseStore, s))
    (fun s => (negb (yes a Q_revocation_unsupported), s))
    (fun _ _ _ s => (a Q_Drm_Revocation_SetBuffer, s))
    (fun _ _ _ s => (a Q_Drm_Revocation_StorePackage, s))
    (fun _ _ _ s => (a Q_Drm_Content_SetProperty, s))
    (fun _ _ _ s => (a Q_Drm_SecureStop_EnumerateSessions, len (pl_sessions pl),
                     Some (pl_sessions pl), s))
    (fun _ _ _ _ s => (a Q_Drm_SecureStop_GenerateChallenge, pl_challengeSize pl,
                       pl_challenge pl, s))
    (fun _ _ _ _ _ _ s => (a Q_Drm_SecureStop_ProcessResponse, 0, None, s))
    (fun _ s => (a Q_GetForwardLinkUrl_rc, petitions O, "u"%string, s))
    (fun url s => (a Q_GetSecureTimeUrl_rc, petitions (Datatypes.S s), url, Datatypes.S s))
    (fun _ _ s => (a Q_SecureTimeChallengePost, [x00], 1, s)).

(** Result codes for the scripted worlds: distinct negative numbers. *)
Definition sample_headers : SdkHeaders :=
  mkSdkHeaders (-2147483646) (-2147024637) (-2147174144) (-2147174143) (-2147174142)
    4096 100 1024 30720 2 1 1 1 "http://time.example/petition"%string.

Definition sample_object (ctx : option ptr) : PlayReady :=
  mkPlayReady EmptyString (Some 512) None 0 None ctx
    "/persist/playready/"%string "/persist/playready/drmstore"%string None 0.

Definition start (ctx : option ptr) : World nat :=
  mkWorld O (sample_object ctx) [].

(** The time authority that answers every petition with a redirection. *)
Definition always_302 : nat -> Z := fun _ => 302.

(** The time authority that redirects [n] times and then answers 200. *)
Definition redirects (n : nat) : nat -> Z :=
  fun k => if (k <? n)%nat then 301 else 200.

(** The time authority that redirects [n] times and then answers [code]. *)
Definition redirects_then (n : nat) (code : Z) : nat -> Z :=
  fun k => if (k <? n)%nat then 301 else code.

(** The time authority that answers 200 at once. *)
Definition no_redirect : nat -> Z := redirects 0.

(** The number of redirections followed in a trace. *)
Definition is_hop (e : Event) : bool :=
  match e with
  | EvPRDY_HTTP_Client_GetSecureTimeUrl _ => true
  | _ => false
  end.

Definition hops (tr : list Event) : nat := List.length (filter is_hop tr).

(** ** Sample data and further scripted worlds *)

Definition session16 : list byte :=
  [x01; x02; x03; x04; x05; x06; x07; x08; x09; x0a; x0b; x0c; x0d; x0e; x0f; x10].

Definition session16' : list byte :=
  [xf0; xf1; xf2; xf3; xf4; xf5; xf6; xf7; xf8; xf9; xfa; xfb; xfc; xfd; xfe; xff].

(** The HRESULT [E_FAIL], a failing [DRM_RESULT]. *)
Definition DRM_E_FAIL : DRM_RESULT := -2147467259.

Definition hop_u : Event := EvPRDY_HTTP_Client_GetSecureTimeUrl "u".

(** The scripted worlds in which every call of the bootstrap goes well,
    whatever the time authority answers. *)
Definition bootstrap_goes_well (a : Answers) : Prop :=
  a Q_Drm_SecureTime_GenerateChallenge = 0
  /\ a Q_NEXUS_Memory_Allocate = 0
  /\ a Q_GetForwardLinkUrl_rc = 0
  /\ a Q_GetSecureTimeUrl_rc = 0
  /\ a Q_SecureTimeChallengePost = 0.

(** The calls of [InitSecureClock] before and after the petition loop, in
    a scripted world where every call goes well. *)
Definition bootstrap_prefix (ctx : option ptr) : list Event :=
  [EvDrm_SecureTime_GenerateChallenge ctx;
   EvNEXUS_Memory_Allocate MAX_URL_LENGTH;
   EvPRDY_HTTP_Client_GetForwardLinkUrl (g_dstrHttpSecureTimeServerUrl sample_headers)].

Definition bootstrap_suffix (ctx : option ptr) : list Event :=
  [EvNEXUS_Memory_Allocate MAX_TIME_CHALLENGE_RESPONSE_LENGTH;
   EvPRDY_HTTP_Client_SecureTimeChallengePost "u";
   EvDrm_SecureTime_ProcessResponse ctx;
   EvOem_MemFree; EvNEXUS_Memory_Free; EvNEXUS_Memory_Free].

(** The calls of the exit block of [InitSecureClock] when the petition
    loop is left for [ErrorExit]: the challenge and the URL buffer are
    freed, the response buffer was never allocated. *)
Definition bootstrap_abort : list Event := [EvOem_MemFree; EvNEXUS_Memory_Free].

(** The scripted world in which every petition sent to a redirect target
    fails with the code [rc]. *)
Definition petition_fails (rc : Z) : Answers := answer Q_GetSecureTimeUrl_rc rc all_well.

(** The world in which the revocation list file is there and
    [Drm_Revocation_StorePackage] rejects it. *)
Definition revocation_rejected : Sdk nat :=
  scripted (answer Q_revocation_file_present 1
              (answer Q_Drm_Revocation_StorePackage DRM_E_FAIL all_well))
    no_redirect no_payload.

Definition revocation_rejected_trace : list Event :=
  [EvNew_DRM_APP_CONTEXT;
   EvOem_MemAlloc 4096;
   EvDrm_Initialize (Some 4096) (Some 512) "/persist/playready/drmstore";
   EvDrm_SecureTime_GetValue (Some 4096);
   EvDrm_ResizeInMemoryLicenseStore (Some 4096) 102400;
   EvDRM_REVOCATION_IsRevocationSupported;
   EvOem_MemAlloc 30720;
   EvDrm_Revocation_SetBuffer (Some 4096);
   Evfopen "/tmp/revpackage.xml";
   EvBKNI_Malloc 3;
   EvDrm_Revocation_StorePackage (Some 4096);
   EvBKNI_Free].

(** The calls of [CreateSystemExt] up to the clock query, and from the
    sizing of the license store to the opening of the revocation list, in
    a scripted world that starts without an app context. *)
Definition opened_trace : list Event :=
  [EvNew_DRM_APP_CONTEXT;
   EvOem_MemAlloc 4096;
   EvDrm_Initialize (Some 4096) (Some 512) "/persist/playready/drmstore";
   EvDrm_SecureTime_GetValue (Some 4096)].

Definition configured_trace : list Event :=
  [EvDrm_ResizeInMemoryLicenseStore (Some 4096) 102400;
   EvDRM_REVOCATION_IsRevocationSupported;
   EvOem_MemAlloc 30720;
   EvDrm_Revocation_SetBuffer (Some 4096);
   Evfopen "/tmp/revpackage.xml"].

(** The world in which the revocation list file is there and the buffer
    for it cannot be allocated. *)
Definition revocation_unallocated : Sdk nat :=
  scripted (answer Q_revocation_file_present 1 (answer Q_BKNI_Malloc_fails 1 all_well))
    no_redirect no_payload.

(** The worlds in which the secure clock is not set and the bootstrap
    fails: at the generation of the challenge, or when the SDK rejects the
    answer of the time authority. *)
Definition clock_unset (a : Answers) : Answers :=
  answer Q_Drm_SecureTime_GetValue (DRM_E_SECURETIME_CLOCK_NOT_SET sample_headers) a.

Definition challenge_fails : Sdk nat :=
  scripted (clock_unset (answer Q_Drm_SecureTime_GenerateChallenge DRM_E_FAIL all_well))
    no_redirect no_payload.

Definition response_rejected : Sdk nat :=
  scripted (clock_unset (answer Q_Drm_SecureTime_ProcessResponse DRM_E_FAIL all_well))
    no_redirect no_payload.

(** The scripted world whose clock query answers [dr]. *)
Definition clock_answers (dr : DRM_RESULT) : Sdk nat :=
  scripted (answer Q_Drm_SecureTime_GetValue dr all_well) no_redirect no_payload.

Definition store_gone : Answers := answer Q_store_file_missing 1 all_well.

(** The world in which the store file is gone, the secure clock is not set,
    and the time authority answers every petition with a redirection. *)
Definition store_gone_clock_unset : Answers :=
  answer Q_store_file_missing 1
    (answer Q_Drm_SecureTime_GetValue (DRM_E_SECURETIME_CLOCK_NOT_SET sample_headers)
       all_well).

(** The world in which the re-initialisation enters [InitSecureClock]. *)
Definition before_bootstrap : World nat :=
  mkWorld O
    (set_m_pbOpaqueBuffer (Some (65536 + 4096)) 4096
       (set_m_poAppContext (Some 4096)
          (set_drmdir_ "/persist/playready/"
             (set_m_drmOemContext (Some 512) (sample_object None)))))
    [EvFile_Exists "/persist/playready/drmstore";
     EvDrm_StoreMgmt_CleanupStore (Some 77);
     EvDrm_Uninitialize (Some 77);
     EvDelete_DRM_APP_CONTEXT 77;
     EvDrm_Platform_Uninitialize (Some 512);
     EvDirectory_CreatePath "/persist/playready/";
     EvDrm_Platform_Initialize None;
     EvNew_DRM_APP_CONTEXT;
     EvOem_MemAlloc 4096;
     EvDrm_Initialize (Some 4096) (Some 512) "/persist/playready/drmstore";
     EvDrm_SecureTime_GetValue (Some 4096)].

Definition two_pending : Payload := mkPayload [session16; session16'] 0 [].

Definition small_challenge : Payload := mkPayload [] 3 [x0a; x0b; x0c].

(** A challenge of 70000 bytes. *)
Definition large_challenge : Payload := mkPayload [] 70000 (repeat x00 (Z.to_nat 70000)).

(** ** Predicates on runs *)

Unset Implicit Arguments.

(** What a call of [DeinitializeSystem] on a null app context does to the
    world: one call of [Drm_Platform_Uninitialize] and nothing else. *)
Definition platform_release {S : Type} (sdk : Sdk S) (w : World S) : World S :=
  let oem := m_drmOemContext (self w) in
  mkWorld (snd (Drm_Platform_Uninitialize sdk oem (outside w))) (self w)
    (trace w ++ [EvDrm_Platform_Uninitialize oem]).

(** [emits p c]: whatever the world and however the run ends, [c] only
    appends to the trace, and only events that satisfy [p]. *)
Definition emits {S A : Type} (p : Event -> bool) (c : M S A) : Prop :=
  forall w : World S,
    exists l, trace (world_of (c w)) = trace w ++ l /\ forallb p l = true.

(** [runs p c]: [c] always returns, and emits only events that satisfy
    [p].  [satisfies Q c]: the events that [c] appends satisfy [Q], however
    the run ends. *)
Definition runs {S A : Type} (p : Event -> bool) (c : M S A) : Prop :=
  forall w : World S,
    exists a w1 l, c w = Ret a w1 /\ trace w1 = trace w ++ l /\ forallb p l = true.

Definition satisfies {S A : Type} (Q : list Event -> Prop) (c : M S A) : Prop :=
  forall w : World S, exists l, trace (world_of (c w)) = trace w ++ l /\ Q l.

(** [keeps_context c]: a run of [c] that returns leaves [m_poAppContext]
    as it was. *)
Definition keeps_context {S A : Type} (c : M S A) : Prop :=
  forall (w : World S) (a : A) (w' : World S),
    c w = Ret a w' -> m_poAppContext (self w') = m_poAppContext (self w).

(** The two clock strategies, as events.  [InitSecureClock] begins with
    [Drm_SecureTime_GenerateChallenge], which nothing else calls; the
    anti-rollback clock is the call of [Drm_AntiRollBackClock_Init]. *)
Definition is_bootstrap (e : Event) : bool :=
  match e with
  | EvDrm_SecureTime_GenerateChallenge _ => true
  | _ => false
  end.

Definition is_antirollback (e : Event) : bool :=
  match e with
  | EvDrm_AntiRollBackClock_Init _ _ => true
  | _ => false
  end.

(** An event that belongs to neither strategy. *)
Definition neutral (e : Event) : bool := negb (is_bootstrap e) && negb (is_antirollback e).

Definition not_antirollback (e : Event) : bool := negb (is_antirollback e).

(** Any event at all. *)
Definition any (e : Event) : bool := true.

(** The choice of the clock strategy, read off the events [l] of a run in
    which the clock query answers [dr] and the wall clock reads [seed]. *)
Definition strategy_chosen (H : SdkHeaders) (dr : DRM_RESULT) (seed : DRMSYSTEMTIME)
  (l : list Event) : Prop :=
  (existsb is_bootstrap l = true <->
     dr = DRM_E_SECURETIME_CLOCK_NOT_SET H \/ dr = DRM_E_TEE_PROVISIONING_REQUIRED H)
  /\ (existsb is_antirollback l = true <-> dr = DRM_E_CLK_NOT_SUPPORTED H)
  /\ (forall c sd, In (EvDrm_AntiRollBackClock_Init c sd) l -> sd = seed)
  /\ (dr = DRM_SUCCESS ->
      existsb is_bootstrap l = false /\ existsb is_antirollback l = false).

(** The world after the query of the store file. *)
Definition store_checked {S : Type} (sdk : Sdk S) (w : World S) : World S :=
  let path := m_storeLocation (self w) in
  mkWorld (snd (File_Exists sdk path (outside w))) (self w)
    (trace w ++ [EvFile_Exists path]).

(** The allocation of the session on the members of the object, and the
    return of [CDMi_SUCCESS]. *)
Definition session_allocated {S : Type} (sdk : Sdk S) (w : World S)
  : Res S (CDMi_RESULT * ptr) :=
  let oem := m_drmOemContext (self w) in
  let ctx := m_poAppContext (self w) in
  Ret (CDMi_SUCCESS, fst (new_MediaKeySession sdk oem ctx (outside w)))
    (mkWorld (snd (new_MediaKeySession sdk oem ctx (outside w))) (self w)
       (trace w ++ [EvNew_MediaKeySession oem ctx])).

(** ** Further methods

    The methods below also use the host framework: memory-mapped files
    ([Core::DataElementFile]), the SHA-256 calculator, the configuration
    parser, the process environment and [remove].  They are a second record
    of parameters.  These calls are not written to the trace, which keeps
    recording the calls of the SDK and the platform. *)

Set Implicit Arguments.

Record Host (S : Type) : Type := mkHost {
  (* [Core::DataElementFile(path, mode)]: the content when [IsValid()];
     the flag says whether [GROUP_READ] is asked for besides [USER_READ] *)
  DataElementFile : string -> bool -> S -> option (list byte) * S;
  (* [Crypto::SHA256]: [Input] of a buffer, then [Result] *)
  SHA256 : list byte -> list byte;
  (* [Config::FromString], then [MeteringCertificate.IsSet()] and [Value()] *)
  Config_MeteringCertificate : string -> option string;
  SetEnvironment : string -> string -> S -> unit * S;
  remove : string -> S -> Z * S
}.

(** Modelled from the spec: the constant [Crypto::SHA256::Length] of the
    host framework; the integrity hash is "a 256-bit cryptographic hash",
    a "32-byte digest". *)
Definition SHA256_Length : Z := 32.

(** One call into the host framework. *)
Definition quiet {S A : Type} (f : S -> A * S) : M S A :=
  fun w =>
    let (a, s') := f (outside w) in
    Ret a (mkWorld s' (self w) (trace w)).

Definition set_paths (readDir storeLocation : string) (o : PlayReady) : PlayReady :=
  mkPlayReady (drmdir_ o) (m_drmOemContext o) (m_pbOpaqueBuffer o) (m_cbOpaqueBuffer o)
    (m_pbRevocationBuffer o) (m_poAppContext o) readDir storeLocation
    (m_meteringCertificate o) (m_meteringCertificateSize o).

Definition set_m_meteringCertificate (v : option (list byte)) (size : Z) (o : PlayReady)
  : PlayReady :=
  mkPlayReady (drmdir_ o) (m_drmOemContext o) (m_pbOpaqueBuffer o) (m_cbOpaqueBuffer o)
    (m_pbRevocationBuffer o) (m_poAppContext o) (m_readDir o) (m_storeLocation o)
    v size.

Section FurtherMethods.

Context {S : Type}.
Variable H : SdkHeaders.
Variable sdk : Sdk S.
Variable host : Host S.

(** The result is the return value and the buffer [hash] after the call.
    The two [ASSERT]s are compiled out. *)
Definition calcFileSha256 (filePath : string) (hash : list byte) (hashLength : Z)
  : M S (bool * list byte) :=
  dataBuffer <- quiet (DataElementFile host filePath false) ;;
  match dataBuffer with
  | None => ret (false, hash)
  | Some content =>
      if hashLength =? SHA256_Length then
        match memcpy hash 0 (SHA256 host content) SHA256_Length with
        | None => undef
        | Some hash' => ret (true, hash')
        end
      else ret (false, hash)
  end.

Definition GetSecureStoreHash (secureStoreHash : list byte) (secureStoreHashLength : Z)
  : M S (CDMi_RESULT * list byte) :=
  o <- this ;;
  '(ok, hash') <- calcFileSha256 (m_storeLocation o) secureStoreHash
                    secureStoreHashLength ;;
  if negb ok then ret (CDMi_S_FALSE, hash') else ret (CDMi_SUCCESS, hash').

Definition DeleteSecureStore : M S CDMi_RESULT :=
  o <- this ;;
  (* a failing [remove] is logged *)
  _ <- quiet (remove host (m_storeLocation o)) ;;
  ret CDMi_SUCCESS.

(** [persistent] is [shell->PersistentPath()]. *)
Definition Initialize (fuel : nat) (persistent : string) (configline : string)
  : M S unit :=
  let persistentPath := (persistent ++ "playready/")%string in
  modify (set_paths persistentPath (persistentPath ++ "drmstore")%string) ;;;
  quiet (SetEnvironment host "HOME" persistentPath) ;;;
  match Config_MeteringCertificate host configline with
  | Some file =>
      dataBuffer <- quiet (DataElementFile host file true) ;;
      match dataBuffer with
      | None => ret tt
      | Some content =>
          (* [new DRM_BYTE[m_meteringCertificateSize]], then a [memcpy] of
             [dataBuffer.Size()] bytes into it *)
          let size := to_u32 (len content) in
          match memcpy (repeat None (Z.to_nat size)) 0 (map Some content) (len content) with
          | None => undef
          | Some _ => modify (set_m_meteringCertificate (Some content) size)
          end
      end
  | None => ret tt
  end ;;;
  InitializeSystem H sdk fuel.

(** [Deinitialize(shell)] *)
Definition Deinitialize : M S unit := DeinitializeSystem H sdk.

End FurtherMethods.

(** A host for the scripted worlds: a table of files, the return code of
    [remove], the metering certificate named by the configuration, and a
    stand-in for the digest (32 bytes that depend on the content). *)
Definition sample_digest (content : list byte) : list byte :=
  firstn 32 (content ++ repeat x00 32).

Definition scripted_host (files : string -> option (list byte)) (remove_rc : Z)
  (metering : option string) : Host nat :=
  mkHost (fun path _ s => (files path, s)) sample_digest (fun _ => metering)
    (fun _ _ s => (tt, s)) (fun _ s => (remove_rc, s)).

Definition store_only (path : string) : option (list byte) :=
  if String.eqb path "/persist/playready/drmstore" then Some [x50; x52; x44; x59]
  else None.

Definition no_files (path : string) : option (list byte) := None.

(** The object as the constructor leaves it ([drmdir_] and
    [m_cbOpaqueBuffer] are not initialised there). *)
Definition constructed : PlayReady :=
  mkPlayReady EmptyString None None 0 None None EmptyString EmptyString None 0.

Definition sample_certificate : list byte := [x4d; x45; x54; x45; x52].

Definition with_certificate (path : string) : option (list byte) :=
  if String.eqb path "/etc/playready/metering.cert" then Some sample_certificate
  else store_only path.

(** The scripted world [sdk] with a revocation list file of the given
    content. *)
Definition with_revocation_file (content : list byte) (sdk : Sdk nat) : Sdk nat :=
  mkSdk (File_Exists sdk) (Directory_CreatePath sdk)
    (fun _ s => (Some content, s))
    (gettimeofday sdk) (gmtime sdk) (new_DRM_APP_CONTEXT sdk) (new_MediaKeySession sdk)
    (NEXUS_default_heap sdk) (NEXUS_full_heap sdk) (NEXUS_Memory_Allocate sdk)
    (BKNI_Malloc sdk) (Oem_MemAlloc sdk) (Drm_Platform_Initialize sdk)
    (Drm_Platform_Uninitialize sdk) (Drm_Initialize sdk) (Drm_Uninitialize sdk)
    (Drm_StoreMgmt_CleanupStore sdk) (Drm_SecureTime_GetValue sdk)
    (Drm_SecureTime_GenerateChallenge sdk) (Drm_SecureTime_ProcessResponse sdk)
    (Drm_AntiRollBackClock_Init sdk) (Drm_ResizeInMemoryLicenseStore sdk)
    (DRM_REVOCATION_IsRevocationSupported sdk) (Drm_Revocation_SetBuffer sdk)
    (Drm_Revocation_StorePackage sdk) (Drm_Content_SetProperty sdk)
    (Drm_SecureStop_EnumerateSessions sdk) (Drm_SecureStop_GenerateChallenge sdk)
    (Drm_SecureStop_ProcessResponse sdk) (PRDY_HTTP_Client_GetForwardLinkUrl sdk)
    (PRDY_HTTP_Client_GetSecureTimeUrl sdk) (PRDY_HTTP_Client_SecureTimeChallengePost sdk).

(** A revocation list of 1300 bytes: three blocks for the read loop. *)
Definition three_blocks : list byte := repeat x41 (Z.to_nat 1300).

Unset Implicit Arguments.

(** ** Further predicates on runs *)

(** [relates R c]: a run of [c] that returns takes the world to one that
    is [R]-related to it. *)
Definition relates {S A : Type} (R : World S -> World S -> Prop) (c : M S A) : Prop :=
  forall (w : World S) (a : A) (w' : World S), c w = Ret a w' -> R w w'.

(** [keeps_member f c]: a run of [c] that returns leaves [f] of the
    object as it was, that is, [same_member f] relates the world before to
    the world after. *)
Definition same_member {S X : Type} (f : PlayReady -> X) (w w' : World S) : Prop :=
  f (self w') = f (self w).

Definition keeps_member {S A X : Type} (f : PlayReady -> X) (c : M S A) : Prop :=
  relates (same_member f) c.

(** The members that [Initialize] sets from the configuration. *)
Definition configuration (o : PlayReady) : string * string * option (list byte) * Z :=
  (m_readDir o, m_storeLocation o, m_meteringCertificate o, m_meteringCertificateSize o).

(** The whole object. *)
Definition every_member (o : PlayReady) : PlayReady := o.

(** The allocations and releases of app contexts in a trace, and the
    number of app contexts an object owns. *)
Definition is_new (e : Event) : bool :=
  match e with
  | EvNew_DRM_APP_CONTEXT => true
  | _ => false
  end.

Definition is_delete (e : Event) : bool :=
  match e with
  | EvDelete_DRM_APP_CONTEXT _ => true
  | _ => false
  end.

Definition count (p : Event -> bool) (l : list Event) : nat := List.length (filter p l).

Definition live (o : PlayReady) : nat :=
  match m_poAppContext o with
  | Some _ => 1
  | None => 0
  end.

(** From [w] to [w'] the trace has grown by events among which the
    allocations, with the context owned before, are as many as the
    releases, with the context owned after. *)
Definition context_balance {S : Type} (w w' : World S) : Prop :=
  exists l, trace w' = trace w ++ l
            /\ (count is_new l + live (self w) = count is_delete l + live (self w'))%nat.

(** The DRM_ID that [GetSecureStop] and [CommitSecureStop] hand to the SDK
    for the first [n] bytes of [sessionID]: the bytes after them are those
    of the fresh local. *)
Definition DRM_ID_of (sessionID : list byte) (n : Z) : list cell :=
  map Some (firstn (Z.to_nat n) sessionID) ++ repeat None (Z.to_nat (DRM_ID_SIZE - n)).

(** The events of the exit block of [InitSecureClock]: the three buffers
    are freed when they are not null. *)
Definition exit_events (L : ClockLocals) : list Event :=
  match exit_pbChallenge L with
  | Some _ => [EvOem_MemFree]
  | None => []
  end
  ++ match exit_pTimeChallengeURL L with
     | Some _ => [EvNEXUS_Memory_Free]
     | None => []
     end
  ++ match exit_pbResponse L with
     | Some _ => [EvNEXUS_Memory_Free]
     | None => []
     end.

(** The world after the tear-down of the live app context [p]: the four
    calls of [DeinitializeSystem], in their order. *)
Definition torn_down {S : Type} (H : SdkHeaders) (sdk : Sdk S) (p : ptr) (w : World S)
  : World S :=
  let s1 := snd (Drm_StoreMgmt_CleanupStore sdk (Some p) (DRM_STORE_CLEANUP_ALL H)
                   (outside w)) in
  let s2 := snd (Drm_Uninitialize sdk (Some p) s1) in
  let oem := m_drmOemContext (self w) in
  mkWorld (snd (Drm_Platform_Uninitialize sdk oem s2))
    (set_m_poAppContext None (self w))
    (trace w ++ [EvDrm_StoreMgmt_CleanupStore (Some p); EvDrm_Uninitialize (Some p);
                 EvDelete_DRM_APP_CONTEXT p; EvDrm_Platform_Uninitialize oem]).

(** The platform cannot be set up: [Drm_Platform_Initialize] answers a
    failing code, or hands back no OEM context. *)
Definition platform_unavailable {S : Type} (sdk : Sdk S) : Prop :=
  forall heap s,
    DRM_FAILED (fst (fst (Drm_Platform_Initialize sdk heap s))) = true
    \/ snd (fst (Drm_Platform_Initialize sdk heap s)) = None.

Definition is_Drm_Initialize (e : Event) : bool :=
  match e with
  | EvDrm_Initialize _ _ _ => true
  | _ => false
  end.

(** The world after [remove(m_storeLocation.c_str())]. *)
Definition store_removed {S : Type} (host : Host S) (w : World S) : World S :=
  mkWorld (snd (remove host (m_storeLocation (self w)) (outside w))) (self w) (trace w).

(** The world in which [Initialize] looks for the metering certificate. *)
Definition environment_set {S : Type} (host : Host S) (persistent : string)
  (w : World S) : S :=
  snd (SetEnvironment host "HOME" (persistent ++ "playready/")%string (outside w)).

(** The metering certificate that [Initialize] finds: the file named by
    the configuration, when one is named and it can be read. *)
Definition metering_file {S : Type} (host : Host S) (persistent configline : string)
  (w : World S) : option (list byte) :=
  match Config_MeteringCertificate host configline with
  | Some file => fst (DataElementFile host file true (environment_set host persistent w))
  | None => None
  end.

(** * Properties *)

(** ** Reasoning about runs *)

Lemma bind_Ret {S A B : Type} (c : M S A) (k : A -> M S B) (w : World S) b w' :
  bind c k w = Ret b w' ->
  exists a w1, c w = Ret a w1 /\ k a w1 = Ret b w'.
Proof.
  unfold bind. destruct (c w) as [a w1 | w1 | w1]; intro E; try discriminate.
  exists a, w1. split; [reflexivity | exact E].
Qed.

Lemma bind_of_Ret {S A B : Type} (c : M S A) (k : A -> M S B) (w : World S) a w1 :
  c w = Ret a w1 -> bind c k w = k a w1.
Proof. unfold bind. intros ->. reflexivity. Qed.

Lemma bind_call {S A B : Type} (e : Event) (f : S -> A * S) (k : A -> M S B)
  (w : World S) :
  bind (call e f) k w
  = k (fst (f (outside w))) (mkWorld (snd (f (outside w))) (self w) (trace w ++ [e])).
Proof. unfold bind, call. destruct (f (outside w)). reflexivity. Qed.

Lemma bind_bind {S A B C : Type} (c : M S A) (k : A -> M S B) (k' : B -> M S C)
  (w : World S) :
  bind (bind c k) k' w = bind c (fun a => bind (k a) k') w.
Proof. unfold bind. destruct (c w); reflexivity. Qed.

Lemma bind_ret {S A B : Type} (a : A) (k : A -> M S B) (w : World S) :
  bind (ret a) k w = k a w.
Proof. reflexivity. Qed.

Lemma bind_this {S B : Type} (k : PlayReady -> M S B) (w : World S) :
  bind this k w = k (self w) w.
Proof. reflexivity. Qed.

Lemma call_unit {S : Type} (e : Event) (f : S -> unit * S) (w : World S) :
  call e f w = Ret tt (mkWorld (snd (f (outside w))) (self w) (trace w ++ [e])).
Proof. unfold call. destruct (f (outside w)) as [[] s]. reflexivity. Qed.

(** ** CommitSecureStop *)

(** C6.  A call of [CommitSecureStop] whose session id length or server
    response length is zero returns the failure code [CDMi_S_FALSE] and
    leaves the whole world as it was: the state of the SDK (where the
    ledger of pending secure stops lives), the object, and the trace, so
    [Drm_SecureStop_ProcessResponse] was not called. *)
Theorem CommitSecureStop_empty_input :
  forall (S : Type) (sdk : Sdk S) (sessionID serverResponse : list byte)
         (sessionIDLength serverResponseLength : Z) (w : World S),
    sessionIDLength = 0 \/ serverResponseLength = 0 ->
    CommitSecureStop sdk sessionID sessionIDLength serverResponse
      serverResponseLength w = Ret CDMi_S_FALSE w.
Proof.
  intros S sdk sid resp n m w Hempty.
  unfold CommitSecureStop. cbv zeta.
  destruct Hempty as [-> | ->].
  - rewrite Z.eqb_refl. destruct (m =? 0); reflexivity.
  - rewrite Z.eqb_refl. reflexivity.
Qed.

Lemma CommitSecureStop_empty_input_witness :
  CommitSecureStop (scripted all_well no_redirect no_payload) session16 16 [] 0
    (start (Some 4096)) = Ret CDMi_S_FALSE (start (Some 4096))
  /\ CommitSecureStop (scripted all_well no_redirect no_payload) [] 0 [x3c] 1
       (start (Some 4096)) = Ret CDMi_S_FALSE (start (Some 4096)).
Proof.
  split.
  - apply (@CommitSecureStop_empty_input nat). right. reflexivity.
  - apply (@CommitSecureStop_empty_input nat). left. reflexivity.
Defined.

(** Whatever [Drm_SecureStop_ProcessResponse] answers, a call with
    non-empty inputs that returns, returns [CDMi_SUCCESS]. *)
Lemma CommitSecureStop_result_ignores_dr :
  forall (S : Type) (sdk : Sdk S) (sessionID serverResponse : list byte)
         (sessionIDLength serverResponseLength : Z) (w w' : World S) cr,
    sessionIDLength <> 0 -> serverResponseLength <> 0 ->
    CommitSecureStop sdk sessionID sessionIDLength serverResponse
      serverResponseLength w = Ret cr w' ->
    cr = CDMi_SUCCESS.
Proof.
  intros S sdk sid resp n m w w' cr Hn Hm.
  unfold CommitSecureStop.
  cbv zeta. apply Z.eqb_neq in Hn, Hm. rewrite Hn, Hm. cbn [CDMi_RESULT_eqb].
  destruct (memcpy fresh_DRM_ID 0 (map Some sid) n) as [id |]; [| discriminate].
  intro E.
  apply bind_Ret in E as (o & w1 & _ & E).
  apply bind_Ret in E as ([[dr sz] custom] & w2 & _ & E).
  apply bind_Ret in E as (u & w3 & _ & E).
  unfold ret in E. congruence.
Qed.

(** C1.  [CommitSecureStop] with a 16-byte session id and a one-byte
    response, in a world where [Drm_SecureStop_ProcessResponse] is called
    and answers the failing code [DRM_E_FAIL]: the method returns
    [CDMi_SUCCESS]. *)
Theorem CommitSecureStop_validation_failure_returns_success :
  DRM_FAILED DRM_E_FAIL = true /\
  CommitSecureStop
    (scripted (answer Q_Drm_SecureStop_ProcessResponse DRM_E_FAIL all_well)
       no_redirect no_payload)
    session16 16 [x3c] 1 (start (Some 4096))
  = Ret CDMi_SUCCESS
      (mkWorld O (sample_object (Some 4096))
         [EvDrm_SecureStop_ProcessResponse (Some 4096) (map Some session16)]).
Proof. split; reflexivity. Qed.

(** ** DeinitializeSystem *)

(** Every call of [DeinitializeSystem] returns, and leaves the app context
    null. *)
Lemma DeinitializeSystem_leaves_null :
  forall (S : Type) (H : SdkHeaders) (sdk : Sdk S) (w : World S),
  exists w', DeinitializeSystem H sdk w = Ret tt w'
             /\ m_poAppContext (self w') = None
             /\ m_drmOemContext (self w') = m_drmOemContext (self w).
Proof.
  intros S H sdk w. unfold DeinitializeSystem, bind, this.
  destruct (m_poAppContext (self w)) as [p |] eqn:Ectx.
  - unfold call at 1.
    destruct (Drm_StoreMgmt_CleanupStore sdk (Some p) (DRM_STORE_CLEANUP_ALL H) (outside w))
      as [dr s1].
    rewrite call_unit. unfold reset_app_context, bind, this. cbn.
    rewrite Ectx. cbn. rewrite call_unit. eexists. split; [reflexivity |].
    cbn. split; reflexivity.
  - unfold ret. rewrite call_unit. eexists. split; [reflexivity |].
    cbn. split; [exact Ectx | reflexivity].
Qed.

(** C5, as the code has it.  On a null app context [DeinitializeSystem]
    makes no call of [Drm_StoreMgmt_CleanupStore] or [Drm_Uninitialize],
    deletes nothing and leaves every member of the object as it was, but
    it does call [Drm_Platform_Uninitialize] on [m_drmOemContext]; a second
    consecutive call does the same once more. *)
Theorem DeinitializeSystem_on_null_context :
  forall (S : Type) (H : SdkHeaders) (sdk : Sdk S) (w : World S),
    m_poAppContext (self w) = None ->
    DeinitializeSystem H sdk w = Ret tt (platform_release sdk w) /\
    DeinitializeSystem H sdk (platform_release sdk w)
      = Ret tt (platform_release sdk (platform_release sdk w)).
Proof.
  assert (once : forall (S : Type) H (sdk : Sdk S) (w : World S),
             m_poAppContext (self w) = None ->
             DeinitializeSystem H sdk w = Ret tt (platform_release sdk w)).
  { intros S H sdk w Ectx. unfold DeinitializeSystem, bind, this.
    rewrite Ectx. unfold ret. rewrite call_unit. reflexivity. }
  intros S H sdk w Ectx. split.
  - apply once, Ectx.
  - apply once. exact Ectx.
Qed.

Lemma DeinitializeSystem_on_null_context_witness :
  DeinitializeSystem sample_headers (scripted all_well no_redirect no_payload) (start None)
    = Ret tt (mkWorld O (sample_object None) [EvDrm_Platform_Uninitialize (Some 512)])
  /\ DeinitializeSystem sample_headers (scripted all_well no_redirect no_payload)
       (mkWorld O (sample_object None) [EvDrm_Platform_Uninitialize (Some 512)])
     = Ret tt (mkWorld O (sample_object None)
                 [EvDrm_Platform_Uninitialize (Some 512);
                  EvDrm_Platform_Uninitialize (Some 512)]).
Proof.
  exact (@DeinitializeSystem_on_null_context nat sample_headers
           (scripted all_well no_redirect no_payload) (start None) eq_refl).
Defined.

(** C5 as stated fails: on the null app context of [start None] the call
    is not a no-op, it releases the platform. *)
Lemma DeinitializeSystem_null_context_not_noop :
  m_poAppContext (self (start None)) = None
  /\ DeinitializeSystem sample_headers (scripted all_well no_redirect no_payload)
       (start None) <> Ret tt (start None)
  /\ In (EvDrm_Platform_Uninitialize (Some 512))
       (trace (world_of (DeinitializeSystem sample_headers
                           (scripted all_well no_redirect no_payload) (start None)))).
Proof.
  split; [reflexivity |]. split.
  - vm_compute. discriminate.
  - vm_compute. left. reflexivity.
Qed.

(** ** InitSecureClock: the petition loop *)

(** For every outside world: on a redirection whose petition goes through,
    the loop goes round once more, however many rounds came before; there
    is no count of them in its state. *)
Lemma petition_loop_goes_round {S : Type} (sdk : Sdk S) (fuel : nat) (code : Z)
  (url : string) (w : World S) (code' : Z) (url' : string) (s' : S) :
  code = 301 \/ code = 302 ->
  PRDY_HTTP_Client_GetSecureTimeUrl sdk url (outside w) = (0, code', url', s') ->
  petition_loop sdk (Datatypes.S fuel) code url w
  = petition_loop sdk fuel code' url'
      (mkWorld s' (self w) (trace w ++ [EvPRDY_HTTP_Client_GetSecureTimeUrl url])).
Proof.
  intros Hcode Hget. cbn [petition_loop].
  replace (code =? 200) with false by (destruct Hcode as [-> | ->]; reflexivity).
  replace ((code =? 302) || (code =? 301)) with true
    by (destruct Hcode as [-> | ->]; reflexivity).
  rewrite bind_call, Hget. reflexivity.
Qed.

(** One iteration on a redirection, in a scripted world. *)
Lemma petition_loop_redirection (a : Answers) (pl : Payload) (petitions : nat -> Z)
  (fuel : nat) (code : Z) (w : World nat) :
  a Q_GetSecureTimeUrl_rc = 0 ->
  code = 301 \/ code = 302 ->
  petition_loop (scripted a petitions pl) (Datatypes.S fuel) code "u" w
  = petition_loop (scripted a petitions pl) fuel
      (petitions (Datatypes.S (outside w))) "u"
      (mkWorld (Datatypes.S (outside w)) (self w) (trace w ++ [hop_u])).
Proof.
  intros Ha [-> | ->]; cbn [petition_loop]; unfold bind, call; cbn;
    rewrite Ha; reflexivity.
Qed.

Lemma petition_loop_200 (a : Answers) (pl : Payload) (petitions : nat -> Z)
  (fuel : nat) (w : World nat) :
  petition_loop (scripted a petitions pl) (Datatypes.S fuel) 200 "u" w
  = Ret (inr "u"%string) w.
Proof. reflexivity. Qed.

Lemma hops_app (l1 l2 : list Event) : hops (l1 ++ l2) = (hops l1 + hops l2)%nat.
Proof. unfold hops. rewrite filter_app, length_app. reflexivity. Qed.

Lemma hops_repeat (n : nat) : hops (repeat hop_u n) = n.
Proof.
  induction n as [| n IH]; [reflexivity |].
  unfold hops in *. cbn. rewrite IH. reflexivity.
Qed.

(** Against the authority that always redirects, the loop is still running
    when the fuel is spent, one petition per unit of fuel. *)
Lemma petition_loop_always_302 (a : Answers) (pl : Payload) :
  a Q_GetSecureTimeUrl_rc = 0 ->
  forall (fuel : nat) (w : World nat),
    petition_loop (scripted a always_302 pl) fuel 302 "u" w
    = Loops (mkWorld (fuel + outside w)%nat (self w) (trace w ++ repeat hop_u fuel)).
Proof.
  intro Ha. induction fuel as [| fuel IH]; intro w.
  - destruct w as [s o tr]. cbn. rewrite app_nil_r. reflexivity.
  - rewrite petition_loop_redirection by (assumption || (right; reflexivity)).
    change (always_302 (Datatypes.S (outside w))) with 302.
    rewrite IH. cbn [outside self trace repeat].
    rewrite <- app_assoc. cbn [app]. f_equal. f_equal. lia.
Qed.

(** Against the authority that redirects [n] times, the loop follows the
    redirections that are left and then leaves with the challenge URL. *)
Lemma petition_loop_redirects (a : Answers) (pl : Payload) :
  a Q_GetSecureTimeUrl_rc = 0 ->
  forall (n fuel : nat) (w : World nat),
    (outside w <= n)%nat ->
    (n - outside w < fuel)%nat ->
    petition_loop (scripted a (redirects n) pl) fuel (redirects n (outside w)) "u" w
    = Ret (inr "u"%string)
        (mkWorld n (self w) (trace w ++ repeat hop_u (n - outside w))).
Proof.
  intros Ha n fuel. induction fuel as [| fuel IH]; intros w Hle Hlt; [lia |].
  destruct (Nat.eq_dec (outside w) n) as [Heq | Hne].
  - unfold redirects at 2. rewrite Heq, Nat.ltb_irrefl, petition_loop_200.
    rewrite Nat.sub_diag. cbn [repeat]. rewrite app_nil_r.
    destruct w as [s o tr]. cbn in *. subst s. reflexivity.
  - unfold redirects at 2.
    assert (Hlt' : (outside w <? n)%nat = true) by (apply Nat.ltb_lt; lia).
    rewrite Hlt'.
    rewrite petition_loop_redirection by (assumption || (left; reflexivity)).
    pose proof (IH (mkWorld (Datatypes.S (outside w)) (self w) (trace w ++ [hop_u])))
      as IH'.
    cbn [outside self trace] in IH'. rewrite IH' by lia.
    rewrite <- app_assoc. cbn [app].
    replace (n - outside w)%nat with (Datatypes.S (n - Datatypes.S (outside w))) by lia.
    reflexivity.
Qed.

Ltac to_the_petition_loop A1 A2 A3 :=
  unfold InitSecureClock;
  rewrite bind_call; cbn [fst snd scripted Drm_SecureTime_GenerateChallenge];
  rewrite A1; change (DRM_FAILED 0) with false; cbv iota;
  rewrite bind_bind, bind_call; cbn [fst snd scripted NEXUS_Memory_Allocate];
  rewrite A2; change (negb (0 =? NEXUS_SUCCESS)) with false; cbv iota;
  rewrite bind_bind, bind_call;
  cbn [fst snd scripted PRDY_HTTP_Client_GetForwardLinkUrl];
  rewrite A3; change (negb (0 =? 0)) with false; cbv iota;
  rewrite bind_bind; unfold bind at 1;
  cbn [outside self trace]; rewrite <- !app_assoc; cbn [app].

Lemma InitSecureClock_always_302 (a : Answers) (pl : Payload) (fuel : nat)
  (ctx : option ptr) (w : World nat) :
  bootstrap_goes_well a ->
  InitSecureClock sample_headers (scripted a always_302 pl) fuel ctx w
  = Loops (mkWorld (fuel + outside w)%nat (self w)
             (trace w ++ bootstrap_prefix ctx ++ repeat hop_u fuel)).
Proof.
  intros (A1 & A2 & A3 & A4 & A5).
  pose proof (@petition_loop_always_302 a pl A4 fuel
                (mkWorld (outside w) (self w) (trace w ++ bootstrap_prefix ctx))) as Hloop.
  cbn [outside self trace] in Hloop.
  to_the_petition_loop A1 A2 A3.
  match goal with
  | |- context [petition_loop ?s ?f ?c ?u ?w'] =>
      change (petition_loop s f c u w')
        with (petition_loop s f 302 "u"
                (mkWorld (outside w) (self w) (trace w ++ bootstrap_prefix ctx)))
  end.
  rewrite Hloop, <- app_assoc. reflexivity.
Qed.

Lemma InitSecureClock_redirects (a : Answers) (pl : Payload) (n fuel : nat)
  (ctx : option ptr) (w : World nat) :
  bootstrap_goes_well a ->
  outside w = O ->
  (n < fuel)%nat ->
  InitSecureClock sample_headers (scripted a (redirects n) pl) fuel ctx w
  = Ret 0 (mkWorld n (self w)
             (trace w ++ bootstrap_prefix ctx ++ repeat hop_u n ++ bootstrap_suffix ctx)).
Proof.
  intros (A1 & A2 & A3 & A4 & A5) Hw Hlt.
  pose proof (@petition_loop_redirects a pl A4 n fuel
                (mkWorld O (self w) (trace w ++ bootstrap_prefix ctx))) as Hloop.
  cbn [outside self trace] in Hloop. rewrite Nat.sub_0_r in Hloop.
  specialize (Hloop (Nat.le_0_l n) Hlt).
  destruct w as [s o tr]. cbn in Hw. subst s. cbn [self trace] in *.
  to_the_petition_loop A1 A2 A3.
  match goal with
  | |- context [petition_loop ?s ?f ?c ?u ?w'] =>
      change (petition_loop s f c u w')
        with (petition_loop s f (redirects n 0%nat) "u"
                (mkWorld O o (tr ++ bootstrap_prefix ctx)))
  end.
  rewrite Hloop. cbv iota.
  rewrite bind_bind, bind_call. cbn [fst snd].
  change (negb (0 =? NEXUS_SUCCESS)) with false. cbv iota.
  rewrite bind_bind, bind_call.
  cbn [fst snd scripted PRDY_HTTP_Client_SecureTimeChallengePost].
  rewrite A5. change (negb (0 =? 0)) with false. cbv iota.
  rewrite bind_bind, bind_call. cbn.
  rewrite <- !app_assoc. reflexivity.
Qed.

Lemma all_well_goes_well : bootstrap_goes_well all_well.
Proof. repeat split. Qed.

(** One iteration of the loop, for every outside world: the three ways on
    from a response code. *)
Lemma petition_loop_iteration {S : Type} (sdk : Sdk S) (fuel : nat) (code : Z)
  (url : string) (w : World S) :
  petition_loop sdk (Datatypes.S fuel) code url w
  = if code =? 200 then Ret (inr url) w
    else if (code =? 302) || (code =? 301) then
      let r := PRDY_HTTP_Client_GetSecureTimeUrl sdk url (outside w) in
      let w1 := mkWorld (snd r) (self w)
                  (trace w ++ [EvPRDY_HTTP_Client_GetSecureTimeUrl url]) in
      if fst (fst (fst r)) =? 0
      then petition_loop sdk fuel (snd (fst (fst r))) (snd (fst r)) w1
      else Ret (inl (fst (fst (fst r)))) w1
    else Ret (inl (-1)) w.
Proof.
  cbn [petition_loop]. destruct (code =? 200); [reflexivity |].
  destruct ((code =? 302) || (code =? 301)); [| reflexivity].
  rewrite bind_call. cbv zeta.
  destruct (PRDY_HTTP_Client_GetSecureTimeUrl sdk url (outside w))
    as [[[petRC code'] url'] s']. cbn [fst snd].
  destruct (petRC =? 0); reflexivity.
Qed.

(** Against the authority that redirects [n] times and then answers a code
    that is neither 200 nor a redirection, the loop follows the
    redirections that are left and then leaves for [ErrorExit] with -1. *)
Lemma petition_loop_redirects_then (a : Answers) (pl : Payload) (code : Z) :
  a Q_GetSecureTimeUrl_rc = 0 ->
  code <> 200 -> code <> 301 -> code <> 302 ->
  forall (n fuel : nat) (w : World nat),
    (outside w <= n)%nat ->
    (n - outside w < fuel)%nat ->
    petition_loop (scripted a (redirects_then n code) pl) fuel
      (redirects_then n code (outside w)) "u" w
    = Ret (inl (-1))
        (mkWorld n (self w) (trace w ++ repeat hop_u (n - outside w))).
Proof.
  intros Ha H200 H301 H302 n fuel.
  apply Z.eqb_neq in H200, H301, H302.
  induction fuel as [| fuel IH]; intros w Hle Hlt; [lia |].
  destruct (Nat.eq_dec (outside w) n) as [Heq | Hne].
  - unfold redirects_then at 2. rewrite Heq, Nat.ltb_irrefl.
    cbn [petition_loop]. rewrite H200, H301, H302. cbn [orb].
    rewrite Nat.sub_diag. cbn [repeat]. rewrite app_nil_r.
    destruct w as [s o tr]. cbn in *. subst s. reflexivity.
  - unfold redirects_then at 2.
    assert (Hlt' : (outside w <? n)%nat = true) by (apply Nat.ltb_lt; lia).
    rewrite Hlt'.
    rewrite petition_loop_redirection by (assumption || (left; reflexivity)).
    pose proof (IH (mkWorld (Datatypes.S (outside w)) (self w) (trace w ++ [hop_u])))
      as IH'.
    cbn [outside self trace] in IH'. rewrite IH' by lia.
    rewrite <- app_assoc. cbn [app].
    replace (n - outside w)%nat with (Datatypes.S (n - Datatypes.S (outside w))) by lia.
    reflexivity.
Qed.

Lemma InitSecureClock_redirects_then (a : Answers) (pl : Payload) (n fuel : nat)
  (ctx : option ptr) (w : World nat) (code : Z) :
  bootstrap_goes_well a ->
  outside w = O ->
  (n < fuel)%nat ->
  code <> 200 -> code <> 301 -> code <> 302 ->
  InitSecureClock sample_headers (scripted a (redirects_then n code) pl) fuel ctx w
  = Ret (-1) (mkWorld n (self w)
                (trace w ++ bootstrap_prefix ctx ++ repeat hop_u n ++ bootstrap_abort)).
Proof.
  intros (A1 & A2 & A3 & A4 & A5) Hw Hlt H200 H301 H302.
  pose proof (@petition_loop_redirects_then a pl code A4 H200 H301 H302 n fuel
                (mkWorld O (self w) (trace w ++ bootstrap_prefix ctx))) as Hloop.
  cbn [outside self trace] in Hloop. rewrite Nat.sub_0_r in Hloop.
  specialize (Hloop (Nat.le_0_l n) Hlt).
  destruct w as [s o tr]. cbn in Hw. subst s. cbn [self trace] in *.
  to_the_petition_loop A1 A2 A3.
  match goal with
  | |- context [petition_loop ?s ?f ?c ?u ?w'] =>
      change (petition_loop s f c u w')
        with (petition_loop s f (redirects_then n code 0%nat) "u"
                (mkWorld O o (tr ++ bootstrap_prefix ctx)))
  end.
  rewrite Hloop. cbv iota.
  unfold bind, ret, SAFE_OEM_FREE, log, bootstrap_abort.
  cbn [exit_rc exit_pbChallenge exit_pTimeChallengeURL exit_pbResponse outside self trace].
  rewrite <- !app_assoc. reflexivity.
Qed.

(** A petition that fails ends the loop, whatever the response code says:
    against the authority that always redirects, the first petition sent to
    a redirect target fails with [rc], and [rc] is returned. *)
Lemma InitSecureClock_petition_fails (rc : Z) (pl : Payload) (fuel : nat)
  (ctx : option ptr) (w : World nat) :
  rc <> 0 ->
  InitSecureClock sample_headers (scripted (petition_fails rc) always_302 pl)
    (Datatypes.S fuel) ctx w
  = Ret rc (mkWorld (Datatypes.S (outside w)) (self w)
              (trace w ++ bootstrap_prefix ctx ++ [hop_u] ++ bootstrap_abort)).
Proof.
  intro Hrc. apply Z.eqb_neq in Hrc.
  assert (A1 : petition_fails rc Q_Drm_SecureTime_GenerateChallenge = 0) by reflexivity.
  assert (A2 : petition_fails rc Q_NEXUS_Memory_Allocate = 0) by reflexivity.
  assert (A3 : petition_fails rc Q_GetForwardLinkUrl_rc = 0) by reflexivity.
  assert (A4 : petition_fails rc Q_GetSecureTimeUrl_rc = rc) by reflexivity.
  to_the_petition_loop A1 A2 A3.
  rewrite petition_loop_iteration.
  change (always_302 0%nat =? 200) with false.
  change ((always_302 0%nat =? 302) || (always_302 0%nat =? 301)) with true.
  cbv iota zeta.
  cbn [fst snd scripted PRDY_HTTP_Client_GetSecureTimeUrl outside self trace].
  rewrite A4, Hrc.
  unfold bind, ret, SAFE_OEM_FREE, log, bootstrap_abort, hop_u.
  cbn [exit_rc exit_pbChallenge exit_pTimeChallengeURL exit_pbResponse outside self trace].
  rewrite <- !app_assoc. reflexivity.
Qed.

(** C2, as the code has it.  The petition loop has no bound of its own.
    - One iteration, for every outside world: on 200 the loop is left with
      the challenge URL; on 301 or 302 one further petition is sent, and
      the loop goes round again when it goes through and is left for
      [ErrorExit] with its code when it fails; on any other response code
      the loop is left for [ErrorExit] with [rc = -1].
    - For every [n], against a time authority that answers with [n]
      redirections and then with 200, [InitSecureClock] follows all [n] of
      them, one petition each, and completes with [rc = 0]; against one
      that answers with [n] redirections and then with a code that is
      neither 200 nor a redirection, it follows all [n] of them and returns
      -1 without posting the challenge; and a petition that fails makes it
      return the code of the failure.
    - Against a time authority that always redirects it is still in the
      loop when the fuel is spent, for every amount of fuel, with one
      petition for each unit of it. *)
Theorem InitSecureClock_follows_every_redirection :
  (forall (S : Type) (sdk : Sdk S) (fuel : nat) (code : Z) (url : string)
          (w : World S),
      petition_loop sdk (Datatypes.S fuel) code url w
      = if code =? 200 then Ret (inr url) w
        else if (code =? 302) || (code =? 301) then
          let r := PRDY_HTTP_Client_GetSecureTimeUrl sdk url (outside w) in
          let w1 := mkWorld (snd r) (self w)
                      (trace w ++ [EvPRDY_HTTP_Client_GetSecureTimeUrl url]) in
          if fst (fst (fst r)) =? 0
          then petition_loop sdk fuel (snd (fst (fst r))) (snd (fst r)) w1
          else Ret (inl (fst (fst (fst r)))) w1
        else Ret (inl (-1)) w)
  /\ (forall n fuel : nat,
        (n < fuel)%nat ->
        (exists w : World nat,
            InitSecureClock sample_headers (scripted all_well (redirects n) no_payload)
              fuel (Some 4096) (start (Some 4096)) = Ret 0 w
            /\ hops (trace w) = n)
        /\ (forall code : Z,
               code <> 200 -> code <> 301 -> code <> 302 ->
               InitSecureClock sample_headers
                 (scripted all_well (redirects_then n code) no_payload)
                 fuel (Some 4096) (start (Some 4096))
               = Ret (-1)
                   (mkWorld n (sample_object (Some 4096))
                      (bootstrap_prefix (Some 4096) ++ repeat hop_u n
                       ++ bootstrap_abort)))
        /\ (forall rc : Z,
               rc <> 0 ->
               InitSecureClock sample_headers
                 (scripted (petition_fails rc) always_302 no_payload)
                 fuel (Some 4096) (start (Some 4096))
               = Ret rc
                   (mkWorld 1%nat (sample_object (Some 4096))
                      (bootstrap_prefix (Some 4096) ++ [hop_u] ++ bootstrap_abort))))
  /\ (forall fuel : nat,
        InitSecureClock sample_headers (scripted all_well always_302 no_payload) fuel
          (Some 4096) (start (Some 4096))
        = Loops (mkWorld fuel (sample_object (Some 4096))
                   (bootstrap_prefix (Some 4096) ++ repeat hop_u fuel))).
Proof.
  split; [| split].
  - intros S sdk fuel code url w. apply petition_loop_iteration.
  - intros n fuel Hlt. split; [| split].
    + eexists. split.
      * apply InitSecureClock_redirects;
          [exact all_well_goes_well | reflexivity | exact Hlt].
      * cbn [trace start]. rewrite !hops_app, hops_repeat. cbn. lia.
    + intros code H200 H301 H302.
      rewrite (@InitSecureClock_redirects_then all_well no_payload n fuel (Some 4096)
                 (start (Some 4096)) code all_well_goes_well eq_refl Hlt H200 H301 H302).
      reflexivity.
    + intros rc Hrc. destruct fuel as [| fuel]; [lia |].
      rewrite (InitSecureClock_petition_fails rc no_payload fuel (Some 4096)
                 (start (Some 4096)) Hrc).
      reflexivity.
  - intro fuel. rewrite InitSecureClock_always_302 by exact all_well_goes_well.
    cbn [start outside self trace app]. rewrite Nat.add_0_r. reflexivity.
Qed.

Lemma InitSecureClock_follows_every_redirection_witness :
  ((exists w : World nat,
       InitSecureClock sample_headers (scripted all_well (redirects 3) no_payload) 4
         (Some 4096) (start (Some 4096)) = Ret 0 w
       /\ hops (trace w) = 3%nat)
   /\ (forall code : Z,
          code <> 200 -> code <> 301 -> code <> 302 ->
          InitSecureClock sample_headers
            (scripted all_well (redirects_then 3 code) no_payload)
            4 (Some 4096) (start (Some 4096))
          = Ret (-1)
              (mkWorld 3%nat (sample_object (Some 4096))
                 (bootstrap_prefix (Some 4096) ++ repeat hop_u 3 ++ bootstrap_abort)))
   /\ (forall rc : Z,
          rc <> 0 ->
          InitSecureClock sample_headers
            (scripted (petition_fails rc) always_302 no_payload)
            4 (Some 4096) (start (Some 4096))
          = Ret rc
              (mkWorld 1%nat (sample_object (Some 4096))
                 (bootstrap_prefix (Some 4096) ++ [hop_u] ++ bootstrap_abort))))
  /\ (exists w : World nat,
        InitSecureClock sample_headers (scripted all_well (redirects 40) no_payload) 41
          (Some 4096) (start (Some 4096)) = Ret 0 w
        /\ hops (trace w) = 40%nat).
Proof.
  split.
  - apply (proj1 (proj2 InitSecureClock_follows_every_redirection) 3%nat 4%nat). lia.
  - apply (proj1 (proj2 InitSecureClock_follows_every_redirection) 40%nat 41%nat). lia.
Defined.

(** C2 as stated fails: against the time authority that answers every
    petition with 302, [InitSecureClock] never returns, whatever the fuel,
    and the number of redirections it has followed passes every bound. *)
Lemma InitSecureClock_redirect_forever :
  (~ exists (fuel : nat) (rc : Z) (w : World nat),
       InitSecureClock sample_headers (scripted all_well always_302 no_payload) fuel
         (Some 4096) (start (Some 4096)) = Ret rc w)
  /\ (forall bound : nat,
        Nat.lt bound
          (hops (trace (world_of
             (InitSecureClock sample_headers (scripted all_well always_302 no_payload)
                (Datatypes.S bound) (Some 4096) (start (Some 4096))))))).
Proof.
  split.
  - intros (fuel & rc & w & E).
    rewrite InitSecureClock_always_302 in E by exact all_well_goes_well.
    discriminate.
  - intro bound. rewrite InitSecureClock_always_302 by exact all_well_goes_well.
    cbn [world_of trace start]. rewrite !hops_app, hops_repeat. cbn.
    unfold Nat.lt. lia.
Qed.

(** ** CreateSystemExt: the exit block *)

Lemma reset_app_context_null {S : Type} (w w' : World S) (u : unit) :
  reset_app_context w = Ret u w' -> m_poAppContext (self w') = None.
Proof.
  unfold reset_app_context, bind, this.
  destruct (m_poAppContext (self w)) as [p |] eqn:E; cbn.
  - intro R. inversion R. reflexivity.
  - unfold ret. intro R. inversion R. subst w'. exact E.
Qed.

(** The exit block: whenever [CreateSystemExt] returns a result that is not
    [CDMi_SUCCESS], the app context has been released, [m_poAppContext] is
    null. *)
Lemma CreateSystemExt_failure_releases_context :
  forall (S : Type) (H : SdkHeaders) (sdk : Sdk S) (fuel : nat)
         (w w' : World S) (cr : CDMi_RESULT),
    CreateSystemExt H sdk fuel w = Ret cr w' ->
    cr <> CDMi_SUCCESS ->
    m_poAppContext (self w') = None.
Proof.
  intros S H sdk fuel w w' cr E Hcr. unfold CreateSystemExt in E.
  do 7 (apply bind_Ret in E as (? & ? & _ & E)).
  match type of E with
  | (if DRM_FAILED ?dr then _ else _) _ = _ => destruct (DRM_FAILED dr)
  end.
  - apply bind_Ret in E as (u & w1 & Hreset & E).
    unfold ret in E. inversion E. subst. eapply reset_app_context_null, Hreset.
  - unfold ret in E. inversion E. subst. contradiction.
Qed.

(** C3.  In the world [revocation_rejected], [LoadRevocationList] returns
    [false], and the run of [CreateSystemExt] that calls it returns
    [CDMi_SUCCESS]. *)
Theorem CreateSystemExt_revocation_failure_returns_success :
  (exists w, LoadRevocationList revocation_rejected DRM_DEFAULT_REVOCATION_LIST_FILE
               (start (Some 4096)) = Ret false w)
  /\ exists w, CreateSystemExt sample_headers revocation_rejected 0 (start None)
               = Ret CDMi_SUCCESS w
               /\ trace w = revocation_rejected_trace.
Proof.
  split; eexists; [| split]; vm_compute; reflexivity.
Qed.

(** The same run, seen from the app context: it ends at [ErrorExit] after
    [Drm_Revocation_StorePackage] has failed and before the decryption mode
    is set; as the result is [CDMi_SUCCESS], the app context stays live. *)
Lemma CreateSystemExt_revocation_failure_keeps_context :
  exists w, CreateSystemExt sample_headers revocation_rejected 0 (start None)
            = Ret CDMi_SUCCESS w
            /\ m_poAppContext (self w) = Some 4096
            /\ In (EvDrm_Revocation_StorePackage (Some 4096)) (trace w)
            /\ ~ In (EvDrm_Content_SetProperty (Some 4096) 1 1) (trace w).
Proof.
  eexists. split; [vm_compute; reflexivity |]. cbn [self trace m_poAppContext].
  split; [reflexivity |]. split.
  - do 10 right. left. reflexivity.
  - intro Hin. repeat (destruct Hin as [Hin | Hin]; [discriminate |]). exact Hin.
Qed.

(** ** CreateSystemExt: all or nothing *)

Section Keeps.

Context {S : Type}.

Lemma keeps_ret {A : Type} (a : A) : keeps_context (@ret S A a).
Proof. intros w a' w' E. inversion E. reflexivity. Qed.

Lemma keeps_loops {A : Type} : keeps_context (@loops S A).
Proof. intros w a w' E. discriminate E. Qed.

Lemma keeps_undef {A : Type} : keeps_context (@undef S A).
Proof. intros w a w' E. discriminate E. Qed.

Lemma keeps_this : keeps_context (@this S).
Proof. intros w a w' E. inversion E. reflexivity. Qed.

Lemma keeps_peek {A : Type} (f : S -> A) : keeps_context (peek f).
Proof. intros w a w' E. inversion E. reflexivity. Qed.

Lemma keeps_log (e : Event) : keeps_context (@log S e).
Proof. intros w a w' E. inversion E. reflexivity. Qed.

Lemma keeps_call {A : Type} (e : Event) (f : S -> A * S) : keeps_context (call e f).
Proof.
  intros w a w'. unfold call. destruct (f (outside w)) as [a' s].
  intro E. inversion E. reflexivity.
Qed.

Lemma keeps_modify (f : PlayReady -> PlayReady) :
  (forall o, m_poAppContext (f o) = m_poAppContext o) ->
  keeps_context (@modify S f).
Proof. intros Hf w a w' E. inversion E. cbn. apply Hf. Qed.

Lemma keeps_bind {A B : Type} (c : M S A) (k : A -> M S B) :
  keeps_context c -> (forall a, keeps_context (k a)) -> keeps_context (bind c k).
Proof.
  intros Hc Hk w b w' E. apply bind_Ret in E as (a & w1 & E1 & E2).
  rewrite (Hk a w1 b w' E2). exact (Hc w a w1 E1).
Qed.

End Keeps.

Ltac keeps_step :=
  lazymatch goal with
  | |- keeps_context (bind _ _) => apply keeps_bind; [| intro]
  | |- keeps_context (ret _) => apply keeps_ret
  | |- keeps_context loops => apply keeps_loops
  | |- keeps_context undef => apply keeps_undef
  | |- keeps_context this => apply keeps_this
  | |- keeps_context (peek _) => apply keeps_peek
  | |- keeps_context (modify _) => apply keeps_modify; reflexivity
  | |- keeps_context (log _) => apply keeps_log
  | |- keeps_context (call _ _) => apply keeps_call
  | |- keeps_context (if ?b then _ else _) => destruct b
  | |- keeps_context (match ?x with _ => _ end) => destruct x
  end.

Ltac keeps_auto := repeat keeps_step.

Section KeepsOfMethods.

Context {S : Type}.
Variable H : SdkHeaders.
Variable sdk : Sdk S.

Lemma petition_loop_keeps (fuel : nat) :
  forall code url, keeps_context (petition_loop sdk fuel code url).
Proof.
  induction fuel as [| fuel IH]; intros code url; cbn [petition_loop].
  - keeps_auto.
  - keeps_auto. apply IH.
Qed.

Lemma InitSecureClock_keeps (fuel : nat) (ctx : option ptr) :
  keeps_context (InitSecureClock H sdk fuel ctx).
Proof.
  unfold InitSecureClock, SAFE_OEM_FREE. keeps_auto; apply petition_loop_keeps.
Qed.

Lemma reset_app_context_new_live (w w' : World S) (u : unit) :
  reset_app_context_new sdk w = Ret u w' -> m_poAppContext (self w') <> None.
Proof.
  unfold reset_app_context_new. rewrite bind_call, bind_this. cbn [self].
  set (p := fst (new_DRM_APP_CONTEXT sdk (outside w))).
  destruct (m_poAppContext (self w)); cbn; intro E; inversion E; discriminate.
Qed.

End KeepsOfMethods.

(** The exit block, read by the result code.  Whenever a run of
    [CreateSystemExt] returns a result that is not [CDMi_SUCCESS], no app
    context remains: [m_poAppContext] has been released back to null.  And
    whenever the result is [CDMi_SUCCESS], the app context is live. *)
Lemma CreateSystemExt_atomic :
  forall (S : Type) (H : SdkHeaders) (sdk : Sdk S) (fuel : nat)
         (w w' : World S) (cr : CDMi_RESULT),
    CreateSystemExt H sdk fuel w = Ret cr w' ->
    (cr <> CDMi_SUCCESS -> m_poAppContext (self w') = None)
    /\ (cr = CDMi_SUCCESS -> m_poAppContext (self w') <> None).
Proof.
  intros S H sdk fuel w w' cr E. split.
  - exact (CreateSystemExt_failure_releases_context S H sdk fuel w w' cr E).
  - intro Hcr. subst cr. unfold CreateSystemExt in E.
    apply bind_Ret in E as (o & w1 & _ & E).
    apply bind_Ret in E as (u1 & w2 & _ & E).
    apply bind_Ret in E as (u2 & w3 & Hnew & E).
    apply (reset_app_context_new_live sdk) in Hnew.
    apply bind_Ret in E as (p & w4 & K4 & E). apply keeps_call in K4.
    apply bind_Ret in E as (u3 & w5 & K5 & E).
    apply keeps_modify in K5; [| reflexivity].
    apply bind_Ret in E as (o' & w6 & K6 & E). apply keeps_this in K6.
    apply bind_Ret in E as (dr & w7 & K7 & E).
    assert (Hbody : m_poAppContext (self w7) = m_poAppContext (self w6)).
    { revert K7. generalize w6 dr w7.
      change (keeps_context
                (dr0 <- call (EvDrm_Initialize (m_poAppContext o') (m_drmOemContext o')
                                (m_storeLocation o'))
                          (Drm_Initialize sdk (m_poAppContext o') (m_drmOemContext o')
                             (m_pbOpaqueBuffer o') (m_cbOpaqueBuffer o')
                             (m_storeLocation o')) ;;
                 if DRM_FAILED dr0 then ret dr0
                 else
                   CreateSystemExt_clock H sdk fuel
                     (let size := MAX_NUM_LICENSES H * LICENSE_SIZE_BYTES H in
                      dr1 <- call (EvDrm_ResizeInMemoryLicenseStore (m_poAppContext o') size)
                               (Drm_ResizeInMemoryLicenseStore sdk (m_poAppContext o') size) ;;
                      if DRM_FAILED dr1 then ret dr1
                      else
                        CreateSystemExt_revocation H sdk
                          (let dwEncryptionMode := OEM_TEE_DECRYPTION_MODE_HANDLE H in
                           call (EvDrm_Content_SetProperty (m_poAppContext o')
                                   (DRM_CSP_DECRYPTION_OUTPUT_MODE H) dwEncryptionMode)
                             (Drm_Content_SetProperty sdk (m_poAppContext o')
                                (DRM_CSP_DECRYPTION_OUTPUT_MODE H) dwEncryptionMode))))).
      unfold CreateSystemExt_clock, CreateSystemExt_revocation, LoadRevocationList.
      keeps_auto; apply InitSecureClock_keeps. }
    destruct (DRM_FAILED dr).
    + apply bind_Ret in E as (u & w8 & _ & E). discriminate E.
    + inversion E. subst w'. congruence.
Qed.

Lemma CreateSystemExt_atomic_witness :
  m_poAppContext
    (self (world_of
       (CreateSystemExt sample_headers
          (scripted (answer Q_Drm_Initialize DRM_E_FAIL all_well) no_redirect no_payload)
          0 (start None)))) = None
  /\ m_poAppContext
       (self (world_of
          (CreateSystemExt sample_headers (scripted all_well no_redirect no_payload)
             0 (start None)))) <> None.
Proof.
  split.
  - refine (proj1 (CreateSystemExt_atomic nat sample_headers
                     (scripted (answer Q_Drm_Initialize DRM_E_FAIL all_well)
                        no_redirect no_payload)
                     0%nat (start None) _ CDMi_S_FALSE _) _).
    + vm_compute. reflexivity.
    + discriminate.
  - refine (proj2 (CreateSystemExt_atomic nat sample_headers
                     (scripted all_well no_redirect no_payload)
                     0%nat (start None) _ CDMi_SUCCESS _) eq_refl).
    vm_compute. reflexivity.
Defined.

(** C4.  Failure paths of [CreateSystemExt] on which the app context stays
    live.  In each of these worlds a step of the set-up fails, the run
    returns [CDMi_SUCCESS] and [m_poAppContext] is still the context that
    was allocated:
    - the buffer for the revocation list cannot be allocated
      ([LoadRevocationList] returns [false]): the run leaves for the exit
      and the decryption mode is never set;
    - [Drm_Revocation_StorePackage] rejects the list: the same;
    - the secure clock is not set and [Drm_SecureTime_GenerateChallenge]
      fails: [InitSecureClock] returns 0 and the set-up goes on;
    - the secure clock is not set and [Drm_SecureTime_ProcessResponse]
      rejects the answer of the time authority: the same. *)
Theorem CreateSystemExt_failure_keeps_live_context :
  DRM_FAILED DRM_E_FAIL = true
  /\ (exists w,
         CreateSystemExt sample_headers revocation_unallocated 1 (start None)
         = Ret CDMi_SUCCESS w
         /\ m_poAppContext (self w) = Some 4096
         /\ trace w = opened_trace ++ configured_trace ++ [EvBKNI_Malloc 3])
  /\ (exists w,
         CreateSystemExt sample_headers revocation_rejected 1 (start None)
         = Ret CDMi_SUCCESS w
         /\ m_poAppContext (self w) = Some 4096
         /\ trace w = opened_trace ++ configured_trace
                      ++ [EvBKNI_Malloc 3; EvDrm_Revocation_StorePackage (Some 4096);
                          EvBKNI_Free])
  /\ (exists w,
         CreateSystemExt sample_headers challenge_fails 1 (start None)
         = Ret CDMi_SUCCESS w
         /\ m_poAppContext (self w) = Some 4096
         /\ trace w = opened_trace
                      ++ [EvDrm_SecureTime_GenerateChallenge (Some 4096); EvOem_MemFree]
                      ++ configured_trace
                      ++ [EvDrm_Content_SetProperty (Some 4096) 1 1])
  /\ (exists w,
         CreateSystemExt sample_headers response_rejected 1 (start None)
         = Ret CDMi_SUCCESS w
         /\ m_poAppContext (self w) = Some 4096
         /\ trace w = opened_trace
                      ++ bootstrap_prefix (Some 4096) ++ bootstrap_suffix (Some 4096)
                      ++ configured_trace
                      ++ [EvDrm_Content_SetProperty (Some 4096) 1 1]).
Proof.
  split; [reflexivity |].
  repeat split; eexists; (split; [vm_compute; reflexivity | split; reflexivity]).
Qed.

(** ** What a computation writes to the trace *)

Section Emits.

Context {S : Type}.
Variable p : Event -> bool.

Lemma emits_ret {A : Type} (a : A) : emits p (@ret S A a).
Proof. intro w. exists []. cbn. rewrite app_nil_r. split; reflexivity. Qed.

Lemma emits_loops {A : Type} : emits p (@loops S A).
Proof. intro w. exists []. cbn. rewrite app_nil_r. split; reflexivity. Qed.

Lemma emits_undef {A : Type} : emits p (@undef S A).
Proof. intro w. exists []. cbn. rewrite app_nil_r. split; reflexivity. Qed.

Lemma emits_this : emits p (@this S).
Proof. intro w. exists []. cbn. rewrite app_nil_r. split; reflexivity. Qed.

Lemma emits_peek {A : Type} (f : S -> A) : emits p (peek f).
Proof. intro w. exists []. cbn. rewrite app_nil_r. split; reflexivity. Qed.

Lemma emits_modify (f : PlayReady -> PlayReady) : emits p (@modify S f).
Proof. intro w. exists []. cbn. rewrite app_nil_r. split; reflexivity. Qed.

Lemma emits_log (e : Event) : p e = true -> emits p (@log S e).
Proof. intros He w. exists [e]. cbn. rewrite He. split; reflexivity. Qed.

Lemma emits_call {A : Type} (e : Event) (f : S -> A * S) :
  p e = true -> emits p (call e f).
Proof.
  intros He w. exists [e]. unfold call. destruct (f (outside w)) as [a s].
  cbn. rewrite He. split; reflexivity.
Qed.

Lemma emits_bind {A B : Type} (c : M S A) (k : A -> M S B) :
  emits p c -> (forall a, emits p (k a)) -> emits p (bind c k).
Proof.
  intros Hc Hk w. destruct (Hc w) as (l1 & E1 & F1). unfold bind.
  destruct (c w) as [a w1 | w1 | w1]; cbn in E1.
  - destruct (Hk a w1) as (l2 & E2 & F2). exists (l1 ++ l2).
    rewrite E2, E1, app_assoc, forallb_app, F1, F2. split; reflexivity.
  - exists l1. split; assumption.
  - exists l1. split; assumption.
Qed.

End Emits.

Ltac emits_step :=
  lazymatch goal with
  | |- emits _ (bind _ _) => apply emits_bind; [| intro]
  | |- emits _ (ret _) => apply emits_ret
  | |- emits _ loops => apply emits_loops
  | |- emits _ undef => apply emits_undef
  | |- emits _ this => apply emits_this
  | |- emits _ (peek _) => apply emits_peek
  | |- emits _ (modify _) => apply emits_modify
  | |- emits _ (log _) => apply emits_log; reflexivity
  | |- emits _ (call _ _) => apply emits_call; reflexivity
  | |- emits _ (if ?b then _ else _) => destruct b
  | |- emits _ (match ?x with _ => _ end) => destruct x
  end.

Ltac emits_auto := repeat emits_step.

Section EmitsOfMethods.

Context {S : Type}.
Variable H : SdkHeaders.
Variable sdk : Sdk S.

Lemma petition_loop_emits (fuel : nat) :
  forall code url, emits not_antirollback (petition_loop sdk fuel code url).
Proof.
  induction fuel as [| fuel IH]; intros code url; cbn [petition_loop].
  - emits_auto.
  - emits_auto. apply IH.
Qed.

Lemma InitSecureClock_emits (fuel : nat) (ctx : option ptr) :
  emits not_antirollback (InitSecureClock H sdk fuel ctx).
Proof.
  unfold InitSecureClock, SAFE_OEM_FREE.
  emits_auto; try apply petition_loop_emits.
Qed.

Lemma LoadRevocationList_emits (file : string) :
  emits neutral (LoadRevocationList sdk file).
Proof. unfold LoadRevocationList. emits_auto. Qed.

Lemma CreateSystemExt_revocation_emits (k : M S DRM_RESULT) :
  emits neutral k -> emits neutral (CreateSystemExt_revocation H sdk k).
Proof.
  intro Hk. unfold CreateSystemExt_revocation.
  emits_auto; try exact Hk; apply LoadRevocationList_emits.
Qed.

Lemma reset_app_context_emits : emits neutral (@reset_app_context S).
Proof. unfold reset_app_context. emits_auto. Qed.

Lemma reset_app_context_new_emits : emits neutral (reset_app_context_new sdk).
Proof. unfold reset_app_context_new. emits_auto. Qed.

End EmitsOfMethods.

Section Runs.

Context {S : Type}.
Variable p : Event -> bool.

Lemma runs_this : runs p (@this S).
Proof.
  intro w. exists (self w), w, []. rewrite app_nil_r. repeat split; reflexivity.
Qed.

Lemma runs_modify (f : PlayReady -> PlayReady) : runs p (@modify S f).
Proof.
  intro w. eexists tt, _, []. split; [reflexivity |]. cbn. rewrite app_nil_r.
  split; reflexivity.
Qed.

Lemma runs_log (e : Event) : p e = true -> runs p (@log S e).
Proof.
  intros He w. eexists tt, _, [e]. split; [reflexivity |]. cbn. rewrite He.
  split; reflexivity.
Qed.

Lemma runs_ret {A : Type} (a : A) : runs p (@ret S A a).
Proof.
  intro w. eexists a, w, []. rewrite app_nil_r. repeat split; reflexivity.
Qed.

Lemma runs_call {A : Type} (e : Event) (f : S -> A * S) :
  p e = true -> runs p (call e f).
Proof.
  intros He w. unfold call. destruct (f (outside w)) as [a s].
  eexists a, _, [e]. split; [reflexivity |]. cbn. rewrite He. split; reflexivity.
Qed.

Lemma runs_bind {A B : Type} (c : M S A) (k : A -> M S B) :
  runs p c -> (forall a, runs p (k a)) -> runs p (bind c k).
Proof.
  intros Hc Hk w. destruct (Hc w) as (a & w1 & l1 & E1 & T1 & F1).
  destruct (Hk a w1) as (b & w2 & l2 & E2 & T2 & F2).
  exists b, w2, (l1 ++ l2). unfold bind. rewrite E1, E2, T2, T1, app_assoc.
  rewrite forallb_app, F1, F2. repeat split; reflexivity.
Qed.

Variable Q : list Event -> Prop.

Lemma satisfies_before {A B : Type} (c : M S A) (k : A -> M S B) :
  (forall l' l, forallb p l' = true -> Q l -> Q (l' ++ l)) ->
  runs p c -> (forall a, satisfies Q (k a)) -> satisfies Q (bind c k).
Proof.
  intros Hpre Hc Hk w. destruct (Hc w) as (a & w1 & l1 & E1 & T1 & F1).
  destruct (Hk a w1) as (l2 & T2 & Q2).
  exists (l1 ++ l2). unfold bind. rewrite E1, T2, T1, app_assoc.
  split; [reflexivity | apply Hpre; assumption].
Qed.

Lemma satisfies_after {A B : Type} (c : M S A) (k : A -> M S B) :
  (forall l l', Q l -> forallb p l' = true -> Q (l ++ l')) ->
  satisfies Q c -> (forall a, emits p (k a)) -> satisfies Q (bind c k).
Proof.
  intros Hpost Hc Hk w. destruct (Hc w) as (l1 & T1 & Q1). unfold bind.
  destruct (c w) as [a w1 | w1 | w1]; cbn in T1.
  - destruct (Hk a w1) as (l2 & T2 & F2). exists (l1 ++ l2).
    rewrite T2, T1, app_assoc. split; [reflexivity | apply Hpost; assumption].
  - exists l1. split; assumption.
  - exists l1. split; assumption.
Qed.

End Runs.

(** ** CreateSystemExt: the choice of the clock strategy *)

Lemma neutral_no_bootstrap (l : list Event) :
  forallb neutral l = true -> existsb is_bootstrap l = false.
Proof.
  induction l as [| e l IH]; cbn; [reflexivity |].
  unfold neutral at 1. intro F. apply andb_prop in F as [F1 F2].
  apply andb_prop in F1 as [F1 _]. apply negb_true_iff in F1.
  rewrite F1, (IH F2). reflexivity.
Qed.

Lemma not_antirollback_none (l : list Event) :
  forallb not_antirollback l = true -> existsb is_antirollback l = false.
Proof.
  induction l as [| e l IH]; cbn; [reflexivity |].
  unfold not_antirollback at 1. intro F. apply andb_prop in F as [F1 F2].
  apply negb_true_iff in F1. rewrite F1, (IH F2). reflexivity.
Qed.

Lemma neutral_not_antirollback (l : list Event) :
  forallb neutral l = true -> forallb not_antirollback l = true.
Proof.
  induction l as [| e l IH]; cbn; [reflexivity |].
  unfold neutral at 1. intro F. apply andb_prop in F as [F1 F2].
  apply andb_prop in F1 as [_ F1]. unfold not_antirollback at 1.
  rewrite F1, (IH F2). reflexivity.
Qed.

Lemma antirollback_event_found (l : list Event) c sd :
  In (EvDrm_AntiRollBackClock_Init c sd) l -> existsb is_antirollback l = true.
Proof.
  intro Hin. apply existsb_exists. eexists. split; [exact Hin | reflexivity].
Qed.

Lemma strategy_chosen_app_neutral H dr seed (l l' : list Event) :
  strategy_chosen H dr seed l -> forallb neutral l' = true ->
  strategy_chosen H dr seed (l ++ l') /\ strategy_chosen H dr seed (l' ++ l).
Proof.
  intros (Q1 & Q2 & Q3 & Q4) F.
  pose proof (neutral_no_bootstrap _ F) as Fb.
  pose proof (not_antirollback_none _ (neutral_not_antirollback _ F)) as Fa.
  split; (split; [| split; [| split]]).
  - rewrite existsb_app, Fb, orb_false_r. exact Q1.
  - rewrite existsb_app, Fa, orb_false_r. exact Q2.
  - intros c sd Hin. apply in_app_or in Hin as [Hin | Hin]; [eapply Q3, Hin |].
    apply antirollback_event_found in Hin. congruence.
  - intro E. rewrite !existsb_app, Fb, Fa, !orb_false_r. exact (Q4 E).
  - rewrite existsb_app, Fb. exact Q1.
  - rewrite existsb_app, Fa. exact Q2.
  - intros c sd Hin. apply in_app_or in Hin as [Hin | Hin]; [| eapply Q3, Hin].
    apply antirollback_event_found in Hin. congruence.
  - intro E. rewrite !existsb_app, Fb, Fa. exact (Q4 E).
Qed.

Lemma satisfies_weaken {S A : Type} (Q Q' : list Event -> Prop) (c : M S A) :
  (forall l, Q l -> Q' l) -> satisfies Q c -> satisfies Q' c.
Proof.
  intros HQ Hc w. destruct (Hc w) as (l & T & Ql). exists l. split; auto.
Qed.

(** A call followed by a computation that emits only [p]-events. *)
Lemma call_then {S A B : Type} (p : Event -> bool) (e : Event) (f : S -> A * S)
  (k : A -> M S B) :
  (forall a, emits p (k a)) ->
  satisfies (fun l => exists l', l = e :: l' /\ forallb p l' = true) (bind (call e f) k).
Proof.
  intros Hk w. unfold bind, call. destruct (f (outside w)) as [a s1].
  destruct (Hk a (mkWorld s1 (self w) (trace w ++ [e]))) as (l' & T & F).
  exists (e :: l'). rewrite T. cbn [trace]. rewrite <- app_assoc.
  split; [reflexivity |]. exists l'. split; [reflexivity | exact F].
Qed.

Section ClockStrategy.

Context {S : Type}.
Variable H : SdkHeaders.
Variable sdk : Sdk S.
Variable dr : DRM_RESULT.
Variables tv_sec tv_usec : Z.
Variable t : tm.

Hypothesis codes : clock_codes_ok H.
Hypothesis opened :
  forall a b c d e s, DRM_FAILED (fst (Drm_Initialize sdk a b c d e s)) = false.
Hypothesis query : forall c s, fst (Drm_SecureTime_GetValue sdk c s) = dr.
Hypothesis wall_clock : forall s, fst (gettimeofday sdk s) = (tv_sec, tv_usec).
Hypothesis broken_down : gmtime sdk tv_sec = Some t.

(** The events of [InitSecureClock] start with its challenge, and none of
    them belongs to the anti-rollback clock. *)
Lemma InitSecureClock_starts (fuel : nat) (ctx : option ptr) :
  satisfies (fun l => existsb is_bootstrap l = true
                      /\ forallb not_antirollback l = true)
    (InitSecureClock H sdk fuel ctx).
Proof.
  unfold InitSecureClock.
  eapply satisfies_weaken; [| apply (call_then not_antirollback)].
  - intros l (l' & -> & F). cbn. split; [reflexivity | exact F].
  - intro a. unfold SAFE_OEM_FREE. emits_auto; try apply petition_loop_emits.
Qed.

Lemma CreateSystemExt_clock_chooses (fuel : nat) (k : M S DRM_RESULT) :
  emits neutral k ->
  satisfies (strategy_chosen H dr (systemTime_of t tv_usec))
    (CreateSystemExt_clock H sdk fuel k).
Proof.
  intros Hk w. destruct codes as (F1 & F2 & F3 & N1 & N2).
  unfold CreateSystemExt_clock. unfold bind at 1, this at 1.
  unfold bind at 1, call at 1.
  pose proof (query (m_poAppContext (self w)) (outside w)) as Eq.
  destruct (Drm_SecureTime_GetValue sdk (m_poAppContext (self w)) (outside w))
    as [dr' s1]. cbn in Eq. subst dr'.
  set (ctx := m_poAppContext (self w)).
  set (w1 := mkWorld s1 (self w) (trace w ++ [EvDrm_SecureTime_GetValue ctx])).
  assert (Hexit : forall r : Z, emits neutral (if negb (r =? 0) then ret dr else k)).
  { intro r. destruct (negb (r =? 0)); [apply emits_ret | exact Hk]. }
  match goal with
  | |- exists l, trace (world_of (?X w1)) = _ /\ _ =>
      assert (Hrest : exists l0, trace (world_of (X w1)) = trace w1 ++ l0
                                 /\ strategy_chosen H dr (systemTime_of t tv_usec) l0)
  end.
  { destruct ((dr =? DRM_E_SECURETIME_CLOCK_NOT_SET H)
              || (dr =? DRM_E_TEE_PROVISIONING_REQUIRED H)) eqn:Eboot.
    - (* the secure clock is not set: network bootstrap *)
      assert (Hdr : dr = DRM_E_SECURETIME_CLOCK_NOT_SET H
                    \/ dr = DRM_E_TEE_PROVISIONING_REQUIRED H).
      { apply orb_true_iff in Eboot as [E | E]; apply Z.eqb_eq in E; auto. }
      destruct (@satisfies_after S neutral
                  (fun l => existsb is_bootstrap l = true
                            /\ forallb not_antirollback l = true)
                  Z DRM_RESULT (InitSecureClock H sdk fuel ctx)
                  (fun r => if negb (r =? 0) then ret dr else k)) with (w := w1)
        as (l0 & T0 & B0 & A0).
      + intros l l' [B A] F. rewrite existsb_app, B, forallb_app, A.
        rewrite (neutral_not_antirollback _ F). split; reflexivity.
      + apply InitSecureClock_starts.
      + exact Hexit.
      + exists l0. split; [exact T0 |].
        pose proof (not_antirollback_none _ A0) as A1.
        split; [| split; [| split]].
        * split; auto.
        * split; [congruence |]. intro E. destruct Hdr; congruence.
        * intros c sd Hin. apply antirollback_event_found in Hin. congruence.
        * intro E. destruct Hdr as [E' | E'].
          -- rewrite <- E', E in F1. discriminate.
          -- rewrite <- E', E in F2. discriminate.
    - apply orb_false_iff in Eboot as [E1 E2].
      apply Z.eqb_neq in E1, E2.
      destruct (dr =? DRM_E_CLK_NOT_SUPPORTED H) eqn:Eanti.
      + (* the secure clock is not supported: anti-rollback clock *)
        apply Z.eqb_eq in Eanti.
        unfold bind at 1, call at 1.
        pose proof (wall_clock (outside w1)) as Etv.
        destruct (gettimeofday sdk (outside w1)) as [[sec usec] s2].
        cbn in Etv. inversion Etv. subst sec usec. rewrite broken_down.
        unfold bind at 1, call at 1. cbn [outside self trace].
        destruct (Drm_AntiRollBackClock_Init sdk ctx (systemTime_of t tv_usec) s2)
          as [r s3].
        match goal with
        | |- exists l0, trace (world_of (_ ?w3)) = _ /\ _ =>
            destruct (Hexit r w3) as (l2 & T2 & F2')
        end.
        exists ([Evgettimeofday; EvDrm_AntiRollBackClock_Init ctx (systemTime_of t tv_usec)]
                  ++ l2).
        rewrite T2. cbn [trace]. rewrite <- !app_assoc. split; [reflexivity |].
        pose proof (neutral_no_bootstrap _ F2') as Fb.
        split; [| split; [| split]].
        * cbn. rewrite Fb. split; [discriminate |]. intros [E | E]; congruence.
        * cbn. split; auto.
        * intros c sd Hin. cbn [app] in Hin.
          destruct Hin as [Hin | [Hin | Hin]]; [discriminate | congruence |].
          apply antirollback_event_found in Hin.
          rewrite (not_antirollback_none _ (neutral_not_antirollback _ F2')) in Hin.
          discriminate.
        * intro E. rewrite <- Eanti, E in F3. discriminate.
      + (* the secure clock answered, or failed otherwise *)
        apply Z.eqb_neq in Eanti.
        destruct (Hexit dr w1) as (l2 & T2 & F2').
        exists l2. split; [exact T2 |].
        pose proof (neutral_no_bootstrap _ F2') as Fb.
        pose proof (not_antirollback_none _ (neutral_not_antirollback _ F2')) as Fa.
        split; [| split; [| split]].
        * rewrite Fb. split; [discriminate |]. intros [E | E]; congruence.
        * rewrite Fa. split; [discriminate | congruence].
        * intros c sd Hin. apply antirollback_event_found in Hin. congruence.
        * intros _. split; assumption. }
  destruct Hrest as (l0 & T0 & Q0).
  exists ([EvDrm_SecureTime_GetValue ctx] ++ l0). rewrite T0. subst w1. cbn [trace].
  rewrite <- app_assoc. split; [reflexivity |].
  apply (strategy_chosen_app_neutral H dr _ l0 [EvDrm_SecureTime_GetValue ctx] Q0).
  reflexivity.
Qed.

(** The events of a run of [CreateSystemExt] show the strategy chosen. *)
Lemma CreateSystemExt_strategy_chosen :
  forall (fuel : nat) (w : World S),
  exists l : list Event,
    trace (world_of (CreateSystemExt H sdk fuel w)) = trace w ++ l
    /\ strategy_chosen H dr (systemTime_of t tv_usec) l.
Proof.
  intro fuel.
  change (satisfies (strategy_chosen H dr (systemTime_of t tv_usec))
            (CreateSystemExt H sdk fuel)).
  assert (Hpre : forall l' l, forallb neutral l' = true ->
                   strategy_chosen H dr (systemTime_of t tv_usec) l ->
                   strategy_chosen H dr (systemTime_of t tv_usec) (l' ++ l)).
  { intros l' l F Q. apply (strategy_chosen_app_neutral H dr _ l l' Q F). }
  assert (Hpost : forall l l', strategy_chosen H dr (systemTime_of t tv_usec) l ->
                    forallb neutral l' = true ->
                    strategy_chosen H dr (systemTime_of t tv_usec) (l ++ l')).
  { intros l l' Q F. apply (strategy_chosen_app_neutral H dr _ l l' Q F). }
  unfold CreateSystemExt.
  apply (satisfies_before neutral); [exact Hpre | apply runs_this | intro o].
  apply (satisfies_before neutral); [exact Hpre | apply runs_modify | intros _].
  apply (satisfies_before neutral); [exact Hpre | | intros _].
  { unfold reset_app_context_new.
    apply runs_bind; [apply runs_call; reflexivity | intro p].
    apply runs_bind; [apply runs_this | intro o'].
    apply runs_bind; [| intros _; apply runs_modify].
    destruct (m_poAppContext o'); [apply runs_log; reflexivity | apply runs_ret]. }
  apply (satisfies_before neutral); [exact Hpre | apply runs_call; reflexivity | intro p].
  apply (satisfies_before neutral); [exact Hpre | apply runs_modify | intros _].
  apply (satisfies_before neutral); [exact Hpre | apply runs_this | intro o'].
  apply (satisfies_after neutral); [exact Hpost | |].
  - intro w. unfold bind at 1, call at 1.
    pose proof (opened (m_poAppContext o') (m_drmOemContext o') (m_pbOpaqueBuffer o')
                  (m_cbOpaqueBuffer o') (m_storeLocation o') (outside w)) as Hok.
    destruct (Drm_Initialize sdk (m_poAppContext o') (m_drmOemContext o')
                (m_pbOpaqueBuffer o') (m_cbOpaqueBuffer o') (m_storeLocation o')
                (outside w)) as [dr0 s0].
    cbn in Hok. rewrite Hok.
    match goal with
    | |- exists l, trace (world_of (CreateSystemExt_clock _ _ _ ?k ?w0)) = _ /\ _ =>
        destruct (@CreateSystemExt_clock_chooses fuel k) with (w := w0) as (l0 & T0 & Q0)
    end.
    + emits_auto. apply CreateSystemExt_revocation_emits. emits_auto.
    + eexists (_ :: l0). rewrite T0. cbn [trace]. rewrite <- app_assoc.
      split; [reflexivity |].
      apply (Hpre [_] l0); [reflexivity | exact Q0].
  - intro dr0. destruct (DRM_FAILED dr0).
    + apply emits_bind; [apply reset_app_context_emits | intros _; apply emits_ret].
    + apply emits_ret.
Qed.

End ClockStrategy.


Lemma sample_headers_ok : clock_codes_ok sample_headers.
Proof. repeat split; discriminate. Qed.


(** ** CreateMediaKeySession *)

Section SelfHeal.

Context {S : Type}.
Variable H : SdkHeaders.
Variable sdk : Sdk S.

Lemma petition_loop_emits_any (fuel : nat) :
  forall code url, emits any (petition_loop sdk fuel code url).
Proof.
  induction fuel as [| fuel IH]; intros code url; cbn [petition_loop].
  - emits_auto.
  - emits_auto. apply IH.
Qed.

Lemma CreateSystemExt_emits_any (fuel : nat) : emits any (CreateSystemExt H sdk fuel).
Proof.
  unfold CreateSystemExt, CreateSystemExt_clock, CreateSystemExt_revocation,
    LoadRevocationList, InitSecureClock, SAFE_OEM_FREE, reset_app_context_new,
    reset_app_context.
  emits_auto; apply petition_loop_emits_any.
Qed.

Lemma DeinitializeSystem_runs : runs any (DeinitializeSystem H sdk).
Proof.
  unfold DeinitializeSystem, reset_app_context.
  apply runs_bind; [apply runs_this | intro o].
  apply runs_bind.
  - destruct (m_poAppContext o) as [p |]; [| apply runs_ret].
    apply runs_bind; [apply runs_call; reflexivity | intros _].
    apply runs_bind; [apply runs_call; reflexivity | intros _].
    apply runs_bind; [apply runs_this | intro o'].
    destruct (m_poAppContext o') as [q |]; [| apply runs_ret].
    apply runs_bind; [apply runs_log; reflexivity | intros _; apply runs_modify].
  - intros _. apply runs_bind; [apply runs_this | intro o'].
    apply runs_call. reflexivity.
Qed.

(** A run of [InitializeSystem] creates the store directory, however it
    ends. *)
Lemma InitializeSystem_creates_path (fuel : nat) (w : World S) :
  exists l,
    trace (world_of (InitializeSystem H sdk fuel w)) = trace w ++ l
    /\ In (EvDirectory_CreatePath (m_readDir (self w))) l.
Proof.
  unfold InitializeSystem. rewrite bind_this.
  set (o := self w). clearbody o. revert w.
  apply (@satisfies_before S any
           (fun l => In (EvDirectory_CreatePath (m_readDir o)) l)).
  - intros l' l _ Hin. apply in_or_app. right. exact Hin.
  - destruct (m_poAppContext o); [apply DeinitializeSystem_runs | apply runs_ret].
  - intros _. eapply satisfies_weaken; [| apply (call_then any)].
    + intros l (l' & -> & _). left. reflexivity.
    + intros _. emits_auto. apply CreateSystemExt_emits_any.
Qed.

Lemma CreateMediaKeySession_unfold (fuel : nat) (w : World S) :
  CreateMediaKeySession H sdk fuel w
  = if fst (File_Exists sdk (m_storeLocation (self w)) (outside w))
    then session_allocated sdk (store_checked sdk w)
    else match InitializeSystem H sdk fuel (store_checked sdk w) with
         | Ret _ w1 => session_allocated sdk w1
         | Loops w1 => Loops w1
         | Undef w1 => Undef w1
         end.
Proof.
  unfold CreateMediaKeySession. rewrite bind_this, bind_call.
  fold (store_checked sdk w).
  destruct (fst (File_Exists sdk (m_storeLocation (self w)) (outside w))); cbn [negb].
  - rewrite bind_ret, bind_this, bind_call. reflexivity.
  - unfold bind at 1.
    destruct (InitializeSystem H sdk fuel (store_checked sdk w)) as [u w1 | w1 | w1];
      try reflexivity.
    rewrite bind_this, bind_call. reflexivity.
Qed.

End SelfHeal.

(** C8, as the code has it.  [CreateMediaKeySession] queries the store
    file first.
    - If the file is there, nothing is re-initialised: the session is
      allocated on the members as they are and [CDMi_SUCCESS] is returned.
    - If it is missing, [InitializeSystem] is run (it creates the store
      directory); when that run returns, the session is allocated after it,
      on the members it left, and [CDMi_SUCCESS] is returned, and the call
      returns in no other way. *)
Theorem CreateMediaKeySession_self_heal :
  forall (S : Type) (H : SdkHeaders) (sdk : Sdk S) (fuel : nat) (w : World S),
    (fst (File_Exists sdk (m_storeLocation (self w)) (outside w)) = true ->
     CreateMediaKeySession H sdk fuel w = session_allocated sdk (store_checked sdk w))
    /\ (fst (File_Exists sdk (m_storeLocation (self w)) (outside w)) = false ->
        (exists l,
            trace (world_of (InitializeSystem H sdk fuel (store_checked sdk w)))
            = trace (store_checked sdk w) ++ l
            /\ In (EvDirectory_CreatePath (m_readDir (self w))) l)
        /\ (forall w1,
               InitializeSystem H sdk fuel (store_checked sdk w) = Ret tt w1 ->
               CreateMediaKeySession H sdk fuel w = session_allocated sdk w1)
        /\ (forall r w',
               CreateMediaKeySession H sdk fuel w = Ret r w' ->
               exists w1,
                 InitializeSystem H sdk fuel (store_checked sdk w) = Ret tt w1
                 /\ session_allocated sdk w1 = Ret r w')).
Proof.
  intros S H sdk fuel w. rewrite CreateMediaKeySession_unfold. split; intro E; rewrite E.
  - reflexivity.
  - split; [| split].
    + apply (InitializeSystem_creates_path H sdk fuel (store_checked sdk w)).
    + intros w1 ->. reflexivity.
    + intros r w'.
      destruct (InitializeSystem H sdk fuel (store_checked sdk w)) as [[] w1 | w1 | w1];
        try discriminate.
      intro R. exists w1. split; [reflexivity | exact R].
Qed.

Lemma CreateMediaKeySession_self_heal_witness :
  CreateMediaKeySession sample_headers (scripted all_well no_redirect no_payload) 1
    (start (Some 77))
  = Ret (CDMi_SUCCESS, 8192)
      (mkWorld O (sample_object (Some 77))
         [EvFile_Exists "/persist/playready/drmstore";
          EvNew_MediaKeySession (Some 512) (Some 77)])
  /\ exists w1,
      InitializeSystem sample_headers (scripted store_gone no_redirect no_payload) 1
        (store_checked (scripted store_gone no_redirect no_payload) (start (Some 77)))
      = Ret tt w1
      /\ m_poAppContext (self w1) = Some 4096
      /\ CreateMediaKeySession sample_headers (scripted store_gone no_redirect no_payload) 1
           (start (Some 77))
         = Ret (CDMi_SUCCESS, 8192)
             (mkWorld O (self w1)
                (trace w1 ++ [EvNew_MediaKeySession (Some 512) (Some 4096)])).
Proof.
  split.
  - exact (proj1 (CreateMediaKeySession_self_heal nat sample_headers
                    (scripted all_well no_redirect no_payload) 1%nat (start (Some 77)))
             eq_refl).
  - eexists. split; [vm_compute; reflexivity |]. split; [reflexivity |].
    refine (eq_trans
              (proj1 (proj2 (proj2 (CreateMediaKeySession_self_heal nat sample_headers
                                      (scripted store_gone no_redirect no_payload) 1%nat
                                      (start (Some 77)))
                               eq_refl)) _ _) _).
    + vm_compute. reflexivity.
    + reflexivity.
Defined.

Lemma store_gone_goes_well : bootstrap_goes_well store_gone_clock_unset.
Proof. repeat split. Qed.

(** C8 as stated fails: with the store file gone, the clock not set and a
    time authority that redirects without end, [CreateMediaKeySession]
    never returns, so it does not return success. *)
Lemma CreateMediaKeySession_may_not_return :
  fst (File_Exists (scripted store_gone_clock_unset always_302 no_payload)
         (m_storeLocation (self (start (Some 77)))) (outside (start (Some 77)))) = false
  /\ ~ exists (fuel : nat) (r : CDMi_RESULT * ptr) (w : World nat),
         CreateMediaKeySession sample_headers
           (scripted store_gone_clock_unset always_302 no_payload) fuel (start (Some 77))
         = Ret r w.
Proof.
  split; [reflexivity |].
  intros (fuel & r & w & E).
  lazy -[InitSecureClock] in E.
  pose proof (InitSecureClock_always_302 store_gone_clock_unset no_payload fuel
                (Some 4096) before_bootstrap store_gone_goes_well) as L.
  match type of L with
  | _ = ?rhs =>
      match type of E with
      | context [InitSecureClock ?h ?s ?f ?c ?w0] =>
          replace (InitSecureClock h s f c w0) with rhs in E by (symmetry; exact L)
      end
  end.
  discriminate E.
Qed.

(** ** GetSecureStopIds *)

Lemma len_app {A : Type} (l1 l2 : list A) : len (l1 ++ l2) = len l1 + len l2.
Proof. unfold len. rewrite length_app. lia. Qed.

Lemma len_nonneg {A : Type} (l : list A) : 0 <= len l.
Proof. unfold len. lia. Qed.

Lemma len_firstn {A : Type} (n : Z) (l : list A) :
  0 <= n <= len l -> len (firstn (Z.to_nat n) l) = n.
Proof. unfold len. intro Hn. rewrite length_firstn. lia. Qed.

Lemma len_skipn {A : Type} (n : Z) (l : list A) :
  0 <= n <= len l -> len (skipn (Z.to_nat n) l) = len l - n.
Proof. unfold len. intro Hn. rewrite length_skipn. lia. Qed.

(** [memcpy] inside the bounds: the bytes before [off] and from [off + n]
    on stay, the [n] bytes between are those of [src]. *)
Lemma memcpy_in_bounds {A : Type} (dst src : list A) (off : Z) :
  0 <= off -> off + len src <= len dst ->
  memcpy dst off src (len src)
  = Some (firstn (Z.to_nat off) dst ++ src ++ skipn (Z.to_nat (off + len src)) dst).
Proof.
  intros Hoff Hfit. unfold memcpy.
  pose proof (len_nonneg src) as Hsrc.
  replace ((0 <=? off) && (0 <=? len src) && (off + len src <=? len dst)
           && (len src <=? len src)) with true.
  - unfold len at 1. rewrite Nat2Z.id, firstn_all. reflexivity.
  - symmetry. rewrite !andb_true_iff. repeat split; apply Z.leb_le; lia.
Qed.

Lemma memcpy_past_the_end {A : Type} (dst src : list A) (off n : Z) :
  len dst < off + n -> memcpy dst off src n = None.
Proof.
  intro Hpast. unfold memcpy.
  replace (off + n <=? len dst) with false by (symmetry; apply Z.leb_gt; lia).
  rewrite andb_false_r. reflexivity.
Qed.

Lemma memcpy_len {A : Type} (dst src dst' : list A) (off n : Z) :
  memcpy dst off src n = Some dst' -> len dst' = len dst.
Proof.
  unfold memcpy.
  destruct ((0 <=? off) && (0 <=? n) && (off + n <=? len dst) && (n <=? len src))
    eqn:E; [| discriminate].
  rewrite !andb_true_iff in E. destruct E as [[[E1 E2] E3] E4].
  apply Z.leb_le in E1, E2, E3, E4.
  intro R. inversion R. subst dst'.
  rewrite !len_app, len_firstn, len_firstn, len_skipn by lia. lia.
Qed.

Lemma skipn_nth_error {A : Type} (l : list A) (j : nat) (x : A) :
  nth_error l j = Some x -> skipn j l = x :: skipn (Datatypes.S j) l.
Proof.
  revert j. induction l as [| y l IH]; intros [| j] E; try discriminate.
  - inversion E. reflexivity.
  - cbn in E. cbn [skipn]. rewrite (IH j E). reflexivity.
Qed.

Lemma to_u32_small (x : Z) : 0 <= x < 2 ^ 32 -> to_u32 x = x.
Proof. intro Hx. unfold to_u32. apply Z.mod_small, Hx. Qed.

Lemma two_32 : 2 ^ 32 = 4294967296.
Proof. reflexivity. Qed.

(** The copy loop from entry [j] on, when all of it fits in [ids]. *)
Lemma copy_ids_in_bounds (a : list (list byte)) :
  Forall (fun rgb => len rgb = DRM_ID_SIZE) a ->
  forall (n j : nat) (ids : list byte),
    (j + n = List.length a)%nat ->
    Z.of_nat (j + n) * DRM_ID_SIZE <= len ids ->
    Z.of_nat (j + n) * DRM_ID_SIZE < 2 ^ 32 ->
    copy_ids n (Z.of_nat j) a ids
    = Some (firstn (16 * j) ids ++ List.concat (skipn j a) ++ skipn (16 * (j + n)) ids).
Proof.
  intro Hrgb. unfold DRM_ID_SIZE in *. rewrite two_32.
  induction n as [| n IH]; intros j ids Hlen Hfit Hsmall.
  - cbn [copy_ids]. rewrite Nat.add_0_r in *. subst j.
    rewrite skipn_all. cbn [List.concat app]. rewrite firstn_skipn. reflexivity.
  - cbn [copy_ids]. change DRM_ID_SIZE with 16. rewrite Nat2Z.id.
    destruct (nth_error a j) as [rgb |] eqn:Enth.
    2:{ apply nth_error_None in Enth. exfalso. lia. }
    assert (Hlen_rgb : len rgb = 16).
    { rewrite Forall_forall in Hrgb. apply Hrgb. eapply nth_error_In, Enth. }
    rewrite to_u32_small by (rewrite two_32; lia).
    pose proof (@memcpy_in_bounds byte ids rgb (Z.of_nat j * 16)) as Hcpy.
    rewrite Hlen_rgb in Hcpy. rewrite Hcpy by lia. clear Hcpy.
    replace (Z.of_nat j + 1) with (Z.of_nat (Datatypes.S j)) by lia.
    replace (Z.to_nat (Z.of_nat j * 16)) with (16 * j)%nat by lia.
    replace (Z.to_nat (Z.of_nat j * 16 + 16)) with (16 * j + 16)%nat by lia.
    assert (Hj : (16 * j + 16 <= List.length ids)%nat) by (unfold len in Hfit; lia).
    assert (Hr : List.length rgb = 16%nat) by (unfold len in Hlen_rgb; lia).
    rewrite IH.
    + rewrite (skipn_nth_error _ _ _ Enth). cbn [List.concat].
      f_equal.
      rewrite firstn_app, length_firstn, Nat.min_l by lia.
      rewrite firstn_all2 by (rewrite length_firstn; lia).
      replace (16 * Datatypes.S j - 16 * j)%nat with 16%nat by lia.
      rewrite firstn_app, Hr, Nat.sub_diag, firstn_O, app_nil_r.
      rewrite (@firstn_all2 _ 16%nat rgb) by lia.
      rewrite <- !app_assoc. f_equal. f_equal. f_equal.
      rewrite skipn_app, length_firstn, Nat.min_l by lia.
      rewrite (skipn_all2 (firstn (16 * j) ids)) by (rewrite length_firstn; lia).
      cbn [app].
      rewrite skipn_app, Hr.
      rewrite (skipn_all2 rgb) by lia. cbn [app].
      rewrite skipn_skipn. f_equal. lia.
    + lia.
    + rewrite !len_app in *. unfold len in *.
      rewrite length_firstn, length_skipn, Nat.min_l by lia. lia.
    + lia.
Qed.

(** The copy loop when some entry from [j] on does not fit in [ids]. *)
Lemma copy_ids_out_of_bounds (a : list (list byte)) :
  Forall (fun rgb => len rgb = DRM_ID_SIZE) a ->
  forall (n j : nat) (ids : list byte),
    (0 < n)%nat ->
    (j + n = List.length a)%nat ->
    len ids < Z.of_nat (j + n) * DRM_ID_SIZE ->
    Z.of_nat (j + n) * DRM_ID_SIZE < 2 ^ 32 ->
    copy_ids n (Z.of_nat j) a ids = None.
Proof.
  intro Hrgb. unfold DRM_ID_SIZE in *. rewrite two_32.
  induction n as [| n IH]; intros j ids Hpos Hlen Hpast Hsmall; [lia |].
  cbn [copy_ids]. change DRM_ID_SIZE with 16. rewrite Nat2Z.id.
  destruct (nth_error a j) as [rgb |] eqn:Enth; [| reflexivity].
  rewrite to_u32_small by (rewrite two_32; lia).
  destruct (memcpy ids (Z.of_nat j * 16) rgb 16) as [ids' |] eqn:Ecpy;
    [| reflexivity].
  pose proof (memcpy_len _ _ _ _ _ Ecpy) as Hsame.
  replace (Z.of_nat j + 1) with (Z.of_nat (Datatypes.S j)) by lia.
  destruct n as [| n].
  - exfalso. unfold memcpy in Ecpy.
    replace (Z.of_nat j * 16 + 16 <=? len ids) with false in Ecpy.
    + rewrite andb_false_r in Ecpy. discriminate.
    + symmetry. apply Z.leb_gt. lia.
  - apply IH; try lia.
Qed.

(** C9.  Take a call of [GetSecureStopIds] whose enumeration succeeds
    ([DRM_SUCCESS] or [DRM_E_NOMORE]) with [count] entries of 16 bytes,
    [count] at most the capacity of the ledger.  Then
    - the run is the same for every value of [idsLength];
    - if the buffer [ids] holds [count * 16] bytes or more, the call
      returns [CDMi_SUCCESS] and [ids] starts with the [count] entries, its
      other bytes unchanged;
    - if the buffer is shorter, the copy writes past its end: no test in
      the method prevents it. *)
Theorem GetSecureStopIds_ignores_idsLength :
  forall (S : Type) (H : SdkHeaders) (sdk : Sdk S) (ids : list byte) (idsLength : Z)
         (w : World S) (dr : DRM_RESULT) (count : Z) (a : list (list byte)) (s1 : S),
    Drm_SecureStop_EnumerateSessions sdk (m_poAppContext (self w))
      (m_meteringCertificateSize (self w)) (m_meteringCertificate (self w)) (outside w)
    = (dr, count, Some a, s1) ->
    dr = DRM_SUCCESS \/ dr = DRM_E_NOMORE H ->
    count = len a ->
    count <= NONCE_STORE_SIZE ->
    Forall (fun rgb => len rgb = DRM_ID_SIZE) a ->
    let w1 := mkWorld s1 (self w)
                (trace w ++ [EvDrm_SecureStop_EnumerateSessions (m_poAppContext (self w))]) in
    (forall idsLength' : Z,
        GetSecureStopIds H sdk ids idsLength' w = GetSecureStopIds H sdk ids idsLength w)
    /\ (count * DRM_ID_SIZE <= len ids ->
        GetSecureStopIds H sdk ids idsLength w
        = Ret (CDMi_SUCCESS,
               List.concat a ++ skipn (Z.to_nat (count * DRM_ID_SIZE)) ids,
               count)
            (mkWorld s1 (self w) (trace w1 ++ [EvOem_MemFree])))
    /\ (len ids < count * DRM_ID_SIZE ->
        GetSecureStopIds H sdk ids idsLength w = Undef w1).
Proof.
  intros S H sdk ids idsLength w dr count a s1 Henum Hdr Hcount Hcap Hrgb w1.
  assert (Hguard : negb (dr =? DRM_SUCCESS) && negb (dr =? DRM_E_NOMORE H) = false).
  { destruct Hdr as [-> | ->]; rewrite Z.eqb_refl; cbn; [reflexivity |].
    apply andb_false_r. }
  assert (Hrun : GetSecureStopIds H sdk ids idsLength w
                 = bind (if count <=? 0 then ret (CDMi_SUCCESS, ids)
                         else match copy_ids (Z.to_nat count) 0 a ids with
                              | None => undef
                              | Some ids' => ret (CDMi_SUCCESS, ids')
                              end)
                     (fun r => let (cr, ids') := r in
                               SAFE_OEM_FREE (Some a) ;;; ret (cr, ids', count)) w1).
  { unfold GetSecureStopIds. rewrite bind_this, bind_call, Henum. cbn [fst snd].
    rewrite Hguard. reflexivity. }
  pose proof (len_nonneg a) as Hnonneg.
  unfold NONCE_STORE_SIZE in Hcap.
  split; [reflexivity |]. split.
  - intro Hfit. rewrite Hrun. unfold DRM_ID_SIZE in Hfit.
    destruct (count <=? 0) eqn:Ezero.
    + apply Z.leb_le in Ezero. assert (count = 0) by lia. subst count.
      destruct a as [| rgb a]; [| unfold len in *; cbn in *; lia].
      reflexivity.
    + apply Z.leb_gt in Ezero.
      pose proof (@copy_ids_in_bounds a Hrgb (Z.to_nat count) O ids) as Hcopy.
      cbn [Z.of_nat Nat.add] in Hcopy.
      replace (16 * 0)%nat with O in Hcopy by reflexivity.
      replace (16 * Z.to_nat count)%nat with (Z.to_nat (count * 16)) in Hcopy by lia.
      cbn [firstn skipn app] in Hcopy. rewrite Hcopy.
      * reflexivity.
      * unfold len in Hcount. lia.
      * unfold DRM_ID_SIZE. lia.
      * unfold DRM_ID_SIZE. rewrite two_32. lia.
  - intro Hpast. rewrite Hrun. unfold DRM_ID_SIZE in Hpast.
    pose proof (len_nonneg ids) as Hids.
    destruct (count <=? 0) eqn:Ezero; [apply Z.leb_le in Ezero; lia |].
    apply Z.leb_gt in Ezero.
    pose proof (@copy_ids_out_of_bounds a Hrgb (Z.to_nat count) O ids) as Hcopy.
    cbn [Z.of_nat Nat.add] in Hcopy. rewrite Hcopy.
    + reflexivity.
    + lia.
    + unfold len in Hcount. lia.
    + unfold DRM_ID_SIZE. lia.
    + unfold DRM_ID_SIZE. rewrite two_32. lia.
Qed.

Lemma two_pending_ids :
  Forall (fun rgb : list byte => len rgb = DRM_ID_SIZE) (pl_sessions two_pending).
Proof. repeat constructor. Qed.

Lemma GetSecureStopIds_ignores_idsLength_witness :
  GetSecureStopIds sample_headers (scripted all_well no_redirect two_pending)
    (repeat x00 40) 0 (start (Some 4096))
  = Ret (CDMi_SUCCESS, session16 ++ session16' ++ repeat x00 8, 2)
      (mkWorld O (sample_object (Some 4096))
         [EvDrm_SecureStop_EnumerateSessions (Some 4096); EvOem_MemFree])
  /\ GetSecureStopIds sample_headers (scripted all_well no_redirect two_pending)
       (repeat x00 20) 65535 (start (Some 4096))
     = Undef (mkWorld O (sample_object (Some 4096))
                [EvDrm_SecureStop_EnumerateSessions (Some 4096)]).
Proof.
  split.
  - refine (proj1 (proj2 (GetSecureStopIds_ignores_idsLength nat sample_headers
                            (scripted all_well no_redirect two_pending) (repeat x00 40) 0
                            (start (Some 4096)) DRM_SUCCESS 2
                            (pl_sessions two_pending) O eq_refl (or_introl eq_refl)
                            eq_refl _ two_pending_ids)) _).
    + discriminate.
    + discriminate.
  - refine (proj2 (proj2 (GetSecureStopIds_ignores_idsLength nat sample_headers
                            (scripted all_well no_redirect two_pending) (repeat x00 20)
                            65535 (start (Some 4096)) DRM_SUCCESS 2
                            (pl_sessions two_pending) O eq_refl (or_introl eq_refl)
                            eq_refl _ two_pending_ids)) _).
    + discriminate.
    + reflexivity.
Defined.

(** ** GetSecureStop *)

Lemma to_u16_small (x : Z) : 0 <= x < 2 ^ 16 -> to_u16 x = x.
Proof. intro Hx. unfold to_u16. apply Z.mod_small, Hx. Qed.

(** C10, as the code has it.  Take a call of [GetSecureStop] whose
    challenge generation answers [DRM_SUCCESS] with a challenge of [size]
    bytes.
    - If [rawData] is null or [rawSize] is smaller than [size], nothing is
      copied, the call returns [CDMi_SUCCESS] and [rawSize] becomes [size]
      cut to 16 bits.
    - If [rawData] is a buffer of at least [rawSize] bytes and [rawSize] is
      at least [size], the challenge is copied to its start, and [rawSize]
      becomes [size] cut to 16 bits.
    - Cut to 16 bits, a [size] below 65536 is [size] itself. *)
Theorem GetSecureStop_size_query :
  forall (S : Type) (sdk : Sdk S) (sessionID : list byte) (sessionIDLength : Z)
         (rawData : option (list byte)) (rawSize : Z) (w : World S)
         (id : list cell) (size : Z) (chal : list byte) (s1 : S),
    memcpy fresh_DRM_ID 0 (map Some sessionID) sessionIDLength = Some id ->
    Drm_SecureStop_GenerateChallenge sdk (m_poAppContext (self w)) id
      (m_meteringCertificateSize (self w)) (m_meteringCertificate (self w)) (outside w)
    = (DRM_SUCCESS, size, chal, s1) ->
    let w1 := mkWorld s1 (self w)
                (trace w ++ [EvDrm_SecureStop_GenerateChallenge
                               (m_poAppContext (self w)) id]) in
    (rawData = None \/ rawSize < size ->
     GetSecureStop sdk sessionID sessionIDLength rawData rawSize w
     = Ret (CDMi_SUCCESS, rawData, to_u16 size) w1)
    /\ (forall buf : list byte,
           rawData = Some buf -> size <= rawSize -> rawSize <= len buf ->
           size = len chal ->
           GetSecureStop sdk sessionID sessionIDLength rawData rawSize w
           = Ret (CDMi_SUCCESS, Some (chal ++ skipn (Z.to_nat size) buf), to_u16 size) w1)
    /\ (0 <= size < 2 ^ 16 -> to_u16 size = size).
Proof.
  intros S sdk sid n rawData rawSize w id size chal s1 Hid Hgen w1.
  assert (Hrun : GetSecureStop sdk sid n rawData rawSize w
                 = match rawData with
                   | Some buf =>
                       if rawSize >=? size then
                         match memcpy buf 0 chal size with
                         | None => undef
                         | Some buf' => ret (CDMi_SUCCESS, Some buf', to_u16 size)
                         end
                       else ret (CDMi_SUCCESS, rawData, to_u16 size)
                   | None => ret (CDMi_SUCCESS, rawData, to_u16 size)
                   end w1).
  { unfold GetSecureStop. rewrite Hid, bind_this, bind_call, Hgen. reflexivity. }
  split; [| split].
  - intros [-> | Hsmall]; rewrite Hrun; [reflexivity |].
    destruct rawData as [buf |]; [| reflexivity].
    replace (rawSize >=? size) with false; [reflexivity |].
    symmetry. rewrite Z.geb_leb. apply Z.leb_gt. lia.
  - intros buf -> Hle Hbuf Hsize. rewrite Hrun.
    replace (rawSize >=? size) with true
      by (symmetry; rewrite Z.geb_leb; apply Z.leb_le; lia).
    subst size. rewrite memcpy_in_bounds by lia. reflexivity.
  - apply to_u16_small.
Qed.

Lemma GetSecureStop_size_query_witness :
  GetSecureStop (scripted all_well no_redirect small_challenge) session16 16 None 0
    (start (Some 4096))
  = Ret (CDMi_SUCCESS, None, 3)
      (mkWorld O (sample_object (Some 4096))
         [EvDrm_SecureStop_GenerateChallenge (Some 4096) (map Some session16)])
  /\ GetSecureStop (scripted all_well no_redirect small_challenge) session16 16
       (Some (repeat x00 5)) 5 (start (Some 4096))
     = Ret (CDMi_SUCCESS, Some [x0a; x0b; x0c; x00; x00], 3)
         (mkWorld O (sample_object (Some 4096))
            [EvDrm_SecureStop_GenerateChallenge (Some 4096) (map Some session16)]).
Proof.
  split.
  - exact (proj1 (GetSecureStop_size_query nat
                    (scripted all_well no_redirect small_challenge) session16 16 None 0
                    (start (Some 4096)) (map Some session16) 3 [x0a; x0b; x0c] O
                    eq_refl eq_refl)
             (or_introl eq_refl)).
  - refine (proj1 (proj2 (GetSecureStop_size_query nat
                            (scripted all_well no_redirect small_challenge) session16 16
                            (Some (repeat x00 5)) 5
                            (start (Some 4096)) (map Some session16) 3 [x0a; x0b; x0c] O
                            eq_refl eq_refl))
              (repeat x00 5) eq_refl _ _ eq_refl).
    + discriminate.
    + discriminate.
Defined.

(** C10 as stated fails: asked for the size of a challenge of 70000 bytes
    (null buffer), the call returns success with [rawSize] = 4464, which is
    not the size of the challenge. *)
Lemma GetSecureStop_size_is_truncated :
  exists w,
    GetSecureStop (scripted all_well no_redirect large_challenge) session16 16 None 0
      (start (Some 4096))
    = Ret (CDMi_SUCCESS, None, 4464) w
    /\ 4464 <> pl_challengeSize large_challenge.
Proof.
  eexists. split; [| discriminate].
  unfold GetSecureStop. cbn [memcpy]. 
  replace (memcpy fresh_DRM_ID 0 (map Some session16) 16) with (Some (map Some session16))
    by reflexivity.
  rewrite bind_this, bind_call. reflexivity.
Qed.

(** * Further properties *)

(** ** Relations between the world before and after a run *)

Lemma bind_quiet {S A B : Type} (f : S -> A * S) (k : A -> M S B) (w : World S) :
  bind (quiet f) k w
  = k (fst (f (outside w))) (mkWorld (snd (f (outside w))) (self w) (trace w)).
Proof. unfold bind, quiet. destruct (f (outside w)). reflexivity. Qed.

Section Relates.

Context {S : Type}.
Variable R : World S -> World S -> Prop.
Hypothesis R_refl : forall w, R w w.
Hypothesis R_trans : forall w1 w2 w3, R w1 w2 -> R w2 w3 -> R w1 w3.

Lemma relates_ret {A : Type} (a : A) : relates R (@ret S A a).
Proof. intros w a' w' E. inversion E. subst. apply R_refl. Qed.

Lemma relates_loops {A : Type} : relates R (@loops S A).
Proof. intros w a w' E. discriminate E. Qed.

Lemma relates_undef {A : Type} : relates R (@undef S A).
Proof. intros w a w' E. discriminate E. Qed.

Lemma relates_this : relates R (@this S).
Proof. intros w a w' E. inversion E. subst. apply R_refl. Qed.

Lemma relates_peek {A : Type} (f : S -> A) : relates R (peek f).
Proof. intros w a w' E. inversion E. subst. apply R_refl. Qed.

Lemma relates_log (e : Event) :
  (forall w, R w (mkWorld (outside w) (self w) (trace w ++ [e]))) ->
  relates R (@log S e).
Proof. intros He w a w' E. inversion E. apply He. Qed.

Lemma relates_call {A : Type} (e : Event) (f : S -> A * S) :
  (forall w s, R w (mkWorld s (self w) (trace w ++ [e]))) ->
  relates R (call e f).
Proof.
  intros He w a w'. unfold call. destruct (f (outside w)) as [a' s].
  intro E. inversion E. apply He.
Qed.

Lemma relates_quiet {A : Type} (f : S -> A * S) :
  (forall w s, R w (mkWorld s (self w) (trace w))) ->
  relates R (quiet f).
Proof.
  intros He w a w'. unfold quiet. destruct (f (outside w)) as [a' s].
  intro E. inversion E. apply He.
Qed.

Lemma relates_modify (f : PlayReady -> PlayReady) :
  (forall w, R w (mkWorld (outside w) (f (self w)) (trace w))) ->
  relates R (@modify S f).
Proof. intros Hf w a w' E. inversion E. apply Hf. Qed.

Lemma relates_bind {A B : Type} (c : M S A) (k : A -> M S B) :
  relates R c -> (forall a, relates R (k a)) -> relates R (bind c k).
Proof.
  intros Hc Hk w b w' E. apply bind_Ret in E as (a & w1 & E1 & E2).
  exact (R_trans _ _ _ (Hc w a w1 E1) (Hk a w1 b w' E2)).
Qed.

End Relates.

Lemma same_member_refl {S X : Type} (f : PlayReady -> X) (w : World S) :
  same_member f w w.
Proof. reflexivity. Qed.

Lemma same_member_trans {S X : Type} (f : PlayReady -> X) (w1 w2 w3 : World S) :
  same_member f w1 w2 -> same_member f w2 w3 -> same_member f w1 w3.
Proof. unfold same_member. congruence. Qed.

(** One step of a proof of [keeps_member f c], by the structure of [c];
    a [modify g] leaves the goal [f (g o) = f o]. *)
Ltac member_step :=
  lazymatch goal with
  | |- keeps_member _ _ => unfold keeps_member
  | |- relates _ (bind _ _) =>
      apply relates_bind; [exact (same_member_trans _) | | intro]
  | |- relates _ (ret _) => apply relates_ret; exact (same_member_refl _)
  | |- relates _ loops => apply relates_loops
  | |- relates _ undef => apply relates_undef
  | |- relates _ this => apply relates_this; exact (same_member_refl _)
  | |- relates _ (peek _) => apply relates_peek; exact (same_member_refl _)
  | |- relates _ (log _) => apply relates_log; intro; reflexivity
  | |- relates _ (call _ _) => apply relates_call; intros; reflexivity
  | |- relates _ (quiet _) => apply relates_quiet; intros; reflexivity
  | |- relates _ (modify _) => apply relates_modify; intro; reflexivity
  | |- relates _ (if ?b then _ else _) => destruct b
  | |- relates _ (match ?x with _ => _ end) => destruct x
  end.

Ltac member_auto := repeat member_step.

Section MembersOfMethods.

Context {S : Type}.
Variable H : SdkHeaders.
Variable sdk : Sdk S.
Variable host : Host S.

(** Secure stops and the store: nothing of the object is written. *)

Lemma GetSecureStopIds_reads (ids : list byte) (idsLength : Z) :
  keeps_member every_member (GetSecureStopIds H sdk ids idsLength).
Proof. unfold GetSecureStopIds, SAFE_OEM_FREE. member_auto. Qed.

Lemma GetSecureStop_reads (sid : list byte) (n : Z) (rawData : option (list byte))
  (rawSize : Z) :
  keeps_member every_member (GetSecureStop sdk sid n rawData rawSize).
Proof. unfold GetSecureStop. member_auto. Qed.

Lemma CommitSecureStop_reads (sid : list byte) (n : Z) (resp : list byte) (m : Z) :
  keeps_member every_member (CommitSecureStop sdk sid n resp m).
Proof. unfold CommitSecureStop, SAFE_OEM_FREE. cbv zeta. member_auto. Qed.

Lemma GetSecureStoreHash_reads (hash : list byte) (n : Z) :
  keeps_member every_member (GetSecureStoreHash host hash n).
Proof. unfold GetSecureStoreHash, calcFileSha256. member_auto. Qed.

Lemma DeleteSecureStore_reads : keeps_member every_member (DeleteSecureStore host).
Proof. unfold DeleteSecureStore. member_auto. Qed.

(** Set-up and tear-down: the configuration is not written. *)

Lemma petition_loop_configuration (fuel : nat) :
  forall code url, keeps_member configuration (petition_loop sdk fuel code url).
Proof.
  induction fuel as [| fuel IH]; intros code url; cbn [petition_loop].
  - member_auto.
  - member_auto. apply IH.
Qed.

Lemma InitSecureClock_configuration (fuel : nat) (ctx : option ptr) :
  keeps_member configuration (InitSecureClock H sdk fuel ctx).
Proof.
  unfold InitSecureClock, SAFE_OEM_FREE. member_auto; apply petition_loop_configuration.
Qed.

Lemma DeinitializeSystem_configuration :
  keeps_member configuration (DeinitializeSystem H sdk).
Proof. unfold DeinitializeSystem, reset_app_context. member_auto. Qed.

Lemma CreateSystemExt_configuration (fuel : nat) :
  keeps_member configuration (CreateSystemExt H sdk fuel).
Proof.
  unfold CreateSystemExt, CreateSystemExt_clock, CreateSystemExt_revocation,
    LoadRevocationList, reset_app_context_new, reset_app_context.
  member_auto; apply InitSecureClock_configuration.
Qed.

Lemma InitializeSystem_configuration (fuel : nat) :
  keeps_member configuration (InitializeSystem H sdk fuel).
Proof.
  unfold InitializeSystem. member_auto;
    try apply DeinitializeSystem_configuration; apply CreateSystemExt_configuration.
Qed.

Lemma CreateMediaKeySession_configuration (fuel : nat) :
  keeps_member configuration (CreateMediaKeySession H sdk fuel).
Proof.
  unfold CreateMediaKeySession. member_auto. apply InitializeSystem_configuration.
Qed.

End MembersOfMethods.

(** X1.  The methods that query or commit secure stops, hash the secure
    store or delete it never write to the object: a call that returns
    leaves every member as it was. *)
Theorem queries_leave_the_object :
  forall (S : Type) (H : SdkHeaders) (sdk : Sdk S) (host : Host S),
    (forall ids idsLength,
        keeps_member every_member (GetSecureStopIds H sdk ids idsLength))
    /\ (forall sessionID sessionIDLength rawData rawSize,
        keeps_member every_member
          (GetSecureStop sdk sessionID sessionIDLength rawData rawSize))
    /\ (forall sessionID sessionIDLength serverResponse serverResponseLength,
        keeps_member every_member
          (CommitSecureStop sdk sessionID sessionIDLength serverResponse
             serverResponseLength))
    /\ (forall secureStoreHash secureStoreHashLength,
        keeps_member every_member
          (GetSecureStoreHash host secureStoreHash secureStoreHashLength))
    /\ keeps_member every_member (DeleteSecureStore host).
Proof.
  intros S H sdk host. repeat split; intros.
  - apply GetSecureStopIds_reads.
  - apply GetSecureStop_reads.
  - apply CommitSecureStop_reads.
  - apply GetSecureStoreHash_reads.
  - apply DeleteSecureStore_reads.
Qed.

(** X2.  The paths and the metering certificate are written by
    [Initialize] only: a call of [Deinitialize], [InitializeSystem],
    [CreateSystemExt] or [CreateMediaKeySession] that returns leaves
    [m_readDir], [m_storeLocation], [m_meteringCertificate] and
    [m_meteringCertificateSize] as they were, whatever the SDK answers and
    whether or not the system is set up again on the way. *)
Theorem configuration_is_stable :
  forall (S : Type) (H : SdkHeaders) (sdk : Sdk S) (fuel : nat),
    keeps_member configuration (Deinitialize H sdk)
    /\ keeps_member configuration (InitializeSystem H sdk fuel)
    /\ keeps_member configuration (CreateSystemExt H sdk fuel)
    /\ keeps_member configuration (CreateMediaKeySession H sdk fuel).
Proof.
  intros S H sdk fuel. repeat split.
  - apply DeinitializeSystem_configuration.
  - apply InitializeSystem_configuration.
  - apply CreateSystemExt_configuration.
  - apply CreateMediaKeySession_configuration.
Qed.

(** ** The app context is neither leaked nor released twice *)

Lemma count_app (p : Event -> bool) (l l' : list Event) :
  count p (l ++ l') = (count p l + count p l')%nat.
Proof. unfold count. rewrite filter_app, length_app. reflexivity. Qed.

Lemma context_balance_refl {S : Type} (w : World S) : context_balance w w.
Proof. exists []. rewrite app_nil_r. split; reflexivity. Qed.

Lemma context_balance_trans {S : Type} (w1 w2 w3 : World S) :
  context_balance w1 w2 -> context_balance w2 w3 -> context_balance w1 w3.
Proof.
  intros (l & T & B) (l' & T' & B'). exists (l ++ l').
  rewrite T', T, app_assoc, !count_app. split; [reflexivity | lia].
Qed.

Lemma context_balance_event {S : Type} (e : Event) (w : World S) (s : S) :
  is_new e = false -> is_delete e = false ->
  context_balance w (mkWorld s (self w) (trace w ++ [e])).
Proof.
  intros Hn Hd. exists [e]. split; [reflexivity |].
  unfold count. cbn [filter]. rewrite Hn, Hd. reflexivity.
Qed.

Lemma context_balance_member {S : Type} (f : PlayReady -> PlayReady) (w : World S) (s : S) :
  m_poAppContext (f (self w)) = m_poAppContext (self w) ->
  context_balance w (mkWorld s (f (self w)) (trace w)).
Proof.
  intro Hf. exists []. cbn [trace self]. rewrite app_nil_r. split; [reflexivity |].
  unfold live. rewrite Hf. reflexivity.
Qed.

Ltac balance_step :=
  lazymatch goal with
  | |- relates _ (bind _ _) =>
      apply relates_bind; [exact context_balance_trans | | intro]
  | |- relates _ (ret _) => apply relates_ret; exact context_balance_refl
  | |- relates _ loops => apply relates_loops
  | |- relates _ undef => apply relates_undef
  | |- relates _ this => apply relates_this; exact context_balance_refl
  | |- relates _ (peek _) => apply relates_peek; exact context_balance_refl
  | |- relates _ (log _) =>
      apply relates_log; intro; apply context_balance_event; reflexivity
  | |- relates _ (call _ _) =>
      apply relates_call; intros; apply context_balance_event; reflexivity
  | |- relates _ (quiet _) =>
      apply relates_quiet; intros;
      apply (context_balance_member (fun o => o)); reflexivity
  | |- relates _ (modify ?f) =>
      apply relates_modify; intro; apply (context_balance_member f); reflexivity
  | |- relates _ (if ?b then _ else _) => destruct b
  | |- relates _ (match ?x with _ => _ end) => destruct x
  end.

Ltac balance_auto := repeat balance_step.

Section BalanceOfMethods.

Context {S : Type}.
Variable H : SdkHeaders.
Variable sdk : Sdk S.

Lemma reset_app_context_balance : relates context_balance (@reset_app_context S).
Proof.
  intros w u w'. unfold reset_app_context. rewrite bind_this.
  destruct (m_poAppContext (self w)) as [p |] eqn:E.
  - cbn. intro R. inversion R. exists [EvDelete_DRM_APP_CONTEXT p].
    split; [reflexivity |]. unfold live. cbn. rewrite E. reflexivity.
  - intro R. inversion R. subst. apply context_balance_refl.
Qed.

Lemma reset_app_context_new_balance :
  relates context_balance (reset_app_context_new sdk).
Proof.
  intros w u w'. unfold reset_app_context_new. rewrite bind_call, bind_this.
  cbn [self]. destruct (m_poAppContext (self w)) as [q |] eqn:E.
  - cbn. intro R. inversion R.
    exists [EvNew_DRM_APP_CONTEXT; EvDelete_DRM_APP_CONTEXT q].
    rewrite <- app_assoc. split; [reflexivity |]. unfold live. cbn. rewrite E.
    reflexivity.
  - cbn. intro R. inversion R. exists [EvNew_DRM_APP_CONTEXT].
    split; [reflexivity |]. unfold live. cbn. rewrite E. reflexivity.
Qed.

Lemma petition_loop_balance (fuel : nat) :
  forall code url, relates context_balance (petition_loop sdk fuel code url).
Proof.
  induction fuel as [| fuel IH]; intros code url; cbn [petition_loop].
  - balance_auto.
  - balance_auto. apply IH.
Qed.

Lemma InitSecureClock_balance (fuel : nat) (ctx : option ptr) :
  relates context_balance (InitSecureClock H sdk fuel ctx).
Proof.
  unfold InitSecureClock, SAFE_OEM_FREE. balance_auto; apply petition_loop_balance.
Qed.

Lemma DeinitializeSystem_balance : relates context_balance (DeinitializeSystem H sdk).
Proof.
  unfold DeinitializeSystem. balance_auto; apply reset_app_context_balance.
Qed.

Lemma CreateSystemExt_balance (fuel : nat) :
  relates context_balance (CreateSystemExt H sdk fuel).
Proof.
  unfold CreateSystemExt, CreateSystemExt_clock, CreateSystemExt_revocation,
    LoadRevocationList.
  balance_auto;
    first [ apply reset_app_context_new_balance | apply reset_app_context_balance
          | apply InitSecureClock_balance ].
Qed.

Lemma InitializeSystem_balance (fuel : nat) :
  relates context_balance (InitializeSystem H sdk fuel).
Proof.
  unfold InitializeSystem.
  balance_auto; first [ apply DeinitializeSystem_balance | apply CreateSystemExt_balance ].
Qed.

End BalanceOfMethods.

(** X3.  App contexts are allocated and released in balance.  In every
    run of [Deinitialize], [CreateSystemExt], [InitializeSystem] or
    [CreateMediaKeySession] that returns, the [new DRM_APP_CONTEXT]
    allocations of the run, counted with the context the object owned
    before (one or none), are as many as the releases of the run, counted
    with the context it owns after: no allocation is left without its
    release, and no release is made without an allocation. *)
Theorem app_context_is_balanced :
  forall (S : Type) (H : SdkHeaders) (sdk : Sdk S) (fuel : nat),
    relates context_balance (Deinitialize H sdk)
    /\ relates context_balance (CreateSystemExt H sdk fuel)
    /\ relates context_balance (InitializeSystem H sdk fuel)
    /\ relates context_balance (CreateMediaKeySession H sdk fuel).
Proof.
  intros S H sdk fuel. repeat split.
  - apply DeinitializeSystem_balance.
  - apply CreateSystemExt_balance.
  - apply InitializeSystem_balance.
  - unfold CreateMediaKeySession. balance_auto. apply InitializeSystem_balance.
Qed.

(** ** LoadRevocationList: the file is handed over whole *)

(** The read loop on a buffer of which [done] is written and [pad] is
    still to be written, as long as the 32-bit [currSize] does not wrap. *)
Lemma fread_loop_whole (fuel : nat) :
  forall rest done pad : list byte,
    (List.length rest < fuel)%nat ->
    List.length pad = List.length rest ->
    len done + len rest < 2 ^ 32 ->
    fread_loop fuel rest (done ++ pad) (len done) = Some (done ++ rest).
Proof.
  rewrite two_32.
  induction fuel as [| fuel IH]; intros rest done pad Hfuel Hpad Hsmall; [lia |].
  cbn [fread_loop]. cbv zeta.
  destruct rest as [| b rest].
  - destruct pad; [| discriminate Hpad]. reflexivity.
  - set (all := b :: rest) in *.
    assert (Hbuf : List.length (firstn 512 all) = Nat.min 512 (List.length all))
      by apply length_firstn.
    assert (Hall : (0 < List.length all)%nat) by (subst all; cbn; lia).
    assert (Hpos : (len (firstn 512 all) <=? 0) = false).
    { apply Z.leb_gt. unfold len. lia. }
    rewrite Hpos.
    unfold len in Hsmall.
    rewrite memcpy_in_bounds by (unfold len; rewrite ?length_app; lia).
    replace (Z.to_nat (len done)) with (List.length done) by (unfold len; lia).
    replace (Z.to_nat (len done + len (firstn 512 all)))
      with (List.length done + List.length (firstn 512 all))%nat by (unfold len; lia).
    rewrite firstn_app, Nat.sub_diag, firstn_O, app_nil_r, firstn_all.
    rewrite skipn_app, (skipn_all2 done) by lia. cbn [app].
    replace (List.length done + List.length (firstn 512 all) - List.length done)%nat
      with (List.length (firstn 512 all)) by lia.
    rewrite to_u32_small by (rewrite two_32; unfold len; lia).
    replace (len done + len (firstn 512 all)) with (len (done ++ firstn 512 all))
      by (unfold len; rewrite length_app; lia).
    rewrite app_assoc. rewrite IH.
    + rewrite <- app_assoc, firstn_skipn. reflexivity.
    + rewrite length_skipn. lia.
    + rewrite !length_skipn. lia.
    + unfold len. rewrite length_app, length_skipn. lia.
Qed.

(** X4.  [LoadRevocationList] hands the file to the SDK whole.  When the
    file opens with [content], shorter than 4 GiB, and the buffer for it
    is allocated, the blocks of 512 bytes that the read loop copies make up
    [content] again: [Drm_Revocation_StorePackage] is called once, with
    [content] and its length, the buffer is freed after the call whatever
    it answers, and the result is [false] exactly when the answer is a
    failing code. *)
Theorem LoadRevocationList_stores_whole_file :
  forall (S : Type) (sdk : Sdk S) (revListFile : string) (w : World S)
         (content : list byte) (s1 s2 s3 : S) (dr : DRM_RESULT),
    len content < 2 ^ 32 ->
    fopen sdk revListFile (outside w) = (Some content, s1) ->
    BKNI_Malloc sdk (len content) s1 = (true, s2) ->
    Drm_Revocation_StorePackage sdk (m_poAppContext (self w)) content (len content) s2
      = (dr, s3) ->
    LoadRevocationList sdk revListFile w
    = Ret (negb (DRM_FAILED dr))
        (mkWorld s3 (self w)
           (trace w ++ [Evfopen revListFile; EvBKNI_Malloc (len content);
                        EvDrm_Revocation_StorePackage (m_poAppContext (self w));
                        EvBKNI_Free])).
Proof.
  intros S sdk file w content s1 s2 s3 dr Hsmall Eopen Ealloc Estore.
  unfold LoadRevocationList. rewrite bind_call, Eopen. cbn [fst snd]. cbv zeta.
  rewrite bind_call. cbn [outside self trace]. rewrite Ealloc. cbn [fst snd negb].
  pose proof (fread_loop_whole (Datatypes.S (List.length content)) content []
                (repeat x00 (Z.to_nat (len content)))) as Hloop.
  cbn [app] in Hloop. change (len (@nil byte)) with 0 in Hloop.
  rewrite Hloop.
  - rewrite bind_this, bind_call. cbn [outside self trace].
    rewrite to_u32_small by (pose proof (len_nonneg content); lia).
    rewrite Estore. cbn [fst snd]. rewrite <- !app_assoc. cbn [app].
    destruct (DRM_FAILED dr); unfold bind, log, ret; cbn [outside self trace negb];
      rewrite <- app_assoc; reflexivity.
  - apply Nat.lt_succ_diag_r.
  - rewrite repeat_length. unfold len. lia.
  - exact Hsmall.
Qed.

Lemma LoadRevocationList_stores_whole_file_witness :
  LoadRevocationList
    (with_revocation_file three_blocks (scripted all_well no_redirect no_payload))
    DRM_DEFAULT_REVOCATION_LIST_FILE (start (Some 4096))
  = Ret true
      (mkWorld O (sample_object (Some 4096))
         [Evfopen DRM_DEFAULT_REVOCATION_LIST_FILE; EvBKNI_Malloc 1300;
          EvDrm_Revocation_StorePackage (Some 4096); EvBKNI_Free]).
Proof.
  refine (LoadRevocationList_stores_whole_file nat
            (with_revocation_file three_blocks (scripted all_well no_redirect no_payload))
            DRM_DEFAULT_REVOCATION_LIST_FILE (start (Some 4096))
            three_blocks O O O 0 _ eq_refl eq_refl eq_refl).
  reflexivity.
Defined.

(** ** InitializeSystem without a platform *)

Lemma DeinitializeSystem_on_live_context {S : Type} (H : SdkHeaders) (sdk : Sdk S)
  (p : ptr) (w : World S) :
  m_poAppContext (self w) = Some p ->
  DeinitializeSystem H sdk w = Ret tt (torn_down H sdk p w).
Proof.
  intro Ectx. unfold DeinitializeSystem. rewrite bind_this, Ectx.
  rewrite bind_bind, bind_call, bind_bind. unfold bind at 1. rewrite call_unit.
  unfold reset_app_context. rewrite bind_bind, bind_this. cbn [self outside trace].
  rewrite Ectx. unfold bind, log, modify, this. cbn [self outside trace].
  rewrite call_unit. cbn [self outside trace m_drmOemContext set_m_poAppContext].
  unfold torn_down. rewrite <- !app_assoc. reflexivity.
Qed.

Lemma InitializeSystem_no_platform {S : Type} (H : SdkHeaders) (sdk : Sdk S)
  (fuel : nat) (w : World S) :
  platform_unavailable sdk ->
  exists w' l,
    InitializeSystem H sdk fuel w = Ret tt w'
    /\ m_poAppContext (self w') = None
    /\ (m_drmOemContext (self w') = m_drmOemContext (self w)
        \/ m_drmOemContext (self w') = None)
    /\ trace w' = trace w ++ l
    /\ count is_new l = O
    /\ existsb is_Drm_Initialize l = false.
Proof.
  intro Hplat.
  assert (Hrest : forall w0 : World S,
             m_poAppContext (self w0) = None ->
             exists w' l,
               (call (EvDirectory_CreatePath (m_readDir (self w)))
                  (Directory_CreatePath sdk (m_readDir (self w))) ;;;
                default <- peek (NEXUS_default_heap sdk) ;;
                full <- peek (NEXUS_full_heap sdk) ;;
                let heap := select_heap H default full in
                '(dr, f_pOEMContext) <-
                  call (EvDrm_Platform_Initialize heap) (Drm_Platform_Initialize sdk heap) ;;
                if DRM_FAILED dr then ret tt
                else
                  modify (set_m_drmOemContext f_pOEMContext) ;;;
                  match f_pOEMContext with
                  | None => ret tt
                  | Some _ => CreateSystemExt H sdk fuel ;;; ret tt
                  end) w0 = Ret tt w'
               /\ m_poAppContext (self w') = None
               /\ (m_drmOemContext (self w') = m_drmOemContext (self w0)
                   \/ m_drmOemContext (self w') = None)
               /\ trace w' = trace w0 ++ l
               /\ count is_new l = O
               /\ existsb is_Drm_Initialize l = false).
  { intros w0 Ectx. rewrite bind_call. unfold bind at 1, peek. cbn [outside self trace].
    unfold bind at 1. cbv zeta. rewrite bind_call. cbn [outside self trace].
    match goal with
    | |- context [Drm_Platform_Initialize sdk ?heap ?s] =>
        destruct (Hplat heap s) as [Hfail | Hnull];
        destruct (Drm_Platform_Initialize sdk heap s) as [[dr oem] s'] eqn:Eplat;
        cbn [fst snd] in *
    end.
    - rewrite Hfail. eexists _, [_; _]. split; [reflexivity |]. cbn [self trace].
      rewrite <- app_assoc. repeat split; try reflexivity; auto.
    - subst oem. destruct (DRM_FAILED dr).
      + eexists _, [_; _]. split; [reflexivity |]. cbn [self trace].
        rewrite <- app_assoc. repeat split; try reflexivity; auto.
      + eexists _, [_; _]. split; [reflexivity |]. cbn [self trace].
        rewrite <- app_assoc. repeat split; try reflexivity; auto. }
  unfold InitializeSystem. rewrite bind_this.
  destruct (m_poAppContext (self w)) as [p |] eqn:Ectx.
  - unfold bind at 1. rewrite (DeinitializeSystem_on_live_context H sdk p w Ectx).
    destruct (Hrest (torn_down H sdk p w) eq_refl) as (w' & l & E & C & O & T & N & I).
    exists w', ([EvDrm_StoreMgmt_CleanupStore (Some p); EvDrm_Uninitialize (Some p);
                 EvDelete_DRM_APP_CONTEXT p;
                 EvDrm_Platform_Uninitialize (m_drmOemContext (self w))] ++ l).
    split; [exact E |]. split; [exact C |]. split; [exact O |].
    split; [rewrite T; unfold torn_down; cbn [trace]; rewrite <- !app_assoc; reflexivity |].
    split.
    + rewrite count_app, N. reflexivity.
    + rewrite existsb_app, I. reflexivity.
  - rewrite bind_ret. exact (Hrest w Ectx).
Qed.

(** X5.  When the platform cannot be set up ([Drm_Platform_Initialize]
    fails or hands back no OEM context), [InitializeSystem] still returns,
    and it leaves the system down: a context that was live has been torn
    down, [m_poAppContext] is null, no app context has been allocated and
    [Drm_Initialize] has not been called.  [m_drmOemContext] is what it was
    before the call, or null. *)
Theorem InitializeSystem_platform_unavailable :
  forall (S : Type) (H : SdkHeaders) (sdk : Sdk S) (fuel : nat) (w : World S),
    platform_unavailable sdk ->
    exists w' l,
      InitializeSystem H sdk fuel w = Ret tt w'
      /\ m_poAppContext (self w') = None
      /\ (m_drmOemContext (self w') = m_drmOemContext (self w)
          \/ m_drmOemContext (self w') = None)
      /\ trace w' = trace w ++ l
      /\ count is_new l = O
      /\ existsb is_Drm_Initialize l = false.
Proof. intros S H sdk fuel w. apply InitializeSystem_no_platform. Qed.

Lemma platform_fails_unavailable :
  platform_unavailable
    (scripted (answer Q_Drm_Platform_Initialize DRM_E_FAIL store_gone) no_redirect no_payload).
Proof. intros heap s. left. reflexivity. Qed.

Lemma InitializeSystem_platform_unavailable_witness :
  exists w' l,
    InitializeSystem sample_headers
      (scripted (answer Q_Drm_Platform_Initialize DRM_E_FAIL store_gone)
         no_redirect no_payload) 1 (start (Some 77)) = Ret tt w'
    /\ m_poAppContext (self w') = None
    /\ (m_drmOemContext (self w') = Some 512 \/ m_drmOemContext (self w') = None)
    /\ trace w' = [] ++ l
    /\ count is_new l = O
    /\ existsb is_Drm_Initialize l = false.
Proof.
  exact (InitializeSystem_platform_unavailable nat sample_headers
           (scripted (answer Q_Drm_Platform_Initialize DRM_E_FAIL store_gone)
              no_redirect no_payload) 1%nat (start (Some 77))
           platform_fails_unavailable).
Defined.

(** X6.  A session on a system that is down.  When the store file is
    missing and the platform cannot be set up, [CreateMediaKeySession]
    returns [CDMi_SUCCESS] all the same: the session is allocated on a null
    app context, after a re-initialisation that has allocated none. *)
Theorem CreateMediaKeySession_platform_unavailable :
  forall (S : Type) (H : SdkHeaders) (sdk : Sdk S) (fuel : nat) (w : World S),
    fst (File_Exists sdk (m_storeLocation (self w)) (outside w)) = false ->
    platform_unavailable sdk ->
    exists session w' l oem,
      CreateMediaKeySession H sdk fuel w = Ret (CDMi_SUCCESS, session) w'
      /\ m_poAppContext (self w') = None
      /\ trace w' = trace w ++ l ++ [EvNew_MediaKeySession oem None]
      /\ count is_new l = O.
Proof.
  intros S H sdk fuel w Egone Hplat.
  rewrite CreateMediaKeySession_unfold, Egone.
  destruct (InitializeSystem_no_platform H sdk fuel (store_checked sdk w) Hplat)
    as (w1 & l & E & C & _ & T & N & _).
  rewrite E. unfold session_allocated. rewrite C.
  eexists _, _, (EvFile_Exists (m_storeLocation (self w)) :: l), _.
  split; [reflexivity |]. cbn [self trace]. split; [exact C |]. split.
  - rewrite T. unfold store_checked. cbn [trace]. rewrite <- !app_assoc. reflexivity.
  - unfold count in *. cbn [filter is_new]. exact N.
Qed.

Lemma CreateMediaKeySession_platform_unavailable_witness :
  exists session w' l oem,
    CreateMediaKeySession sample_headers
      (scripted (answer Q_Drm_Platform_Initialize DRM_E_FAIL store_gone)
         no_redirect no_payload) 1 (start (Some 77)) = Ret (CDMi_SUCCESS, session) w'
    /\ m_poAppContext (self w') = None
    /\ trace w' = [] ++ l ++ [EvNew_MediaKeySession oem None]
    /\ count is_new l = O.
Proof.
  exact (CreateMediaKeySession_platform_unavailable nat sample_headers
           (scripted (answer Q_Drm_Platform_Initialize DRM_E_FAIL store_gone)
              no_redirect no_payload) 1%nat (start (Some 77)) eq_refl
           platform_fails_unavailable).
Defined.

(** ** InitSecureClock: what the return code tells *)

Lemma to_i32_nonzero (x : Z) : 0 <= x < 2 ^ 32 -> x <> 0 -> to_i32 x <> 0.
Proof.
  unfold to_i32. change (2 ^ 32) with 4294967296. change (2 ^ 31) with 2147483648.
  intros Hx Hnz.
  destruct (Z_lt_dec x 2147483648) as [Hlow | Hhigh].
  - rewrite Z.mod_small by lia. lia.
  - replace ((x + 2147483648) mod 4294967296) with (x - 2147483648).
    + lia.
    + apply Z.mod_unique with (q := 1); lia.
Qed.

Lemma petition_loop_leaves {S : Type} (sdk : Sdk S) (fuel : nat) :
  forall (code : Z) (url : string) (w w1 : World S) (r : Z + string),
    petition_loop sdk fuel code url w = Ret r w1 ->
    (exists l, trace w1 = trace w ++ l /\ forallb is_hop l = true)
    /\ (forall rc, r = inl rc -> rc <> 0).
Proof.
  induction fuel as [| fuel IH]; intros code url w w1 r; cbn [petition_loop].
  - discriminate.
  - destruct (code =? 200).
    + intro E. inversion E. subst. split.
      * exists []. rewrite app_nil_r. split; reflexivity.
      * discriminate.
    + destruct ((code =? 302) || (code =? 301)).
      * rewrite bind_call.
        destruct (PRDY_HTTP_Client_GetSecureTimeUrl sdk url (outside w))
          as [[[petRC code'] url'] s1].
        cbn [fst snd]. destruct (petRC =? 0) eqn:Epet; cbn [negb].
        -- intro E. apply IH in E as ((l & T & F) & Hrc). cbn [trace] in T. split.
           ++ exists (EvPRDY_HTTP_Client_GetSecureTimeUrl url :: l).
              rewrite T, <- app_assoc. split; [reflexivity | exact F].
           ++ exact Hrc.
        -- intro E. inversion E. subst. split.
           ++ exists [EvPRDY_HTTP_Client_GetSecureTimeUrl url]. split; reflexivity.
           ++ intros rc Hrc. inversion Hrc. subst. apply Z.eqb_neq, Epet.
      * intro E. inversion E. subst. split.
        -- exists []. rewrite app_nil_r. split; reflexivity.
        -- intros rc Hrc. inversion Hrc. lia.
Qed.

Lemma hops_have_no_response (ctx : option ptr) (l : list Event) :
  forallb is_hop l = true -> ~ In (EvDrm_SecureTime_ProcessResponse ctx) l.
Proof.
  intros F Hin. rewrite forallb_forall in F. apply F in Hin. discriminate Hin.
Qed.

(** The exit block of [InitSecureClock] frees what is allocated and
    returns [rc]. *)
Lemma InitSecureClock_exit {S : Type} (L : ClockLocals) (w w' : World S) (rc : Z) :
  (@SAFE_OEM_FREE S _ (exit_pbChallenge L) ;;;
   match exit_pTimeChallengeURL L with
   | Some _ => log EvNEXUS_Memory_Free
   | None => ret tt
   end ;;;
   match exit_pbResponse L with
   | Some _ => log EvNEXUS_Memory_Free
   | None => ret tt
   end ;;;
   ret (exit_rc L)) w = Ret rc w' ->
  rc = exit_rc L /\ trace w' = trace w ++ exit_events L.
Proof.
  unfold SAFE_OEM_FREE, bind, log, ret, exit_events.
  destruct (exit_pbChallenge L), (exit_pTimeChallengeURL L), (exit_pbResponse L);
    cbn [outside self trace app]; intro E; inversion E; (split; [reflexivity |]);
    rewrite <- ?app_assoc, ?app_nil_r; reflexivity.
Qed.

Lemma exit_events_no_response (ctx : option ptr) (L : ClockLocals) :
  ~ In (EvDrm_SecureTime_ProcessResponse ctx) (exit_events L).
Proof.
  unfold exit_events.
  destruct (exit_pbChallenge L), (exit_pTimeChallengeURL L), (exit_pbResponse L);
    cbn [app]; intro Hin;
    repeat (destruct Hin as [Hin | Hin]; [discriminate |]); exact Hin.
Qed.

(** X7.  What the return code of [InitSecureClock] tells.  In a run that
    returns, with [post_ret] an unsigned 32-bit number as its type has it,
    the code is [0] in two cases only: [Drm_SecureTime_GenerateChallenge]
    failed (the [ChkDR] leaves [rc] at its initial [0]), or the answer of
    the time authority was handed to [Drm_SecureTime_ProcessResponse].  In
    the second case it is [0] whatever that call answers: a rejected
    response is written to [dr], which is not returned. *)
Theorem InitSecureClock_return_code :
  forall (S : Type) (H : SdkHeaders) (sdk : Sdk S) (fuel : nat) (ctx : option ptr)
         (w w' : World S) (rc : Z),
    (forall url challenge s,
        0 <= fst (fst (fst (PRDY_HTTP_Client_SecureTimeChallengePost sdk url challenge s)))
          < 2 ^ 32) ->
    InitSecureClock H sdk fuel ctx w = Ret rc w' ->
    let answer := fst (Drm_SecureTime_GenerateChallenge sdk ctx (outside w)) in
    exists l,
      trace w' = trace w ++ l
      /\ (rc = 0 <->
          DRM_FAILED (fst answer) = true \/ In (EvDrm_SecureTime_ProcessResponse ctx) l)
      /\ (DRM_FAILED (fst answer) = true ->
          l = EvDrm_SecureTime_GenerateChallenge ctx
              :: match snd answer with
                 | Some _ => [EvOem_MemFree]
                 | None => []
                 end).
Proof.
  intros S H sdk fuel ctx w w' rc Hpost E. cbv zeta. unfold InitSecureClock in E.
  rewrite bind_call in E.
  destruct (Drm_SecureTime_GenerateChallenge sdk ctx (outside w)) as [[dr pbChallenge] s1].
  cbn [fst snd] in *.
  apply bind_Ret in E as (L & w2 & EL & Eexit).
  apply InitSecureClock_exit in Eexit as (Erc & Tf).
  pose proof (exit_events_no_response ctx L) as Ff.
  set (lf := exit_events L) in *. subst rc.
  destruct (DRM_FAILED dr) eqn:Edr.
  { inversion EL. subst. cbn [exit_rc trace] in *.
    exists (EvDrm_SecureTime_GenerateChallenge ctx :: lf).
    rewrite Tf, <- app_assoc. split; [reflexivity |]. split; [split; auto |].
    intros _. subst lf. unfold exit_events. cbn [exit_pbChallenge exit_pTimeChallengeURL
      exit_pbResponse]. rewrite !app_nil_r. destruct pbChallenge; reflexivity. }
  rewrite bind_call in EL. cbn [outside self trace] in EL.
  destruct (NEXUS_Memory_Allocate sdk MAX_URL_LENGTH s1) as [[rc0 allocated] s2].
  cbn [fst snd] in EL.
  destruct (rc0 =? NEXUS_SUCCESS) eqn:Erc0; cbn [negb] in EL.
  2:{ inversion EL. subst. cbn [exit_rc trace] in *.
      eexists. rewrite Tf, <- !app_assoc. split; [reflexivity |]. split; [| discriminate].
      apply Z.eqb_neq in Erc0. unfold NEXUS_SUCCESS in Erc0. split; [contradiction |].
      intros [F | Hin]; [discriminate |]. exfalso.
      cbn [app] in Hin. repeat (destruct Hin as [Hin | Hin]; [discriminate |]).
      exact (Ff Hin). }
  rewrite bind_call in EL. cbn [outside self trace] in EL.
  destruct (PRDY_HTTP_Client_GetForwardLinkUrl sdk (g_dstrHttpSecureTimeServerUrl H) s2)
    as [[[petRC petRespCode] url] s3].
  cbn [fst snd] in EL.
  destruct (petRC =? 0) eqn:EpetRC; cbn [negb] in EL.
  2:{ inversion EL. subst. cbn [exit_rc trace] in *.
      eexists. rewrite Tf, <- !app_assoc. split; [reflexivity |]. split; [| discriminate].
      apply Z.eqb_neq in EpetRC. split; [contradiction |].
      intros [F | Hin]; [discriminate |]. exfalso.
      cbn [app] in Hin. repeat (destruct Hin as [Hin | Hin]; [discriminate |]).
      exact (Ff Hin). }
  apply bind_Ret in EL as (r & w3 & Eloop & EL).
  apply petition_loop_leaves in Eloop as ((lh & Th & Fh) & Hinl).
  cbn [trace] in Th. apply (hops_have_no_response ctx) in Fh.
  destruct r as [rc' | url'].
  { inversion EL. subst. cbn [exit_rc] in *.
    eexists. rewrite Tf, Th, <- !app_assoc. split; [reflexivity |]. split; [| discriminate].
    split; [intro Hz; exfalso; exact (Hinl rc' eq_refl Hz) |].
    intros [F | Hin]; [discriminate |]. exfalso.
    cbn [app] in Hin. repeat (destruct Hin as [Hin | Hin]; [discriminate |]).
    apply in_app_or in Hin as [Hin | Hin]; [exact (Fh Hin) | exact (Ff Hin)]. }
  rewrite bind_call in EL.
  destruct (NEXUS_Memory_Allocate sdk MAX_TIME_CHALLENGE_RESPONSE_LENGTH (outside w3))
    as [[rc'' allocated'] s4].
  cbn [fst snd] in EL.
  destruct (rc'' =? NEXUS_SUCCESS) eqn:Erc''; cbn [negb] in EL.
  2:{ inversion EL. subst. cbn [exit_rc trace] in *.
      eexists. rewrite Tf, Th, <- !app_assoc. split; [reflexivity |]. split; [| discriminate].
      apply Z.eqb_neq in Erc''. unfold NEXUS_SUCCESS in Erc''. split; [contradiction |].
      intros [F | Hin]; [discriminate |]. exfalso.
      cbn [app] in Hin. repeat (destruct Hin as [Hin | Hin]; [discriminate |]).
      apply in_app_or in Hin as [Hin | Hin]; [exact (Fh Hin) |].
      cbn [app] in Hin. repeat (destruct Hin as [Hin | Hin]; [discriminate |]).
      exact (Ff Hin). }
  rewrite bind_call in EL. cbn [outside self trace] in EL.
  pose proof (Hpost url' pbChallenge s4) as Hrange.
  destruct (PRDY_HTTP_Client_SecureTimeChallengePost sdk url' pbChallenge s4)
    as [[[post_ret response] length] s5].
  cbn [fst snd] in EL, Hrange.
  destruct (post_ret =? 0) eqn:Epost; cbn [negb] in EL.
  2:{ inversion EL. subst. cbn [exit_rc trace] in *.
      eexists. rewrite Tf, Th, <- !app_assoc. split; [reflexivity |]. split; [| discriminate].
      apply Z.eqb_neq in Epost. split.
      - intro Hz. exfalso. exact (to_i32_nonzero post_ret Hrange Epost Hz).
      - intros [F | Hin]; [discriminate |]. exfalso.
        cbn [app] in Hin. repeat (destruct Hin as [Hin | Hin]; [discriminate |]).
        apply in_app_or in Hin as [Hin | Hin]; [exact (Fh Hin) |].
        cbn [app] in Hin. repeat (destruct Hin as [Hin | Hin]; [discriminate |]).
        exact (Ff Hin). }
  rewrite bind_call in EL. cbn [outside self trace] in EL.
  inversion EL. subst. cbn [exit_rc trace] in *.
  eexists. rewrite Tf, Th, <- !app_assoc. split; [reflexivity |]. split; [| discriminate].
  apply Z.eqb_eq in Erc''. unfold NEXUS_SUCCESS in Erc''. split; [| intros _; exact Erc''].
  intros _. right. cbn [app]. do 3 right. apply in_or_app. right.
  cbn [app]. do 2 right. left. reflexivity.
Qed.

Lemma InitSecureClock_return_code_witness :
  exists l,
    trace (world_of (InitSecureClock sample_headers
                       (scripted all_well no_redirect no_payload) 1 (Some 4096)
                       (start (Some 4096)))) = [] ++ l
    /\ (0 = 0 <-> false = true \/ In (EvDrm_SecureTime_ProcessResponse (Some 4096)) l)
    /\ (false = true ->
        l = [EvDrm_SecureTime_GenerateChallenge (Some 4096); EvOem_MemFree]).
Proof.
  refine (InitSecureClock_return_code nat sample_headers
            (scripted all_well no_redirect no_payload) 1%nat (Some 4096)
            (start (Some 4096)) _ 0 _ _).
  - intros url challenge s. cbn [scripted PRDY_HTTP_Client_SecureTimeChallengePost fst snd].
    unfold all_well. rewrite two_32. lia.
  - vm_compute. reflexivity.
Defined.

(** ** GetSecureStoreHash *)

(** X8.  [GetSecureStoreHash] for a digest of 32 bytes and a caller whose
    buffer holds 32 bytes when it says so.  The call returns, it neither
    writes to the object nor calls the SDK, and it returns [CDMi_SUCCESS]
    exactly when the store file opens and [secureStoreHashLength] is 32.
    On success the first 32 bytes of the buffer are the SHA-256 of the
    whole file and the bytes after them are unchanged; on failure the
    buffer is unchanged. *)
Theorem GetSecureStoreHash_digest :
  forall (S : Type) (host : Host S) (secureStoreHash : list byte)
         (secureStoreHashLength : Z) (w : World S),
    (forall data, len (SHA256 host data) = SHA256_Length) ->
    (secureStoreHashLength = SHA256_Length -> SHA256_Length <= len secureStoreHash) ->
    let file := fst (DataElementFile host (m_storeLocation (self w)) false (outside w)) in
    exists cr hash' w',
      GetSecureStoreHash host secureStoreHash secureStoreHashLength w = Ret (cr, hash') w'
      /\ self w' = self w /\ trace w' = trace w
      /\ (cr = CDMi_SUCCESS <-> file <> None /\ secureStoreHashLength = SHA256_Length)
      /\ (forall content, cr = CDMi_SUCCESS -> file = Some content ->
          hash' = SHA256 host content ++ skipn (Z.to_nat SHA256_Length) secureStoreHash)
      /\ (cr = CDMi_S_FALSE -> hash' = secureStoreHash).
Proof.
  intros S host hash n w Hdigest Hbuf file. subst file.
  unfold GetSecureStoreHash, calcFileSha256.
  rewrite bind_this, bind_bind, bind_quiet.
  destruct (DataElementFile host (m_storeLocation (self w)) false (outside w))
    as [[content |] s1]; cbn [fst snd].
  - destruct (n =? SHA256_Length) eqn:En.
    + apply Z.eqb_eq in En. specialize (Hbuf En).
      pose proof (@memcpy_in_bounds byte hash (SHA256 host content) 0) as Hcpy.
      rewrite (Hdigest content) in Hcpy. rewrite Hcpy by lia. clear Hcpy.
      eexists _, _, _. split; [reflexivity |]. cbn [self trace].
      split; [reflexivity |]. split; [reflexivity |]. split; [| split].
      * split; [intros _; split; [discriminate | exact En] | reflexivity].
      * intros c _ Ec. inversion Ec. reflexivity.
      * discriminate.
    + apply Z.eqb_neq in En.
      eexists _, _, _. split; [reflexivity |]. cbn [self trace].
      split; [reflexivity |]. split; [reflexivity |]. split; [| split].
      * split; [discriminate | intros [_ E]; contradiction].
      * discriminate.
      * reflexivity.
  - eexists _, _, _. split; [reflexivity |]. cbn [self trace].
    split; [reflexivity |]. split; [reflexivity |]. split; [| split].
    + split; [discriminate | intros [E _]; contradiction].
    + discriminate.
    + reflexivity.
Qed.

Lemma sample_digest_length (data : list byte) : len (sample_digest data) = SHA256_Length.
Proof.
  unfold sample_digest, len. rewrite length_firstn, length_app, repeat_length.
  unfold SHA256_Length. lia.
Qed.

Lemma GetSecureStoreHash_digest_witness :
  exists cr hash' w',
    GetSecureStoreHash (scripted_host store_only 0 None) (repeat xff 40) 32
      (start (Some 4096)) = Ret (cr, hash') w'
    /\ self w' = sample_object (Some 4096) /\ trace w' = []
    /\ (cr = CDMi_SUCCESS <-> store_only "/persist/playready/drmstore" <> None /\ 32 = 32)
    /\ (forall content, cr = CDMi_SUCCESS ->
        store_only "/persist/playready/drmstore" = Some content ->
        hash' = sample_digest content ++ skipn 32 (repeat xff 40))
    /\ (cr = CDMi_S_FALSE -> hash' = repeat xff 40).
Proof.
  refine (GetSecureStoreHash_digest nat (scripted_host store_only 0 None)
            (repeat xff 40) 32 (start (Some 4096)) sample_digest_length _).
  intros _. discriminate.
Defined.

(** ** DeleteSecureStore *)

Lemma DeleteSecureStore_run {S : Type} (host : Host S) (w : World S) :
  DeleteSecureStore host w = Ret CDMi_SUCCESS (store_removed host w).
Proof. unfold DeleteSecureStore. rewrite bind_this, bind_quiet. reflexivity. Qed.

(** X9.  Deleting the store is repaired by the next session.
    [DeleteSecureStore] returns [CDMi_SUCCESS] whatever [remove] answers,
    and calls nothing but [remove].  When the store file is missing after
    it, a call of [CreateMediaKeySession] that follows finds it missing and
    runs [InitializeSystem] again, which creates the store directory,
    before anything else; and if that call returns, it returns
    [CDMi_SUCCESS]. *)
Theorem DeleteSecureStore_then_session :
  forall (S : Type) (H : SdkHeaders) (sdk : Sdk S) (host : Host S) (fuel : nat)
         (w : World S),
    fst (File_Exists sdk (m_storeLocation (self w)) (outside (store_removed host w)))
    = false ->
    DeleteSecureStore host w = Ret CDMi_SUCCESS (store_removed host w)
    /\ (exists l,
           trace (world_of ((DeleteSecureStore host ;;;
                             CreateMediaKeySession H sdk fuel) w))
           = trace w ++ EvFile_Exists (m_storeLocation (self w)) :: l
           /\ In (EvDirectory_CreatePath (m_readDir (self w))) l)
    /\ (forall r w',
           (DeleteSecureStore host ;;; CreateMediaKeySession H sdk fuel) w = Ret r w' ->
           fst r = CDMi_SUCCESS).
Proof.
  intros S H sdk host fuel w Egone.
  split; [apply DeleteSecureStore_run |].
  rewrite (bind_of_Ret _ _ _ _ _ (DeleteSecureStore_run host w)).
  rewrite CreateMediaKeySession_unfold.
  change (self (store_removed host w)) with (self w). rewrite Egone.
  destruct (InitializeSystem_creates_path H sdk fuel (store_checked sdk (store_removed host w)))
    as (l & T & Hin).
  change (trace (store_checked sdk (store_removed host w)))
    with (trace w ++ [EvFile_Exists (m_storeLocation (self w))]) in T.
  change (m_readDir (self (store_checked sdk (store_removed host w))))
    with (m_readDir (self w)) in Hin.
  destruct (InitializeSystem H sdk fuel (store_checked sdk (store_removed host w)))
    as [u w1 | w1 | w1]; cbn [world_of] in T.
  - split.
    + exists (l ++ [EvNew_MediaKeySession (m_drmOemContext (self w1))
                      (m_poAppContext (self w1))]).
      unfold session_allocated. cbn [world_of trace]. rewrite T, <- !app_assoc.
      split; [reflexivity | apply in_or_app; left; exact Hin].
    + intros r w' E. unfold session_allocated in E. inversion E. reflexivity.
  - split; [| discriminate].
    exists l. cbn [world_of]. rewrite T, <- app_assoc. split; [reflexivity | exact Hin].
  - split; [| discriminate].
    exists l. cbn [world_of]. rewrite T, <- app_assoc. split; [reflexivity | exact Hin].
Qed.

Lemma DeleteSecureStore_then_session_witness :
  DeleteSecureStore (scripted_host no_files 0 None) (start (Some 77))
  = Ret CDMi_SUCCESS (start (Some 77))
  /\ (exists l,
         trace (world_of ((DeleteSecureStore (scripted_host no_files 0 None) ;;;
                           CreateMediaKeySession sample_headers
                             (scripted store_gone no_redirect no_payload) 1)
                            (start (Some 77))))
         = [] ++ EvFile_Exists "/persist/playready/drmstore" :: l
         /\ In (EvDirectory_CreatePath "/persist/playready/") l)
  /\ (forall r w',
         (DeleteSecureStore (scripted_host no_files 0 None) ;;;
          CreateMediaKeySession sample_headers
            (scripted store_gone no_redirect no_payload) 1) (start (Some 77)) = Ret r w' ->
         fst r = CDMi_SUCCESS).
Proof.
  exact (DeleteSecureStore_then_session nat sample_headers
           (scripted store_gone no_redirect no_payload)
           (scripted_host no_files 0 None) 1%nat (start (Some 77)) eq_refl).
Defined.

(** ** Initialize *)

Lemma memcpy_fits {A : Type} (dst src dst' : list A) (n : Z) :
  memcpy dst 0 src n = Some dst' -> n <= len dst.
Proof.
  unfold memcpy.
  destruct ((0 <=? 0) && (0 <=? n) && (0 + n <=? len dst) && (n <=? len src)) eqn:E;
    [| discriminate].
  rewrite !andb_true_iff in E. destruct E as [[[_ _] E] _].
  apply Z.leb_le in E. intros _. lia.
Qed.

Lemma to_u32_fits (x : Z) : 0 <= x -> x <= to_u32 x -> to_u32 x = x /\ x < 2 ^ 32.
Proof.
  unfold to_u32. rewrite two_32. intros Hx Hle.
  pose proof (Z.mod_pos_bound x 4294967296 ltac:(lia)) as Hb.
  pose proof (Z.mod_le x 4294967296 Hx ltac:(lia)) as Hm.
  split; [lia |]. lia.
Qed.

(** X10.  What [Initialize] leaves in the object when it returns.  The
    read directory is the persistent path of the shell followed by
    [playready/], and the store file is [drmstore] in it; the set-up that
    follows creates that directory.  The metering certificate is read only
    when the configuration names one: if its file can be read, the object
    holds all of its content and its size, which is below 4 GiB (a larger
    file overruns the buffer, whose size is cut to 32 bits); if it cannot,
    this is not an error, the certificate members stay as they were and the
    system is set up all the same. *)
Theorem Initialize_configures :
  forall (S : Type) (H : SdkHeaders) (sdk : Sdk S) (host : Host S) (fuel : nat)
         (persistent configline : string) (w w' : World S),
    Initialize H sdk host fuel persistent configline w = Ret tt w' ->
    m_readDir (self w') = (persistent ++ "playready/")%string
    /\ m_storeLocation (self w') = ((persistent ++ "playready/") ++ "drmstore")%string
    /\ (exists l, trace w' = trace w ++ l
                  /\ In (EvDirectory_CreatePath (persistent ++ "playready/")%string) l)
    /\ match metering_file host persistent configline w with
       | Some content =>
           m_meteringCertificate (self w') = Some content
           /\ m_meteringCertificateSize (self w') = len content
           /\ len content < 2 ^ 32
       | None =>
           m_meteringCertificate (self w') = m_meteringCertificate (self w)
           /\ m_meteringCertificateSize (self w') = m_meteringCertificateSize (self w)
       end.
Proof.
  intros S H sdk host fuel persistent configline w w' E.
  unfold Initialize in E. cbv zeta in E.
  apply bind_Ret in E as ([] & w1 & E1 & E). inversion E1. subst w1. clear E1.
  rewrite bind_quiet in E. cbn [outside self trace] in E.
  fold (environment_set host persistent w) in E.
  apply bind_Ret in E as ([] & w2 & Ecert & Einit).
  pose proof (InitializeSystem_configuration H sdk fuel w2 tt w' Einit) as Hconf.
  unfold same_member, configuration in Hconf.
  injection Hconf as Hdir Hstore Hcert Hsize.
  pose proof (InitializeSystem_creates_path H sdk fuel w2) as (l & T & Hin).
  rewrite Einit in T. cbn [world_of] in T.
  assert (Hw2 : m_readDir (self w2) = (persistent ++ "playready/")%string
                /\ m_storeLocation (self w2)
                   = ((persistent ++ "playready/") ++ "drmstore")%string
                /\ trace w2 = trace w
                /\ match metering_file host persistent configline w with
                   | Some content =>
                       m_meteringCertificate (self w2) = Some content
                       /\ m_meteringCertificateSize (self w2) = len content
                       /\ len content < 2 ^ 32
                   | None =>
                       m_meteringCertificate (self w2) = m_meteringCertificate (self w)
                       /\ m_meteringCertificateSize (self w2)
                          = m_meteringCertificateSize (self w)
                   end).
  { unfold metering_file.
    destruct (Config_MeteringCertificate host configline) as [file |].
    - rewrite bind_quiet in Ecert. cbn [outside self trace] in Ecert.
      destruct (DataElementFile host file true (environment_set host persistent w))
        as [[content |] s2]; cbn [fst snd] in *.
      + destruct (memcpy (repeat None (Z.to_nat (to_u32 (len content)))) 0
                    (map Some content) (len content)) as [buf |] eqn:Ecpy;
          [| discriminate].
        apply memcpy_fits in Ecpy. unfold len at 2 in Ecpy. rewrite repeat_length in Ecpy.
        assert (Hu : 0 <= to_u32 (len content)).
        { unfold to_u32. apply Z.mod_pos_bound. rewrite two_32. lia. }
        rewrite Z2Nat.id in Ecpy by exact Hu.
        apply to_u32_fits in Ecpy as [Esize Hlt]; [| apply len_nonneg].
        inversion Ecert. cbn. rewrite Esize. repeat split; try reflexivity. exact Hlt.
      + inversion Ecert. cbn. repeat split; reflexivity.
    - inversion Ecert. cbn. repeat split; reflexivity. }
  destruct Hw2 as (Hdir2 & Hstore2 & Ht2 & Hm2).
  split; [congruence |]. split; [congruence |]. split.
  - exists l. rewrite T, Ht2. split; [reflexivity |]. rewrite <- Hdir2. exact Hin.
  - rewrite Hcert, Hsize. exact Hm2.
Qed.

Lemma Initialize_configures_witness :
  let w' :=
    world_of (Initialize sample_headers (scripted all_well no_redirect no_payload)
                (scripted_host with_certificate 0 (Some "/etc/playready/metering.cert"%string))
                1 "/persist/" "{}" (mkWorld O constructed [])) in
  m_readDir (self w') = "/persist/playready/"%string
  /\ m_storeLocation (self w') = "/persist/playready/drmstore"%string
  /\ (exists l, trace w' = [] ++ l
                /\ In (EvDirectory_CreatePath "/persist/playready/"%string) l)
  /\ m_meteringCertificate (self w') = Some sample_certificate
     /\ m_meteringCertificateSize (self w') = 5
     /\ 5 < 2 ^ 32.
Proof.
  intro w'.
  assert (E : Initialize sample_headers (scripted all_well no_redirect no_payload)
                (scripted_host with_certificate 0
                   (Some "/etc/playready/metering.cert"%string))
                1 "/persist/" "{}" (mkWorld O constructed []) = Ret tt w').
  { vm_compute. reflexivity. }
  exact (Initialize_configures nat sample_headers
           (scripted all_well no_redirect no_payload)
           (scripted_host with_certificate 0 (Some "/etc/playready/metering.cert"%string))
           1%nat "/persist/" "{}" (mkWorld O constructed []) w' E).
Defined.

(** ** Secure stops: the session id and the result codes *)

Lemma DRM_ID_copied (sessionID : list byte) (n : Z) :
  0 <= n <= DRM_ID_SIZE -> n <= len sessionID ->
  memcpy fresh_DRM_ID 0 (map Some sessionID) n = Some (DRM_ID_of sessionID n).
Proof.
  unfold DRM_ID_SIZE. intros Hn Hsid. unfold memcpy, DRM_ID_of, DRM_ID_SIZE.
  match goal with
  | |- (if ?c then _ else _) = _ => replace c with true
  end.
  - cbn [Z.to_nat firstn app Z.add]. rewrite firstn_map. f_equal. f_equal.
    unfold fresh_DRM_ID, DRM_ID_SIZE.
    replace (Z.to_nat 16) with (Z.to_nat n + Z.to_nat (16 - n))%nat by lia.
    rewrite repeat_app, skipn_app, repeat_length, Nat.sub_diag.
    rewrite skipn_all2 by (rewrite repeat_length; lia). reflexivity.
  - symmetry. rewrite !andb_true_iff.
    unfold len, fresh_DRM_ID, DRM_ID_SIZE in *. rewrite repeat_length, length_map.
    repeat split; apply Z.leb_le; lia.
Qed.

Lemma DRM_ID_overrun (sessionID : list byte) (n : Z) :
  DRM_ID_SIZE < n -> memcpy fresh_DRM_ID 0 (map Some sessionID) n = None.
Proof.
  intro Hn. apply memcpy_past_the_end. unfold fresh_DRM_ID, len.
  rewrite repeat_length. unfold DRM_ID_SIZE in *. lia.
Qed.

(** X11.  The session id that the secure-stop calls hand to the SDK.
    [sessionIDLength] bytes are copied into a local [DRM_ID] of 16 bytes
    that is not initialised.
    - With more than 16, the copy overruns the local before the SDK is
      called.
    - With 16 or fewer (and as many bytes in [sessionID]), the SDK gets the
      bytes of [sessionID] followed by the bytes of the local that were
      never written.
    - Only with 16 is every byte of the id that the SDK gets a byte of
      [sessionID]. *)
Theorem secure_stop_session_id :
  forall (S : Type) (sdk : Sdk S) (sessionID : list byte) (sessionIDLength : Z)
         (rawData : option (list byte)) (rawSize : Z)
         (serverResponse : list byte) (serverResponseLength : Z) (w : World S),
    sessionIDLength <> 0 -> serverResponseLength <> 0 ->
    (DRM_ID_SIZE < sessionIDLength ->
     GetSecureStop sdk sessionID sessionIDLength rawData rawSize w = Undef w
     /\ CommitSecureStop sdk sessionID sessionIDLength serverResponse
          serverResponseLength w = Undef w)
    /\ (0 <= sessionIDLength <= DRM_ID_SIZE -> sessionIDLength <= len sessionID ->
        (exists l,
            trace (world_of (GetSecureStop sdk sessionID sessionIDLength rawData rawSize w))
            = trace w ++ EvDrm_SecureStop_GenerateChallenge (m_poAppContext (self w))
                           (DRM_ID_of sessionID sessionIDLength) :: l)
        /\ (exists l,
               trace (world_of (CommitSecureStop sdk sessionID sessionIDLength
                                  serverResponse serverResponseLength w))
               = trace w ++ EvDrm_SecureStop_ProcessResponse (m_poAppContext (self w))
                              (DRM_ID_of sessionID sessionIDLength) :: l)
        /\ (In None (DRM_ID_of sessionID sessionIDLength)
            <-> sessionIDLength < DRM_ID_SIZE)).
Proof.
  intros S sdk sid n rawData rawSize resp m w Hn Hm. split.
  - intro Hover. unfold GetSecureStop, CommitSecureStop. cbv zeta.
    apply Z.eqb_neq in Hn, Hm. rewrite Hn, Hm. cbn [CDMi_RESULT_eqb].
    rewrite (DRM_ID_overrun sid n Hover). split; reflexivity.
  - intros Hrange Hsid. split; [| split].
    + unfold GetSecureStop. rewrite (DRM_ID_copied sid n Hrange Hsid).
      rewrite bind_this, bind_call.
      destruct (Drm_SecureStop_GenerateChallenge sdk (m_poAppContext (self w))
                  (DRM_ID_of sid n) (m_meteringCertificateSize (self w))
                  (m_meteringCertificate (self w)) (outside w))
        as [[[dr size] chal] s1].
      cbn [fst snd]. exists [].
      destruct (negb (dr =? DRM_SUCCESS)); [reflexivity |].
      destruct rawData as [buf |]; [| reflexivity].
      destruct (rawSize >=? size); [| reflexivity].
      destruct (memcpy buf 0 chal size); reflexivity.
    + unfold CommitSecureStop. cbv zeta.
      apply Z.eqb_neq in Hn, Hm. rewrite Hn, Hm. cbn [CDMi_RESULT_eqb].
      rewrite (DRM_ID_copied sid n Hrange Hsid).
      rewrite bind_this, bind_call.
      destruct (Drm_SecureStop_ProcessResponse sdk (m_poAppContext (self w))
                  (DRM_ID_of sid n) (m_meteringCertificateSize (self w))
                  (m_meteringCertificate (self w)) m resp (outside w))
        as [[[dr size] custom] s1].
      cbn [fst snd]. unfold SAFE_OEM_FREE, bind, log, ret.
      destruct custom; cbn [world_of trace]; [exists [EvOem_MemFree] | exists []];
        rewrite <- ?app_assoc; reflexivity.
    + unfold DRM_ID_of. rewrite in_app_iff. split.
      * intros [Hin | Hin].
        -- apply in_map_iff in Hin as (b & Hb & _). discriminate Hb.
        -- destruct (Z.to_nat (DRM_ID_SIZE - n)) eqn:E; [contradiction | lia].
      * intro Hlt. right.
        replace (Z.to_nat (DRM_ID_SIZE - n))
          with (Datatypes.S (Z.to_nat (DRM_ID_SIZE - n - 1))) by lia.
        left. reflexivity.
Qed.

Lemma secure_stop_session_id_witness :
  (exists l,
      trace (world_of (GetSecureStop (scripted all_well no_redirect small_challenge)
                         [x01; x02; x03] 3 None 0 (start (Some 4096))))
      = [] ++ EvDrm_SecureStop_GenerateChallenge (Some 4096)
                (DRM_ID_of [x01; x02; x03] 3) :: l)
  /\ (exists l,
         trace (world_of (CommitSecureStop (scripted all_well no_redirect small_challenge)
                            [x01; x02; x03] 3 [x3c] 1 (start (Some 4096))))
         = [] ++ EvDrm_SecureStop_ProcessResponse (Some 4096)
                   (DRM_ID_of [x01; x02; x03] 3) :: l)
  /\ (In None (DRM_ID_of [x01; x02; x03] 3) <-> 3 < DRM_ID_SIZE).
Proof.
  refine (proj2 (secure_stop_session_id nat
                   (scripted all_well no_redirect small_challenge)
                   [x01; x02; x03] 3 None 0 [x3c] 1 (start (Some 4096)) _ _) _ _).
  - discriminate.
  - discriminate.
  - unfold DRM_ID_SIZE. lia.
  - unfold len. cbn. lia.
Defined.

(** X12.  The result codes of the secure-stop queries, for calls that
    return.
    - [GetSecureStopIds] returns [CDMi_SUCCESS] exactly when the
      enumeration answers [DRM_SUCCESS] or [DRM_E_NOMORE]; [count] is what
      the SDK wrote to it in either case, and on failure [ids] is
      unchanged.
    - [GetSecureStop] returns [CDMi_SUCCESS] exactly when the challenge
      generation answers [DRM_SUCCESS], any other code being a failure; on
      failure neither the buffer nor [rawSize] is written. *)
Theorem secure_stop_result_codes :
  forall (S : Type) (H : SdkHeaders) (sdk : Sdk S) (w w' : World S),
    (forall ids idsLength cr ids' count,
        GetSecureStopIds H sdk ids idsLength w = Ret (cr, ids', count) w' ->
        let answer :=
          fst (Drm_SecureStop_EnumerateSessions sdk (m_poAppContext (self w))
                 (m_meteringCertificateSize (self w)) (m_meteringCertificate (self w))
                 (outside w)) in
        (cr = CDMi_SUCCESS <->
           fst (fst answer) = DRM_SUCCESS \/ fst (fst answer) = DRM_E_NOMORE H)
        /\ count = snd (fst answer)
        /\ (cr = CDMi_S_FALSE -> ids' = ids))
    /\ (forall sessionID sessionIDLength rawData rawSize id cr rawData' rawSize',
           memcpy fresh_DRM_ID 0 (map Some sessionID) sessionIDLength = Some id ->
           GetSecureStop sdk sessionID sessionIDLength rawData rawSize w
           = Ret (cr, rawData', rawSize') w' ->
           let answer :=
             fst (Drm_SecureStop_GenerateChallenge sdk (m_poAppContext (self w)) id
                    (m_meteringCertificateSize (self w)) (m_meteringCertificate (self w))
                    (outside w)) in
           (cr = CDMi_SUCCESS <-> fst (fst answer) = DRM_SUCCESS)
           /\ (cr = CDMi_S_FALSE -> rawData' = rawData /\ rawSize' = rawSize)).
Proof.
  intros S H sdk w w'. split.
  - intros ids idsLength cr ids' count. unfold GetSecureStopIds.
    rewrite bind_this, bind_call.
    destruct (Drm_SecureStop_EnumerateSessions sdk (m_poAppContext (self w))
                (m_meteringCertificateSize (self w)) (m_meteringCertificate (self w))
                (outside w)) as [[[dr cnt] a] s1].
    cbn [fst snd]. intro E.
    apply bind_Ret in E as ([cr0 ids0] & w1 & Ecopy & E).
    apply bind_Ret in E as (u & w2 & _ & E). unfold ret in E.
    injection E as -> -> -> _.
    destruct (dr =? DRM_SUCCESS) eqn:E0; cbn [negb andb] in Ecopy.
    + apply Z.eqb_eq in E0.
      assert (Hcr : cr = CDMi_SUCCESS).
      { destruct (count <=? 0); [inversion Ecopy; reflexivity |].
        destruct a as [a |]; [| discriminate].
        destruct (copy_ids (Z.to_nat count) 0 a ids); [| discriminate].
        inversion Ecopy. reflexivity. }
      subst cr. repeat split; auto. discriminate.
    + apply Z.eqb_neq in E0. destruct (dr =? DRM_E_NOMORE H) eqn:E1; cbn [negb] in Ecopy.
      * apply Z.eqb_eq in E1.
        assert (Hcr : cr = CDMi_SUCCESS).
        { destruct (count <=? 0); [inversion Ecopy; reflexivity |].
          destruct a as [a |]; [| discriminate].
          destruct (copy_ids (Z.to_nat count) 0 a ids); [| discriminate].
          inversion Ecopy. reflexivity. }
        subst cr. repeat split; auto. discriminate.
      * apply Z.eqb_neq in E1. inversion Ecopy. subst.
        repeat split; auto; try discriminate. intros [F | F]; contradiction.
  - intros sid n rawData rawSize id cr rawData' rawSize' Hid. unfold GetSecureStop.
    rewrite Hid, bind_this, bind_call.
    destruct (Drm_SecureStop_GenerateChallenge sdk (m_poAppContext (self w)) id
                (m_meteringCertificateSize (self w)) (m_meteringCertificate (self w))
                (outside w)) as [[[dr size] chal] s1].
    cbn [fst snd]. destruct (dr =? DRM_SUCCESS) eqn:E0; cbn [negb].
    + apply Z.eqb_eq in E0. intro E.
      assert (Hcr : cr = CDMi_SUCCESS).
      { destruct rawData as [buf |]; [| inversion E; reflexivity].
        destruct (rawSize >=? size); [| inversion E; reflexivity].
        destruct (memcpy buf 0 chal size); [| discriminate].
        inversion E. reflexivity. }
      subst cr. repeat split; auto; discriminate.
    + apply Z.eqb_neq in E0. intro E. inversion E. subst.
      repeat split; auto; try discriminate. intro F. contradiction.
Qed.

Lemma secure_stop_result_codes_witness :
  (CDMi_S_FALSE = CDMi_SUCCESS <-> DRM_E_FAIL = DRM_SUCCESS)
  /\ (CDMi_S_FALSE = CDMi_S_FALSE -> @None (list byte) = None /\ 0 = 0).
Proof.
  refine (proj2 (secure_stop_result_codes nat sample_headers
                   (scripted (answer Q_Drm_SecureStop_GenerateChallenge DRM_E_FAIL
                                all_well) no_redirect small_challenge)
                   (start (Some 4096))
                   (mkWorld O (sample_object (Some 4096))
                      [EvDrm_SecureStop_GenerateChallenge (Some 4096)
                         (map Some session16)]))
            session16 16 None 0 (map Some session16) CDMi_S_FALSE None 0
            eq_refl _).
  vm_compute. reflexivity.
Defined.

(** ** CreateSystemExt: a clock query that answers a warning *)

Lemma bind_modify {S B : Type} (f : PlayReady -> PlayReady) (k : unit -> M S B)
  (w : World S) :
  bind (modify f) k w = k tt (mkWorld (outside w) (f (self w)) (trace w)).
Proof. reflexivity. Qed.

Lemma reset_app_context_new_run {S : Type} (sdk : Sdk S) (w : World S) :
  reset_app_context_new sdk w
  = Ret tt (mkWorld (snd (new_DRM_APP_CONTEXT sdk (outside w)))
              (set_m_poAppContext (Some (fst (new_DRM_APP_CONTEXT sdk (outside w))))
                 (self w))
              (trace w ++ EvNew_DRM_APP_CONTEXT
                 :: match m_poAppContext (self w) with
                    | Some q => [EvDelete_DRM_APP_CONTEXT q]
                    | None => []
                    end)).
Proof.
  unfold reset_app_context_new. rewrite bind_call, bind_this. cbn [self].
  destruct (m_poAppContext (self w)); unfold bind, log, ret, modify;
    cbn [outside self trace]; rewrite <- ?app_assoc; reflexivity.
Qed.


Lemma sample_clock_warning :
  forall ctx s,
    fst (Drm_SecureTime_GetValue (clock_answers 1) ctx s) = 1.
Proof. reflexivity. Qed.


(** ** InitializeSystem on a live context *)

(** X14.  Setting the system up again starts with the tear-down.  On a
    live app context [p], every run of [InitializeSystem], however it ends,
    first cleans the store of [p], uninitialises and releases [p] and
    releases the platform, and only then creates the directory and asks for
    the platform again: the old context is gone before anything of the new
    set-up is called. *)
Theorem InitializeSystem_tears_down_first :
  forall (S : Type) (H : SdkHeaders) (sdk : Sdk S) (fuel : nat) (w : World S) (p : ptr),
    m_poAppContext (self w) = Some p ->
    exists heap l,
      trace (world_of (InitializeSystem H sdk fuel w))
      = trace w
        ++ [EvDrm_StoreMgmt_CleanupStore (Some p); EvDrm_Uninitialize (Some p);
            EvDelete_DRM_APP_CONTEXT p;
            EvDrm_Platform_Uninitialize (m_drmOemContext (self w));
            EvDirectory_CreatePath (m_readDir (self w));
            EvDrm_Platform_Initialize heap]
        ++ l.
Proof.
  intros S H sdk fuel w p Ectx.
  unfold InitializeSystem. rewrite bind_this, Ectx.
  unfold bind at 1. rewrite (DeinitializeSystem_on_live_context H sdk p w Ectx).
  rewrite bind_call. unfold bind at 1, peek. unfold bind at 1. cbv zeta.
  cbn [outside self trace torn_down].
  match goal with
  | |- context [bind (call (EvDrm_Platform_Initialize ?heap) ?f) ?k] =>
      exists heap;
      destruct (@call_then S _ _ any (EvDrm_Platform_Initialize heap) f k) with
        (w := mkWorld
                (snd (Directory_CreatePath sdk (m_readDir (self w))
                        (outside (torn_down H sdk p w))))
                (self (torn_down H sdk p w))
                (trace (torn_down H sdk p w)
                 ++ [EvDirectory_CreatePath (m_readDir (self w))]))
        as (l & T & l' & -> & _)
  end.
  - intros [dr oem]. emits_auto. apply CreateSystemExt_emits_any.
  - exists l'. unfold torn_down in T. cbn [outside self trace] in T.
    rewrite T. rewrite <- !app_assoc. reflexivity.
Qed.

Lemma InitializeSystem_tears_down_first_witness :
  exists heap l,
    trace (world_of (InitializeSystem sample_headers
                       (scripted all_well no_redirect no_payload) 1 (start (Some 77))))
    = [] ++ [EvDrm_StoreMgmt_CleanupStore (Some 77); EvDrm_Uninitialize (Some 77);
             EvDelete_DRM_APP_CONTEXT 77; EvDrm_Platform_Uninitialize (Some 512);
             EvDirectory_CreatePath "/persist/playready/";
             EvDrm_Platform_Initialize heap]
         ++ l.
Proof.
  exact (InitializeSystem_tears_down_first nat sample_headers
           (scripted all_well no_redirect no_payload) 1%nat (start (Some 77)) 77 eq_refl).
Defined.
